(** * mcp-notify: the cache's sync coordinator, the entity caches and
    the mention resolver, embedded from the TypeScript sources

    - [src/cache/db.ts]        the store: three entity tables and [sync_meta]
    - [src/cache/sync.ts]      [isTableSynced], [syncIfNeeded]
    - [src/cache/channels.ts]  [lookupChannel], [getChannelId]; the second
                               text of this cache, with [lookupChannelByName]
                               and [lookupChannelById], is [ChannelsById]
    - [src/cache/users.ts]     [lookupUser], [resolveUser],
                               [lookupUserGroup], [resolveUserGroup]
    - [src/mentions/resolver.ts] [convertMentions]
    - [src/utils/errors.ts]    [ErrorCode], [SlackMcpError]

    Timestamps are [Date.now()] milliseconds, modelled as [Z].  The store and
    the clock form the [World]; a call threads the world explicitly and
    records what it did in a list of [Event]s.  The two [await] points of the
    coordinator, [sleep] and [apiFetchFn], are parameters that transform the
    world: the clock moves there and other processes may write.  The poll
    loops run on a budget of rounds ([fuel]); [poll_total] shows that a
    budget above the distance to the deadline is never used up. *)

From Stdlib Require Import ZArith List Bool Lia Ascii String.
From stdpp Require Import gmap strings.
Import ListNotations.

Local Open Scope Z_scope.

(** ** Constants ([src/cache/sync.ts], lines 4-6) *)

Definition SYNC_TIMEOUT_MS : Z := 30000.
Definition POLL_INTERVAL_MS : Z := 500.
Definition CACHE_TTL_MS : Z := 24 * 60 * 60 * 1000.

(** ** Errors ([src/utils/errors.ts]) *)

Inductive ErrorCode : Set :=
| CHANNEL_NOT_FOUND
| SEND_FAILED
| SYNC_FAILED
| CONFIG_MISSING.

Record SlackMcpError : Set := mkError {
  code : ErrorCode;
  message : string
}.

(** ** The store ([src/cache/db.ts]) *)

(** A row of [channels], [users] or [user_groups]:
    [(id TEXT PRIMARY KEY, name|handle TEXT, synced_at INTEGER)]. *)
Record Entity : Set := mkEntity {
  ent_id : string;
  ent_name : string;
  synced_at : Z
}.

(** A row of [sync_meta], keyed by [table_name]. *)
Record SyncMeta : Set := mkMeta {
  started_at : Z;
  completed_at : Z
}.

Record Db : Type := mkDb {
  channels : list Entity;
  users : list Entity;
  user_groups : list Entity;
  sync_meta : gmap string SyncMeta
}.

Record World : Type := mkWorld {
  db : Db;
  clock : Z          (* what [Date.now()] returns *)
}.

Definition setMeta (m : gmap string SyncMeta) (w : World) : World :=
  {| db := {| channels := channels (db w);
              users := users (db w);
              user_groups := user_groups (db w);
              sync_meta := m |};
     clock := clock w |}.

(** [INSERT OR IGNORE INTO sync_meta (table_name, started_at, completed_at)
    VALUES (?, 0, 0)] *)
Definition upsert (t : string) (m : gmap string SyncMeta) : gmap string SyncMeta :=
  match m !! t with
  | Some _ => m
  | None => <[t := mkMeta 0 0]> m
  end.

(** The seeding transaction of [getDb]. *)
Definition seedMeta (m : gmap string SyncMeta) : gmap string SyncMeta :=
  upsert "user_groups" (upsert "users" (upsert "channels" m)).

(** The store as [getDb] creates it in an empty data directory. *)
Definition emptyDb : Db :=
  {| channels := []; users := []; user_groups := []; sync_meta := seedMeta ∅ |}.

(** [SELECT ... FROM sync_meta WHERE table_name = ?] with [.get]. *)
Definition getMeta (t : string) (w : World) : option SyncMeta :=
  sync_meta (db w) !! t.

(** ** What a call does, as a trace *)

Inductive Event : Type :=
| EvSyncIfNeeded (tableName : string)  (* [syncIfNeeded] was entered *)
| EvLookup                             (* a local lookup ran *)
| EvReadMeta                           (* a [SELECT] on [sync_meta] *)
| EvSleep (t : Z)                      (* [await sleep(POLL_INTERVAL_MS)] begun at [t] *)
| EvClaim (claimTime : Z) (changed : bool)  (* the conditional [UPDATE] *)
| EvFetch                              (* [await apiFetchFn()] *)
| EvMarkCompleted (t : Z)              (* [UPDATE ... SET completed_at = ?] *)
| EvResetLock.                         (* [UPDATE ... SET started_at = completed_at] *)

Inductive Outcome (T : Type) : Type :=
| Returned (r : option T)       (* the promise resolved with [r] ([None] is [null]) *)
| Thrown (e : SlackMcpError)    (* the promise rejected *)
| OutOfFuel.                    (* the model ran out of loop budget *)
Arguments Returned {T} r.
Arguments Thrown {T} e.
Arguments OutOfFuel {T}.

Record Run (T : Type) : Type := mkRun {
  outcome : Outcome T;
  final : World;
  trace : list Event
}.
Arguments mkRun {T} _ _ _.
Arguments outcome {T} _.
Arguments final {T} _.
Arguments trace {T} _.

(** Events that happened before a run. *)
Definition after {T} (pre : list Event) (r : Run T) : Run T :=
  mkRun (outcome r) (final r) (pre ++ trace r).

(** What [await apiFetchFn()] did: resolved, or rejected with a message;
    either way the world it leaves. *)
Inductive FetchResult : Type :=
| FetchOk (w : World)
| FetchErr (w : World) (msg : string).

(** ** [src/cache/sync.ts] *)

(** [isTableSynced]: [(meta?.completed_at ?? 0) > Date.now() - CACHE_TTL_MS]. *)
Definition isTableSynced (tableName : string) (w : World) : bool :=
  match getMeta tableName w with
  | Some meta => completed_at meta
  | None => 0
  end >? clock w - CACHE_TTL_MS.

(** The [WHERE] clause of the claim, apart from [table_name = ?]:
    [completed_at >= started_at OR started_at + ? < ?]. *)
Definition claimable (meta : SyncMeta) (claimTime : Z) : bool :=
  (completed_at meta >=? started_at meta)
  || (started_at meta + SYNC_TIMEOUT_MS <? claimTime).

(** [UPDATE sync_meta SET started_at = ? WHERE table_name = ? AND (...)];
    the second component is [changes]. *)
Definition casClaim (tableName : string) (claimTime : Z)
    (m : gmap string SyncMeta) : gmap string SyncMeta * nat :=
  match m !! tableName with
  | Some meta =>
      if claimable meta claimTime
      then (<[tableName := mkMeta claimTime (completed_at meta)]> m, 1%nat)
      else (m, 0%nat)
  | None => (m, 0%nat)
  end.

(** [UPDATE sync_meta SET completed_at = ? WHERE table_name = ?] *)
Definition markCompleted (tableName : string) (t : Z)
    (m : gmap string SyncMeta) : gmap string SyncMeta :=
  match m !! tableName with
  | Some meta => <[tableName := mkMeta (started_at meta) t]> m
  | None => m
  end.

(** [UPDATE sync_meta SET started_at = completed_at WHERE table_name = ?] *)
Definition resetLock (tableName : string)
    (m : gmap string SyncMeta) : gmap string SyncMeta :=
  match m !! tableName with
  | Some meta => <[tableName := mkMeta (completed_at meta) (completed_at meta)]> m
  | None => m
  end.

Section Coordinator.

Context {T : Type}.
Variable tableName : string.
Variable lookupFn : World -> option T.
Variable apiFetchFn : World -> FetchResult.
(** [await sleep(ms)]: the world when the timer fires. *)
Variable sleep : Z -> World -> World.

(** How a poll loop ends. *)
Inductive PollOut : Type :=
| PollFound (r : T) (w : World) (tr : list Event)  (* [return result] inside the loop *)
| PollExit (w : World) (tr : list Event)           (* deadline passed, or [break] *)
| PollFuel.

Definition pollAfter (pre : list Event) (p : PollOut) : PollOut :=
  match p with
  | PollFound r w tr => PollFound r w (pre ++ tr)
  | PollExit w tr => PollExit w (pre ++ tr)
  | PollFuel => PollFuel
  end.

(** The loop of lines 53-64 and, with [claimTime] for [meta.started_at],
    of lines 80-91:
<<
    while (Date.now() < deadline) {
      await sleep(POLL_INTERVAL_MS);
      const result = lookupFn();
      if (result !== null) return result;
      const updated = db.prepare('SELECT completed_at ...').get(tableName);
      if (updated && updated.completed_at >= since) break;
    }
>> *)
Fixpoint poll (fuel : nat) (deadline since : Z) (w : World) : PollOut :=
  match fuel with
  | O => PollFuel
  | S fuel' =>
      if clock w <? deadline then
        let w1 := sleep POLL_INTERVAL_MS w in
        match lookupFn w1 with
        | Some result => PollFound result w1 [EvSleep (clock w); EvLookup]
        | None =>
            match getMeta tableName w1 with
            | Some updated =>
                if completed_at updated >=? since
                then PollExit w1 [EvSleep (clock w); EvLookup; EvReadMeta]
                else pollAfter [EvSleep (clock w); EvLookup; EvReadMeta]
                               (poll fuel' deadline since w1)
            | None =>
                pollAfter [EvSleep (clock w); EvLookup; EvReadMeta]
                          (poll fuel' deadline since w1)
            end
        end
      else PollExit w []
  end.

(** Steps 1 and 2 (lines 36-68) end in a [return] or fall through to the
    claim. *)
Inductive WaitOut : Type :=
| WaitFound (r : T) (w : World) (tr : list Event)
| WaitProceed (w : World) (tr : list Event)
| WaitFuel.

Definition checkAndWait (fuel : nat) (w : World) : WaitOut :=
  (* Step 1: check cache *)
  match lookupFn w with
  | Some cached => WaitFound cached w [EvLookup]
  | None =>
      let now := clock w in
      (* Step 2: check if another instance is syncing *)
      match getMeta tableName w with
      | Some meta =>
          if started_at meta >? completed_at meta then
            let elapsed := now - started_at meta in
            if elapsed <? SYNC_TIMEOUT_MS then
              let deadline := started_at meta + SYNC_TIMEOUT_MS in
              match poll fuel deadline (started_at meta) w with
              | PollFound result w' tr =>
                  WaitFound result w' ([EvLookup; EvReadMeta] ++ tr)
              | PollExit w' tr =>
                  match lookupFn w' with
                  | Some afterWait =>
                      WaitFound afterWait w' ([EvLookup; EvReadMeta] ++ tr ++ [EvLookup])
                  | None =>
                      WaitProceed w' ([EvLookup; EvReadMeta] ++ tr ++ [EvLookup])
                  end
              | PollFuel => WaitFuel
              end
            else WaitProceed w [EvLookup; EvReadMeta]
          else WaitProceed w [EvLookup; EvReadMeta]
      | None => WaitProceed w [EvLookup; EvReadMeta]
      end
  end.

(** Steps 3 to 7 (lines 70-112). *)
Definition claimAndSync (fuel : nat) (w : World) : Run T :=
  (* Step 3: CAS claim *)
  let claimTime := clock w in
  let claimed := casClaim tableName claimTime (sync_meta (db w)) in
  let w1 := setMeta (fst claimed) w in
  if (snd claimed =? 0)%nat then
    (* Someone else just claimed it: poll and return *)
    let deadline := claimTime + SYNC_TIMEOUT_MS in
    match poll fuel deadline claimTime w1 with
    | PollFound result w2 tr =>
        mkRun (Returned (Some result)) w2 (EvClaim claimTime false :: tr)
    | PollExit w2 tr =>
        mkRun (Returned (lookupFn w2)) w2
              (EvClaim claimTime false :: tr ++ [EvLookup])
    | PollFuel => mkRun OutOfFuel w1 [EvClaim claimTime false]
    end
  else
    (* Step 4-5: fetch and write *)
    match apiFetchFn w1 with
    | FetchOk w2 =>
        (* Step 6: mark completed only on success *)
        let t := clock w2 in
        let w3 := setMeta (markCompleted tableName t (sync_meta (db w2))) w2 in
        (* Step 7: final lookup *)
        mkRun (Returned (lookupFn w3)) w3
              [EvClaim claimTime true; EvFetch; EvMarkCompleted t; EvLookup]
    | FetchErr w2 msg =>
        (* Reset lock to allow immediate retry *)
        let w3 := setMeta (resetLock tableName (sync_meta (db w2))) w2 in
        mkRun (Thrown (mkError SYNC_FAILED
                         ("Failed to sync " +:+ tableName +:+ ": " +:+ msg)))
              w3 [EvClaim claimTime true; EvFetch; EvResetLock]
    end.

Definition syncIfNeeded (fuel : nat) (w : World) : Run T :=
  after [EvSyncIfNeeded tableName]
    match checkAndWait fuel w with
    | WaitFound r w' tr => mkRun (Returned (Some r)) w' tr
    | WaitProceed w' tr => after tr (claimAndSync fuel w')
    | WaitFuel => mkRun OutOfFuel w []
    end.

End Coordinator.

(** ** The entity caches *)

(** [db.prepare('SELECT id FROM t WHERE ...').get(...)] followed by
    [row?.id ?? null]: the id of the first row that satisfies the clause. *)
Definition selectId (where_ : Entity -> bool) (rows : list Entity) : option string :=
  ent_id <$> find where_ rows.

(** The tail of every lookup's clause: [synced_at > Date.now() - CACHE_TTL_MS]. *)
Definition isFresh (w : World) (r : Entity) : bool :=
  synced_at r >? clock w - CACHE_TTL_MS.

(** [WHERE name = ? AND synced_at > ?] ([handle] for [user_groups]). *)
Definition byName (name : string) (w : World) (r : Entity) : bool :=
  String.eqb (ent_name r) name && isFresh w r.

(** [WHERE id = ? AND synced_at > ?] *)
Definition byId (id : string) (w : World) (r : Entity) : bool :=
  String.eqb (ent_id r) id && isFresh w r.

(** A resolve function answers from the cache alone. *)
Definition answered (r : option string) (w : World) (tr : list Event) : Run string :=
  mkRun (Returned r) w tr.

(** *** [src/cache/channels.ts] *)

Definition lookupChannel (name : string) (w : World) : option string :=
  selectId (byName name w) (channels (db w)).

Section EntityCaches.

(** [await sleep(ms)], and the three refresh closures [() => fetchX(client)]:
    what the remote listing and the replace transaction leave behind. *)
Variable sleep : Z -> World -> World.
Variable fetchChannels fetchUsers fetchUserGroups : World -> FetchResult.

Definition getChannelId (name : string) (fuel : nat) (w : World) : Run string :=
  match lookupChannel name w with
  | Some cached => answered (Some cached) w [EvLookup]
  | None =>
      if negb (isTableSynced "channels" w) then
        after [EvLookup; EvReadMeta]
          (syncIfNeeded "channels" (lookupChannel name) fetchChannels sleep fuel w)
      else answered None w [EvLookup; EvReadMeta]
  end.

(** *** [src/cache/users.ts] *)

Definition lookupUser (name : string) (w : World) : option string :=
  selectId (byName name w) (users (db w)).

Definition resolveUser (name : string) (fuel : nat) (w : World) : Run string :=
  match lookupUser name w with
  | Some cached => answered (Some cached) w [EvLookup]
  | None =>
      if negb (isTableSynced "users" w) then
        after [EvLookup; EvReadMeta]
          (syncIfNeeded "users" (lookupUser name) fetchUsers sleep fuel w)
      else answered None w [EvLookup; EvReadMeta]
  end.

Definition lookupUserGroup (handle : string) (w : World) : option string :=
  selectId (byName handle w) (user_groups (db w)).

Definition resolveUserGroup (handle : string) (fuel : nat) (w : World) : Run string :=
  match lookupUserGroup handle w with
  | Some cached => answered (Some cached) w [EvLookup]
  | None =>
      if negb (isTableSynced "user_groups" w) then
        after [EvLookup; EvReadMeta]
          (syncIfNeeded "user_groups" (lookupUserGroup handle) fetchUserGroups sleep fuel w)
      else answered None w [EvLookup; EvReadMeta]
  end.

End EntityCaches.

(** *** The channel cache that also looks up by id

    The sources hold a second text of the channel cache, with
    [lookupChannelByName] and [lookupChannelById] and no [isTableSynced]
    gate; its tests are the channel tests of the repository. *)
Module ChannelsById.

Definition lookupChannelByName (name : string) (w : World) : option string :=
  selectId (byName name w) (channels (db w)).

Definition lookupChannelById (id : string) (w : World) : option string :=
  selectId (byId id w) (channels (db w)).

(** [() => lookupChannelByName(input) ?? lookupChannelById(input)] *)
Definition combinedLookup (input : string) (w : World) : option string :=
  match lookupChannelByName input w with
  | Some byName_ => Some byName_
  | None => lookupChannelById input w
  end.

Definition getChannelId (sleep : Z -> World -> World)
    (fetchChannels : World -> FetchResult)
    (input : string) (fuel : nat) (w : World) : Run string :=
  match lookupChannelByName input w with
  | Some byName_ => answered (Some byName_) w [EvLookup]
  | None =>
      match lookupChannelById input w with
      | Some byId_ => answered (Some byId_) w [EvLookup; EvLookup]
      | None =>
          after [EvLookup; EvLookup]
            (syncIfNeeded "channels" (combinedLookup input) fetchChannels sleep fuel w)
      end
  end.

End ChannelsById.

(** The replace transaction of a refresh: [DELETE FROM t], then
    [INSERT OR REPLACE INTO t (id, name, synced_at) VALUES (?, ?, now)] for
    each pair, in order. *)
Definition insertOrReplace (r : Entity) (rows : list Entity) : list Entity :=
  List.filter (fun x => negb (String.eqb (ent_id x) (ent_id r))) rows ++ [r].

Definition replaceAll (now : Z) (pairs : list (string * string)) : list Entity :=
  fold_left (fun rows p => insertOrReplace (mkEntity (fst p) (snd p) now) rows) pairs [].


(** ** [src/mentions/resolver.ts] *)

(** [\w] (no [u] flag): [[A-Za-z0-9_]]. *)
Definition isWordChar (c : ascii) : bool :=
  let n := nat_of_ascii c in
  ((65 <=? n) && (n <=? 90) || (97 <=? n) && (n <=? 122)
   || (48 <=? n) && (n <=? 57) || (n =? 95))%nat.

(** [[\w.-]] *)
Definition isNameChar (c : ascii) : bool :=
  isWordChar c || Ascii.eqb c "." || Ascii.eqb c "-".

(** [[\w.-]+\w] anchored at the head of [s]: the greedy [+] takes the whole
    run of name characters and backtracks to the last place where a word
    character can close the match, so the match is the longest prefix of the
    run that has at least two characters and ends in a word character.
    [n] counts the characters read so far, [best] is the longest match seen. *)
Fixpoint nameEnd (s : string) (n : nat) (best : option nat) : option nat :=
  match s with
  | String c rest =>
      if isNameChar c then
        nameEnd rest (S n)
                (if isWordChar c && (2 <=? S n)%nat then Some (S n) else best)
      else best
  | EmptyString => best
  end.

Definition matchName (s : string) : option nat := nameEnd s 0%nat None.

(** The message cut by [/(?<!\w)@([\w.-]+\w)/g]: the matches, leftmost first
    and not overlapping, and the characters between them.  [prevWord] says
    whether the character before the head is a word character (the
    lookbehind), [skip] how many characters of the current match remain. *)
Inductive Piece : Set :=
| Plain (c : ascii)
| Mention (name : string).

Fixpoint pieces (prevWord : bool) (skip : nat) (s : string) : list Piece :=
  match s with
  | EmptyString => []
  | String c rest =>
      match skip with
      | S k => pieces (isWordChar c) k rest
      | O =>
          if Ascii.eqb c "@" && negb prevWord then
            match matchName rest with
            | Some k => Mention (substring 0 k rest) :: pieces (isWordChar c) k rest
            | None => Plain c :: pieces (isWordChar c) 0%nat rest
            end
          else Plain c :: pieces (isWordChar c) 0%nat rest
      end
  end.

(** [message.includes('@')] *)
Fixpoint includesAt (s : string) : bool :=
  match s with
  | EmptyString => false
  | String c rest => Ascii.eqb c "@" || includesAt rest
  end.

(** The [while ((match = regex.exec(message)) !== null)] loop filling the
    [Set]: the distinct names, in order of first occurrence. *)
Fixpoint addName (name : string) (names : list string) : list string :=
  match names with
  | [] => [name]
  | n :: rest => if String.eqb n name then names else n :: addName name rest
  end.

Definition mentionNames (message : string) : list string :=
  fold_left (fun names p => match p with
                            | Mention name => addName name names
                            | Plain _ => names
                            end)
            (pieces false 0%nat message) [].

(** A call to one of the two resolvers of [src/cache/users.ts]. *)
Inductive Call : Set :=
| CallGroup (name : string)
| CallUser (name : string).

Definition replacementFor (replacements : list (string * string)) (name : string)
  : option string :=
  snd <$> find (fun e => String.eqb (fst e) name) replacements.

(** [message.replace(regex, (full, name) => replacements.get(name) ?? full)] *)
Definition replaceMentions (replacements : list (string * string)) (message : string)
  : string :=
  fold_right (fun p out =>
                match p with
                | Plain c => String c out
                | Mention name =>
                    match replacementFor replacements name with
                    | Some r => r +:+ out
                    | None => "@" +:+ name +:+ out
                    end
                end)
             EmptyString (pieces false 0%nat message).

Section Mentions.

(** What the two resolvers answer for a name ([None] is [null]); here they
    are functions of the name alone. *)
Variable resolveUserGroup resolveUser : string -> option string.

(** [if (groupId)], [if (userId)]: [null] and the empty string are falsy. *)
Definition truthy (o : option string) : option string :=
  match o with
  | Some EmptyString => None
  | _ => o
  end.

(** The body of the [map] callback: the replacement, and the calls made. *)
Definition resolveEntry (name : string) : option string * list Call :=
  match truthy (resolveUserGroup name) with
  | Some groupId => (Some ("<!subteam^" +:+ groupId +:+ ">"), [CallGroup name])
  | None =>
      match truthy (resolveUser name) with
      | Some userId => (Some ("<@" +:+ userId +:+ ">"), [CallGroup name; CallUser name])
      | None => (None, [CallGroup name; CallUser name])
      end
  end.

(** [convertMentions] with the resolver calls it makes (listed name by
    name; [Promise.all] may interleave them). *)
Definition convertMentionsRun (message : string) : string * list Call :=
  if negb (includesAt message) then (message, []) else
  let names := mentionNames message in
  match names with
  | [] => (message, [])
  | _ =>
      let entries := map (fun name => (name, resolveEntry name)) names in
      let calls := concat (map (fun e => snd (snd e)) entries) in
      let replacements :=
        omap (fun e => match fst (snd e) with
                       | Some replacement => Some (fst e, replacement)
                       | None => None
                       end) entries in
      match replacements with
      | [] => (message, calls)
      | _ => (replaceMentions replacements message, calls)
      end
  end.

Definition convertMentions (message : string) : string :=
  fst (convertMentionsRun message).

End Mentions.

(** [s.slice(n)] *)
Fixpoint dropChars (n : nat) (s : string) : string :=
  match n, s with
  | O, _ => s
  | S k, String _ rest => dropChars k rest
  | S _, EmptyString => EmptyString
  end.

(** ** Reading a trace *)

(** The events of a poll loop. *)
Definition isPollEvent (e : Event) : bool :=
  match e with
  | EvSleep _ | EvLookup | EvReadMeta => true
  | _ => false
  end.

Definition isFetch (e : Event) : bool :=
  match e with
  | EvFetch => true
  | _ => false
  end.


Definition isSyncCall (e : Event) : bool :=
  match e with
  | EvSyncIfNeeded _ => true
  | _ => false
  end.

(** How often [apiFetchFn] was invoked. *)
Definition countFetch (tr : list Event) : nat := length (List.filter isFetch tr).

(** Every sleep of the trace began before [deadline]. *)
Definition sleepsBefore (deadline : Z) (tr : list Event) : Prop :=
  forall t, In (EvSleep t) tr -> t < deadline.

(** A loop budget that suffices for both poll loops of [syncIfNeeded] when
    every sleep moves the clock on by its interval: the first loop ends by
    [started_at + SYNC_TIMEOUT_MS], the second by [claimTime + SYNC_TIMEOUT_MS]. *)
Definition enoughFuel (tableName : string) (w : World) : nat :=
  S (Z.to_nat (Z.max SYNC_TIMEOUT_MS
                 match getMeta tableName w with
                 | Some meta => started_at meta + SYNC_TIMEOUT_MS - clock w
                 | None => 0
                 end)).


(** The derived states of a [sync_meta] row. *)
Definition Idle (meta : SyncMeta) : Prop := completed_at meta >= started_at meta.

(** A trace of poll-loop events only: no claim, no refresh. *)
Definition pollOnly (tr : list Event) : Prop :=
  Forall (fun e => isPollEvent e = true) tr.

Section Paths.

Context {T : Type}.
Variable tableName : string.
Variable lookupFn : World -> option T.
Variable apiFetchFn : World -> FetchResult.

(** What a finished poll loop leaves: loop events only, every sleep begun
    before the deadline, and on [return result] the hit itself. *)
Definition PollSpec (deadline : Z) (p : @PollOut T) : Prop :=
  match p with
  | PollFound r w tr => lookupFn w = Some r /\ pollOnly tr /\ sleepsBefore deadline tr
  | PollExit w tr => pollOnly tr /\ sleepsBefore deadline tr
  | PollFuel => True
  end.

(** The claim made at [w]: its [changes] and the world it leaves. *)
Definition claimChanges (w : World) : nat :=
  snd (casClaim tableName (clock w) (sync_meta (db w))).

Definition claimedWorld (w : World) : World :=
  setMeta (fst (casClaim tableName (clock w) (sync_meta (db w)))) w.

(** The ways through [syncIfNeeded]: [pre] is what happened before the
    claim, [w'] the world at the claim, [w2] the world the refresh left.
    The model's loop budget can run out in the first loop ([PathFuel]) or in
    the loser's loop ([PathLost] with [OutOfFuel]). *)
Inductive SyncPath (r : Run T) : Prop :=
| PathHit (pre : list Event) (x : T) :
    trace r = EvSyncIfNeeded tableName :: pre ->
    pollOnly pre ->
    outcome r = Returned (Some x) ->
    lookupFn (final r) = Some x ->
    SyncPath r
| PathLost (pre post : list Event) (w' : World) :
    trace r = EvSyncIfNeeded tableName :: pre ++ EvClaim (clock w') false :: post ->
    pollOnly pre -> pollOnly post ->
    sleepsBefore (clock w' + SYNC_TIMEOUT_MS) post ->
    claimChanges w' = 0%nat ->
    outcome r = OutOfFuel \/ outcome r = Returned (lookupFn (final r)) ->
    SyncPath r
| PathSynced (pre : list Event) (w' w2 : World) :
    trace r = EvSyncIfNeeded tableName
              :: pre ++ [EvClaim (clock w') true; EvFetch;
                         EvMarkCompleted (clock w2); EvLookup] ->
    pollOnly pre ->
    claimChanges w' = 1%nat ->
    apiFetchFn (claimedWorld w') = FetchOk w2 ->
    final r = setMeta (markCompleted tableName (clock w2) (sync_meta (db w2))) w2 ->
    outcome r = Returned (lookupFn (final r)) ->
    SyncPath r
| PathFailed (pre : list Event) (w' w2 : World) (msg : string) :
    trace r = EvSyncIfNeeded tableName
              :: pre ++ [EvClaim (clock w') true; EvFetch; EvResetLock] ->
    pollOnly pre ->
    claimChanges w' = 1%nat ->
    apiFetchFn (claimedWorld w') = FetchErr w2 msg ->
    final r = setMeta (resetLock tableName (sync_meta (db w2))) w2 ->
    outcome r = Thrown (mkError SYNC_FAILED
                          ("Failed to sync " +:+ tableName +:+ ": " +:+ msg)) ->
    SyncPath r
| PathFuel :
    trace r = [EvSyncIfNeeded tableName] ->
    outcome r = OutOfFuel ->
    SyncPath r.

End Paths.

(** ** Scenarios: concrete worlds, timers and refreshes *)

(** A sleep during which nobody writes to the store. *)
Definition tick (ms : Z) (w : World) : World := mkWorld (db w) (clock w + ms).

(** A freshly created store, some day in November 2023. *)
Definition coldStart : World := mkWorld emptyDb 1700000000000.

(** The replace transaction of [fetchChannels], stamped [now]. *)
Definition storeChannels (now : Z) (pairs : list (string * string)) (w : World) : World :=
  mkWorld (mkDb (replaceAll now pairs) (users (db w)) (user_groups (db w))
                (sync_meta (db w)))
          (clock w).

(** A refresh that lists two channels and commits them 120 ms later. *)
Definition fetchTwoChannels (w : World) : FetchResult :=
  FetchOk (tick 120 (storeChannels (clock w) [("C1", "general"); ("C2", "random")] w)).

(** A refresh whose remote call rejects after 120 ms. *)
Definition fetchFails (w : World) : FetchResult :=
  FetchErr (tick 120 w) "network down".

(** A store whose [channels] row another process claimed ten seconds ago
    and never completed. *)
Definition heldByOther : World :=
  mkWorld (mkDb [] [] []
             (<["channels" := mkMeta (1700000000000 - 10000) 0]> (seedMeta ∅)))
          1700000000000.

(** What a caller waiting on [heldByOther] finds when a sleep of its own
    ends: 19.8 s into its wait a third process reclaims the stale row, and
    1.2 s later that process completes its refresh. *)
Definition sleepDuringTakeover (ms : Z) (w : World) : World :=
  let w1 := tick ms w in
  let t0 := clock heldByOther in
  if clock w1 <? t0 + 19800 then w1
  else if clock w1 <? t0 + 21000 then
    setMeta (<["channels" := mkMeta (t0 + 19800) 0]> (sync_meta (db w1))) w1
  else
    setMeta (<["channels" := mkMeta (t0 + 19800) (t0 + 21000)]> (sync_meta (db w1)))
            (storeChannels (t0 + 19800) [("C1", "general"); ("C2", "random")] w1).

(** The waiting caller's call; its own refresh would fail. *)
Definition takeoverRun : Run string :=
  syncIfNeeded "channels" (lookupChannel "general") fetchFails sleepDuringTakeover
               (enoughFuel "channels" heldByOther) heldByOther.

(** Two callers race on the cold store.  Both miss and read the Idle row
    before either claims; the store then commits the winner's claim first. *)
Definition afterWinnerClaim : World := claimedWorld "channels" coldStart.

(** The winner's call, whose refresh rejects. *)
Definition winnerRun : Run string :=
  syncIfNeeded "channels" (lookupChannel "general") fetchFails tick 1 coldStart.

(** What the losing caller finds when a sleep of its own ends: the
    metadata as the winner's failed call left it. *)
Definition sleepWhileWinnerFails (ms : Z) (w : World) : World :=
  tick ms (setMeta (sync_meta (db (final winnerRun))) w).


(** A caller that arrives 100 ms after the winner's claim and finds the row
    held since [clock coldStart]. *)
Definition waiterArrives : World := tick 100 afterWinnerClaim.

Definition isSleep (e : Event) : bool :=
  match e with
  | EvSleep _ => true
  | _ => false
  end.

(** The call of a waiter that arrives while the winner holds the row. *)
Definition waiterRun : Run string :=
  syncIfNeeded "channels" (lookupChannel "general") fetchTwoChannels
               sleepWhileWinnerFails 61 waiterArrives.

(** A store refreshed a minute ago: two channels, one user, one group, all
    rows stamped with the refresh's start. *)
Definition warmStore : World :=
  let t := 1700000000000 in
  mkWorld (mkDb [mkEntity "C1" "general" t; mkEntity "C2" "random" t]
                [mkEntity "U222" "alice" t]
                [mkEntity "S111" "team-a" t]
                (<["channels" := mkMeta t (t + 120)]>
                   (<["users" := mkMeta t (t + 120)]>
                      (<["user_groups" := mkMeta t (t + 120)]> ∅))))
          (t + 60000).

(** A [users] table with one row, synced at [syncedAt]; the clock reads
    [now]. *)
Definition oneUser (syncedAt now : Z) : World :=
  mkWorld (mkDb [] [mkEntity "U222" "alice" syncedAt] [] (seedMeta ∅)) now.

(** Strict freshness of a lookup over [table] keyed by [key]: it misses
    exactly when every row under the key was synced at or before
    [now - CACHE_TTL_MS]; in particular rows synced exactly the TTL ago
    miss, and a row synced one millisecond later hits. *)
Definition StrictTtl (lookup : string -> World -> option string)
    (table : World -> list Entity) (key : Entity -> string) : Prop :=
  forall (w : World) (k : string),
    (lookup k w = None
     <-> forall r, In r (table w) -> key r = k ->
                   synced_at r <= clock w - CACHE_TTL_MS)
    /\ ((forall r, In r (table w) -> key r = k ->
                   synced_at r = clock w - CACHE_TTL_MS) ->
        lookup k w = None)
    /\ (forall r, In r (table w) -> key r = k ->
                  synced_at r = clock w - CACHE_TTL_MS + 1 ->
                  exists x, In x (table w) /\ key x = k
                            /\ lookup k w = Some (ent_id x)).

(** The mocks of the resolver's test for ["@here @alice please check"]. *)
Definition mockResolveUserGroup (name : string) : option string := None.

Definition mockResolveUser (name : string) : option string :=
  if String.eqb name "alice" then Some "U222" else None.

(** ** The refreshes ([fetchChannels], [fetchUsers], [fetchUserGroups])

    The remote directory is a [WebClient]: what awaiting one of its listing
    calls gives, and the world at that moment.  The constant arguments of
    the calls ([types], [exclude_archived], [limit], [include_users]) are
    not part of the model. *)

(** An element of [result.channels], [result.members] or
    [result.usergroups]: its [id] and its [name] (or [handle]), either of
    which the remote may leave out. *)
Record Listed : Set := mkListed {
  listed_id : option string;
  listed_name : option string
}.

(** A listing call resolved with its elements ([[]] where the field is
    missing) and [response_metadata?.next_cursor], or rejected. *)
Inductive ListResult : Type :=
| ListOk (w : World) (elements : list Listed) (next_cursor : option string)
| ListErr (w : World) (msg : string).

Record WebClient : Type := mkWebClient {
  conversations_list : option string -> World -> ListResult;
  users_list : option string -> World -> ListResult;
  usergroups_list : World -> ListResult
}.

(** [if (ch.id && ch.name) channels.push({ id: ch.id, name: ch.name })] *)
Definition validPairs (elements : list Listed) : list (string * string) :=
  omap (fun e => match truthy (listed_id e), truthy (listed_name e) with
                 | Some id, Some name => Some (id, name)
                 | _, _ => None
                 end) elements.

(** How the [do ... while (cursor)] loop ends. *)
Inductive PagesOut : Type :=
| PagesDone (w : World) (pairs : list (string * string))
| PagesErr (w : World) (msg : string)
| PagesFuel.

(** The loop of [fetchChannels] (lines 19-34) and of [fetchUsers]
    (lines 20-31):
<<
    do {
      const result = await list({ ..., cursor });
      for (const ch of result.channels ?? []) { if (ch.id && ch.name) push }
      cursor = result.response_metadata?.next_cursor || undefined;
    } while (cursor);
>> *)
Fixpoint listAll (list_ : option string -> World -> ListResult) (fuel : nat)
    (cursor : option string) (pairs : list (string * string)) (w : World) : PagesOut :=
  match fuel with
  | O => PagesFuel
  | S fuel' =>
      match list_ cursor w with
      | ListErr w' msg => PagesErr w' msg
      | ListOk w' elements next_cursor =>
          let pairs' := pairs ++ validPairs elements in
          match truthy next_cursor with
          | Some cursor' => listAll list_ fuel' (Some cursor') pairs' w'
          | None => PagesDone w' pairs'
          end
      end
  end.

(** The replace transactions on [users] and [user_groups]; the one on
    [channels] is [storeChannels]. *)
Definition storeUsers (now : Z) (pairs : list (string * string)) (w : World) : World :=
  mkWorld (mkDb (channels (db w)) (replaceAll now pairs) (user_groups (db w))
                (sync_meta (db w)))
          (clock w).

Definition storeUserGroups (now : Z) (pairs : list (string * string)) (w : World) : World :=
  mkWorld (mkDb (channels (db w)) (users (db w)) (replaceAll now pairs)
                (sync_meta (db w)))
          (clock w).

(** A refresh ends resolved or rejected, unless the model's budget of pages
    runs out first ([None]). *)
Definition fetchChannels (client : WebClient) (fuel : nat) (w : World)
  : option FetchResult :=
  let now := clock w in
  match listAll (conversations_list client) fuel None [] w with
  | PagesDone w' channels_ => Some (FetchOk (storeChannels now channels_ w'))
  | PagesErr w' msg => Some (FetchErr w' msg)
  | PagesFuel => None
  end.

Definition fetchUsers (client : WebClient) (fuel : nat) (w : World)
  : option FetchResult :=
  let now := clock w in
  match listAll (users_list client) fuel None [] w with
  | PagesDone w' users_ => Some (FetchOk (storeUsers now users_ w'))
  | PagesErr w' msg => Some (FetchErr w' msg)
  | PagesFuel => None
  end.

(** [fetchUserGroups] makes one call and follows no cursor; the test
    [g.id && g.handle] runs inside the transaction. *)
Definition fetchUserGroups (client : WebClient) (w : World) : FetchResult :=
  let now := clock w in
  match usergroups_list client w with
  | ListOk w' groups _ => FetchOk (storeUserGroups now (validPairs groups) w')
  | ListErr w' msg => FetchErr w' msg
  end.

(** ** [src/slack/client.ts] *)

(** The two variables of [process.env] that [getSlackClient] reads. *)
Record Env : Set := mkEnv {
  SLACK_MCP_XOXC_TOKEN : option string;
  SLACK_MCP_XOXD_TOKEN : option string
}.

(** [new WebClient(token, { headers: { Cookie: `d=${xoxd}` } })]: the
    client as its credentials. *)
Record SlackClient : Set := mkSlackClient {
  client_token : string;
  client_cookie : string
}.

(** [getSlackClient] on the module variable [_client]: what it returns or
    throws, and [_client] afterwards. *)
Definition getSlackClient (_client : option SlackClient) (env : Env)
  : (SlackMcpError + SlackClient) * option SlackClient :=
  match _client with
  | Some c => (inr c, _client)
  | None =>
      match truthy (SLACK_MCP_XOXC_TOKEN env) with
      | None =>
          (inl (mkError CONFIG_MISSING
                  "SLACK_MCP_XOXC_TOKEN environment variable is required"), None)
      | Some token =>
          match truthy (SLACK_MCP_XOXD_TOKEN env) with
          | None =>
              (inl (mkError CONFIG_MISSING
                      "SLACK_MCP_XOXD_TOKEN environment variable is required"), None)
          | Some xoxd =>
              let c := mkSlackClient token ("d=" +:+ xoxd) in
              (inr c, Some c)
          end
      end
  end.

(** ** [src/slack/send.ts] *)

(** What a rejected promise carries: a [SlackMcpError], or any other error
    by its message. *)
Inductive JsError : Set :=
| SlackError (e : SlackMcpError)
| OtherError (msg : string).

(** [\d] *)
Definition isDigit (c : ascii) : bool :=
  let n := nat_of_ascii c in ((48 <=? n) && (n <=? 57))%nat.

Fixpoint allDigits (s : string) : bool :=
  match s with
  | EmptyString => true
  | String c rest => isDigit c && allDigits rest
  end.

(** [\.\d{6}$] at the head of [s] *)
Definition dotSixDigits (s : string) : bool :=
  match s with
  | String c rest =>
      Ascii.eqb c "." && (String.length rest =? 6)%nat && allDigits rest
  | EmptyString => false
  end.

(** [\d*\.\d{6}$] at the head of [s]: the digits are taken greedily, and
    nothing but the dot can follow them. *)
Fixpoint digitsDotSix (s : string) : bool :=
  match s with
  | String c rest => if isDigit c then digitsDotSix rest else dotSixDigits s
  | EmptyString => false
  end.

(** [THREAD_TS_RE.test(s)] for [/^\d+\.\d{6}$/] *)
Definition THREAD_TS_RE (s : string) : bool :=
  match s with
  | String c rest => isDigit c && digitsDotSix rest
  | EmptyString => false
  end.

Definition BLOCK_KIT_TEXT_LIMIT : nat := 3000.

(** [s.length]: the number of UTF-16 code units of a JavaScript string.
    The model's strings hold the text in UTF-8, one [ascii] per byte: a
    byte below [0x80] is a character of one unit, a continuation byte
    ([0x80]-[0xBF]) adds nothing, the lead byte of a two- or three-byte
    sequence ([0xC0]-[0xEF]) stands for one unit and the lead byte of a
    four-byte sequence ([0xF0] and above) for the two units of a surrogate
    pair. *)
Definition utf16Units (c : ascii) : nat :=
  let n := nat_of_ascii c in
  if (n <? 128)%nat then 1%nat
  else if (n <? 192)%nat then 0%nat
  else if (n <? 240)%nat then 1%nat
  else 2%nat.

Fixpoint jsLength (s : string) : nat :=
  match s with
  | EmptyString => 0%nat
  | String c rest => (utf16Units c + jsLength rest)%nat
  end.

(** [s.startsWith(sub)] and [s.includes(sub)] *)
Fixpoint startsWith (sub s : string) : bool :=
  match sub, s with
  | EmptyString, _ => true
  | String a sub', String b s' => Ascii.eqb a b && startsWith sub' s'
  | String _ _, EmptyString => false
  end.

Fixpoint includes (sub s : string) : bool :=
  startsWith sub s
  || match s with
     | EmptyString => false
     | String _ rest => includes sub rest
     end.

(** The double quote character, as a string. *)
Definition dquote : string := String (ascii_of_nat 34) EmptyString.

Definition mapSlackError (msg : string) (channelName : string) : SlackMcpError :=
  if includes "channel_not_found" msg then
    mkError CHANNEL_NOT_FOUND
      ("Channel " +:+ dquote +:+ "#" +:+ channelName +:+ dquote
       +:+ " not found. It may not exist or you may not have access.")
  else if includes "not_in_channel" msg then
    mkError SEND_FAILED
      ("You are not a member of " +:+ dquote +:+ "#" +:+ channelName +:+ dquote
       +:+ ". Join the channel first.")
  else if includes "restricted_action" msg then
    mkError SEND_FAILED
      ("Restricted action: you don't have permission to post in "
       +:+ dquote +:+ "#" +:+ channelName +:+ dquote +:+ ".")
  else if includes "thread_not_found" msg then
    mkError SEND_FAILED
      "Thread not found. The thread_ts may be invalid or the parent message was deleted."
  else mkError SEND_FAILED ("Slack API error: " +:+ msg).

Module SendMessageParams.
Record t : Set := mk {
  channel_name : string;
  message : string;
  thread_ts : option string
}.
End SendMessageParams.

Module SendMessageResult.
Inductive Status : Set := success | error.
Record t : Set := mk {
  status : Status;
  message : string;
  channel_name : option string;
  channel_id : option string;
  message_ts : option string;
  sent_message : option string;
  thread_ts : option string
}.
End SendMessageResult.

(** A Block Kit block; every text object is [mrkdwn]. *)
Inductive Block : Set :=
| SectionBlock (text : string)
| ContextBlock (elements : list string).

(** The argument of [client.chat.postMessage]. *)
Module PostArgs.
Record t : Set := mk {
  channel : string;
  unfurl_links : bool;
  unfurl_media : bool;
  thread_ts : option string;
  text : string;
  blocks : option (list Block)
}.
End PostArgs.

(** What [sendMessage] asked of its collaborators, in order. *)
Inductive SendStep : Set :=
| StepConvert (message : string)
| StepChannel (channel_name : string)
| StepPost (args : PostArgs.t).

Inductive SendOutcome : Set :=
| Sent (r : SendMessageResult.t)
| Failed (e : JsError).

(** [baseArgs]: the channel, both unfurl flags off, and [thread_ts] only
    where [params.thread_ts] is truthy. *)
Definition baseArgs (channelId : string) (params : SendMessageParams.t) : PostArgs.t :=
  PostArgs.mk channelId false false (truthy (SendMessageParams.thread_ts params))
              EmptyString None.

(** [{ ...baseArgs, text, blocks }] *)
Definition withText (base : PostArgs.t) (text : string) (blocks : option (list Block))
  : PostArgs.t :=
  PostArgs.mk (PostArgs.channel base) (PostArgs.unfurl_links base)
              (PostArgs.unfurl_media base) (PostArgs.thread_ts base) text blocks.

Definition makeResult (params : SendMessageParams.t) (channelId convertedMessage : string)
    (ts : option string) (fallback : bool) : SendMessageResult.t :=
  SendMessageResult.mk
    SendMessageResult.success
    (if fallback then "Message sent successfully (plain text fallback)"
     else "Message sent successfully")
    (Some (SendMessageParams.channel_name params))
    (Some channelId) ts (Some convertedMessage)
    (SendMessageParams.thread_ts params).

(** The section block with the message and the context block with the
    note. *)
Definition blocksOf (convertedMessage : string) : list Block :=
  [SectionBlock convertedMessage; ContextBlock [":robot_face: Sent by AI assistant"]].

Section Send.

(** The collaborators of [sendMessage], as what awaiting them gives:
    [convertMentions], [getChannelId], and [client.chat.postMessage], which
    resolves with [result.ts] or rejects with an error's message. *)
Variable convertMentions_ : string -> SlackClient -> JsError + string.
Variable getChannelId_ : string -> SlackClient -> JsError + option string.
Variable postMessage : SlackClient -> PostArgs.t -> string + option string.

Definition sendPlainText (client : SlackClient) (baseArgs : PostArgs.t)
    (message channelName : string)
    (makeResult : option string -> bool -> SendMessageResult.t)
  : SendOutcome * list SendStep :=
  let args := withText baseArgs (":robot_face: " +:+ message) None in
  match postMessage client args with
  | inr ts => (Sent (makeResult ts true), [StepPost args])
  | inl error => (Failed (SlackError (mapSlackError error channelName)), [StepPost args])
  end.

Definition sendMessage (_client : option SlackClient) (env : Env)
    (params : SendMessageParams.t) : SendOutcome * list SendStep :=
  match fst (getSlackClient _client env) with
  | inl e => (Failed (SlackError e), [])
  | inr client =>
      (* Validate thread_ts format *)
      let invalid :=
      match truthy (SendMessageParams.thread_ts params) with
      | Some ts =>
          if negb (THREAD_TS_RE ts) then
            Some (mkError SEND_FAILED
                    ("Invalid thread_ts format " +:+ dquote +:+ ts +:+ dquote
                     +:+ ". Expected format: " +:+ dquote +:+ "1234567890.123456"
                     +:+ dquote +:+ "."))
          else None
      | None => None
      end in
      match invalid with
      | Some e => (Failed (SlackError e), [])
      | None =>
      (* Resolve mentions *)
      match convertMentions_ (SendMessageParams.message params) client with
      | inl e => (Failed e, [StepConvert (SendMessageParams.message params)])
      | inr convertedMessage =>
      (* Resolve channel *)
      let steps := [StepConvert (SendMessageParams.message params);
                    StepChannel (SendMessageParams.channel_name params)] in
      match getChannelId_ (SendMessageParams.channel_name params) client with
      | inl e => (Failed e, steps)
      | inr found =>
      match truthy found with
      | None =>
          (Failed (SlackError
                     (mkError CHANNEL_NOT_FOUND
                        ("Channel " +:+ dquote +:+ "#"
                         +:+ SendMessageParams.channel_name params +:+ dquote
                         +:+ " not found. Check the channel name and ensure you have access."))),
           steps)
      | Some channelId =>
          let baseArgs := baseArgs channelId params in
          let makeResult := makeResult params channelId convertedMessage in
          (* Skip Block Kit if message exceeds the 3000-char section limit *)
          if (BLOCK_KIT_TEXT_LIMIT <? jsLength convertedMessage)%nat then
            let sent := sendPlainText client baseArgs convertedMessage
                          (SendMessageParams.channel_name params) makeResult in
            (fst sent, steps ++ snd sent)
          else
            (* Build Block Kit blocks *)
            let blocks := blocksOf convertedMessage in
            let args := withText baseArgs convertedMessage (Some blocks) in
            match postMessage client args with
            | inr ts => (Sent (makeResult ts false), steps ++ [StepPost args])
            | inl blockKitError =>
                (* Fallback to plain text without blocks *)
                let sent := sendPlainText client baseArgs convertedMessage
                              (SendMessageParams.channel_name params) makeResult in
                match fst sent with
                | Sent r => (Sent r, steps ++ StepPost args :: snd sent)
                | Failed _ =>
                    (Failed (SlackError
                               (mapSlackError blockKitError
                                  (SendMessageParams.channel_name params))),
                     steps ++ StepPost args :: snd sent)
                end
            end
      end end end end
  end.

End Send.

(** ** The tool handler of [createServer] ([server.ts]) *)

(** A value of [request.params.arguments], as far as the handler tells
    values apart: by truthiness and by [typeof ... === 'string']. *)
Inductive JsValue : Set :=
| JsUndefined
| JsNull
| JsBool (b : bool)
| JsNumber (n : Z)
| JsString (s : string)
| JsObject.

(** [!!v] *)
Definition jsTruthy (v : JsValue) : bool :=
  match v with
  | JsUndefined | JsNull => false
  | JsBool b => b
  | JsNumber n => negb (n =? 0)
  | JsString EmptyString => false
  | JsString _ => true
  | JsObject => true
  end.

(** [typeof v === 'string'] *)
Definition typeofString (v : JsValue) : bool :=
  match v with
  | JsString _ => true
  | _ => false
  end.

(** A value that passed [typeof v === 'string'], as the string it is. *)
Definition stringOf (v : JsValue) : string :=
  match v with
  | JsString s => s
  | _ => EmptyString
  end.

(** [params?.key] for [params : Record<string, unknown> | undefined] *)
Definition getProp (params : option (gmap string JsValue)) (key : string) : JsValue :=
  match params with
  | Some record => default JsUndefined (record !! key)
  | None => JsUndefined
  end.

(** [error.toJSON()]; [details] is never set by this code and
    [JSON.stringify] leaves an undefined field out. *)
Record ErrorJson : Set := mkErrorJson {
  json_name : string;
  json_code : ErrorCode;
  json_message : string
}.

Definition toJSON (e : SlackMcpError) : ErrorJson :=
  mkErrorJson "SlackMcpError" (code e) (message e).

(** The text content of a response, before [JSON.stringify(..., null, 2)]. *)
Inductive Payload : Set :=
| ResultPayload (r : SendMessageResult.t)
| ErrorPayload (e : ErrorJson).

(** The handler resolves with [{ content: [{ type: 'text', text }] }],
    with [isError: true] on the error branch, or rejects with an [Error]. *)
Inductive ToolResponse : Set :=
| ToolContent (payload : Payload) (isError : bool)
| ToolThrows (msg : string).

Section Server.

(** [sendMessage] as the handler sees it. *)
Variable sendMessage_ : SendMessageParams.t -> SendOutcome.

(** The [catch] of the handler. *)
Definition handleError (error : JsError) : ToolResponse :=
  match error with
  | SlackError e => ToolContent (ErrorPayload (toJSON e)) true
  | OtherError msg => ToolThrows msg
  end.

(** The [CallToolRequestSchema] handler: its response, and the parameters
    [sendMessage] was called with, if it was. *)
Definition callTool (name : string) (args : option (gmap string JsValue))
  : ToolResponse * option SendMessageParams.t :=
  if String.eqb name "send_message" then
    let params := args in
    if negb (jsTruthy (getProp params "channel_name"))
       || negb (typeofString (getProp params "channel_name")) then
      (handleError (SlackError (mkError SEND_FAILED
                      "channel_name is required and must be a string")), None)
    else if negb (jsTruthy (getProp params "message"))
            || negb (typeofString (getProp params "message")) then
      (handleError (SlackError (mkError SEND_FAILED
                      "message is required and must be a string")), None)
    else
      let sent :=
        SendMessageParams.mk
          (stringOf (getProp params "channel_name"))
          (stringOf (getProp params "message"))
          (if typeofString (getProp params "thread_ts")
           then Some (stringOf (getProp params "thread_ts"))
           else None) in
      (match sendMessage_ sent with
       | Sent result => ToolContent (ResultPayload result) false
       | Failed error => handleError error
       end, Some sent)
  else (handleError (OtherError ("Unknown tool: " +:+ name)), None).

End Server.

(** ** More reading of traces *)

(** How often the call slept. *)
Definition countSleeps (tr : list Event) : nat := length (List.filter isSleep tr).

(** The sleeps of a poll loop, whatever its budget. *)
Definition pollSleeps {T : Type} (p : @PollOut T) : nat :=
  match p with
  | PollFound _ _ tr | PollExit _ tr => countSleeps tr
  | PollFuel => 0%nat
  end.

(** The world a listing call leaves. *)
Definition listWorld (r : ListResult) : World :=
  match r with
  | ListOk w _ _ => w
  | ListErr w _ => w
  end.

(** A remote call that writes nothing to the store. *)
Definition readsOnly (list_ : option string -> World -> ListResult) : Prop :=
  forall cursor w, db (listWorld (list_ cursor w)) = db w.

(** A row as the replace transaction writes it. *)
Definition rowOf (now : Z) (p : string * string) : Entity :=
  mkEntity (fst p) (snd p) now.

(** A remote that serves the given pages of channels, one call per page,
    200 ms each, with the page number as cursor; past the last page the
    call rejects. *)
Definition servePages (pages : list (list Listed)) (cursor : option string) (w : World)
  : ListResult :=
  let n := match cursor with
           | Some c => String.length c
           | None => 0%nat
           end in
  match nth_error pages n with
  | Some elements =>
      ListOk (tick 200 w) elements
             (if (S n <? length pages)%nat
              then Some (String "c" (default EmptyString cursor))
              else None)
  | None => ListErr (tick 200 w) "ratelimited"
  end.

Definition twoPages : list (list Listed) :=
  [[mkListed (Some "C1") (Some "general"); mkListed (Some "C9") None];
   [mkListed (Some "C2") (Some "random")]].

Definition pagedClient (pages : list (list Listed)) : WebClient :=
  mkWebClient (servePages pages) (servePages pages) (servePages pages None).

(** A remote whose first page of channels arrives and whose second call
    rejects. *)
Definition secondPageRejects : WebClient :=
  mkWebClient
    (fun cursor w =>
       match cursor with
       | None => ListOk (tick 200 w) [mkListed (Some "C7") (Some "new")] (Some "next")
       | Some _ => ListErr (tick 200 w) "ratelimited"
       end)
    (servePages []) (servePages [] None).

(** ** Reference descriptions, to compare the code with *)

(** The name the last pair with this id carries, if any pair has the id. *)
Fixpoint lastNameOf (id : string) (pairs : list (string * string)) : option string :=
  match pairs with
  | [] => None
  | p :: rest =>
      match lastNameOf id rest with
      | Some name => Some name
      | None => if String.eqb (fst p) id then Some (snd p) else None
      end
  end.

(** The pages a remote serves from [cursor] on: each call made with the
    cursor the page before it gave, up to the first page whose
    [next_cursor] is absent or empty. *)
Inductive CursorChain (list_ : option string -> World -> ListResult)
  : option string -> World -> list (list Listed) -> World -> Prop :=
| ChainLast cursor w w' elements next :
    list_ cursor w = ListOk w' elements next ->
    truthy next = None ->
    CursorChain list_ cursor w [elements] w'
| ChainMore cursor w w1 w' elements next cursor' rest :
    list_ cursor w = ListOk w1 elements next ->
    truthy next = Some cursor' ->
    CursorChain list_ (Some cursor') w1 rest w' ->
    CursorChain list_ cursor w (elements :: rest) w'.

(** The refresh closure [() => fetchChannels(client)] against the remote
    that serves [twoPages]. *)
Definition listTwoPages (w : World) : FetchResult :=
  match fetchChannels (pagedClient twoPages) 2 w with
  | Some r => r
  | None => FetchErr w "too many pages"
  end.

(** The doc comment of [convertMentions], mention by mention: a group
    handle becomes [<!subteam^ID>] (groups take priority), a user name
    [<@ID>], an unknown mention is left as it is. *)
Definition renderMention (resolveUserGroup resolveUser : string -> option string)
    (name : string) : string :=
  match truthy (resolveUserGroup name) with
  | Some groupId => "<!subteam^" +:+ groupId +:+ ">"
  | None =>
      match truthy (resolveUser name) with
      | Some userId => "<@" +:+ userId +:+ ">"
      | None => "@" +:+ name
      end
  end.

Definition renderPieces (resolveUserGroup resolveUser : string -> option string)
    (ps : list Piece) : string :=
  fold_right (fun p out =>
                match p with
                | Plain c => String c out
                | Mention name => renderMention resolveUserGroup resolveUser name +:+ out
                end)
             EmptyString ps.

(** How often a resolver was called for a name. *)
Definition countGroupCalls (name : string) (calls : list Call) : nat :=
  length (List.filter (fun c => match c with
                                | CallGroup n => String.eqb n name
                                | CallUser _ => false
                                end) calls).

Definition countUserCalls (name : string) (calls : list Call) : nat :=
  length (List.filter (fun c => match c with
                                | CallUser n => String.eqb n name
                                | CallGroup _ => false
                                end) calls).

(** A name as [[\w.-]+\w] reads it: name characters only, the last one a
    word character. *)
Fixpoint allNameChars (s : string) : bool :=
  match s with
  | EmptyString => true
  | String c rest => isNameChar c && allNameChars rest
  end.

Fixpoint endsInWordChar (s : string) : bool :=
  match s with
  | EmptyString => false
  | String c rest =>
      match rest with
      | EmptyString => isWordChar c
      | String _ _ => endsInWordChar rest
      end
  end.

(** Every [@] of the text comes directly after a word character, as in an
    e-mail address; [prevWord] says whether the character before the head
    is one. *)
Fixpoint everyAtAfterWord (prevWord : bool) (s : string) : bool :=
  match s with
  | EmptyString => true
  | String c rest =>
      (if Ascii.eqb c "@" then prevWord else true)
      && everyAtAfterWord (isWordChar c) rest
  end.

(** ** Reading a send *)

(** The preparation of a send that went through: the client, the
    converted message and the channel id. *)
Definition PreparedSend (convertMentions_ : string -> SlackClient -> JsError + string)
    (getChannelId_ : string -> SlackClient -> JsError + option string)
    (_client : option SlackClient) (env : Env)
    (params : SendMessageParams.t) (client : SlackClient)
    (convertedMessage channelId : string) : Prop :=
  fst (getSlackClient _client env) = inr client
  /\ (forall ts, truthy (SendMessageParams.thread_ts params) = Some ts ->
                 THREAD_TS_RE ts = true)
  /\ convertMentions_ (SendMessageParams.message params) client = inr convertedMessage
  /\ getChannelId_ (SendMessageParams.channel_name params) client = inr (Some channelId)
  /\ channelId <> EmptyString.

Definition prepSteps (params : SendMessageParams.t) : list SendStep :=
  [StepConvert (SendMessageParams.message params);
   StepChannel (SendMessageParams.channel_name params)].

Definition plainArgs (params : SendMessageParams.t) (channelId convertedMessage : string)
  : PostArgs.t :=
  withText (baseArgs channelId params) (":robot_face: " +:+ convertedMessage) None.

Definition blockArgs (params : SendMessageParams.t) (channelId convertedMessage : string)
  : PostArgs.t :=
  withText (baseArgs channelId params) convertedMessage
           (Some (blocksOf convertedMessage)).


(** ** Scenarios of a send *)

Definition envWithTokens : Env := mkEnv (Some "xoxc-1") (Some "xoxd-1").

(** A message without mentions, and a cache that knows [general]. *)
Definition convertsNothing (message : string) (_ : SlackClient) : JsError + string :=
  inr message.

Definition knowsGeneral (name : string) (_ : SlackClient) : JsError + option string :=
  inr (if String.eqb name "general" then Some "C1" else None).

(** A workspace that rejects blocks and accepts plain text. *)
Definition acceptsPlainOnly (_ : SlackClient) (args : PostArgs.t)
  : string + option string :=
  match PostArgs.blocks args with
  | Some _ => inl "invalid_blocks"
  | None => inr (Some "1700000000.000100")
  end.

(** A channel the user has left: the Block Kit post is rejected with
    [not_in_channel], the fallback with a rate limit. *)
Definition rejectsBoth (_ : SlackClient) (args : PostArgs.t) : string + option string :=
  match PostArgs.blocks args with
  | Some _ => inl "An API error occurred: not_in_channel"
  | None => inl "An API error occurred: ratelimited"
  end.

Definition replyInGeneral : SendMessageParams.t :=
  SendMessageParams.mk "general" "hello" (Some "1700000000.000001").

(** The arguments of a tool call with a number for [thread_ts]. *)
Definition twoArgs : gmap string JsValue :=
  <["channel_name" := JsString "general"]> (<["message" := JsString "hello"]> ∅).

Definition argsWithNumber : gmap string JsValue :=
  <["thread_ts" := JsNumber 1700000000]> twoArgs.

(** Mention conversion that fails with an error that is no
    [SlackMcpError]. *)
Definition conversionCrashes (message : string) (_ : SlackClient) : JsError + string :=
  inl (OtherError "database is locked").

(** ** More reference descriptions and scenarios *)

(** A listing that is rejected: the pages served before the rejection,
    each asked for with the cursor of the page before, and the call that
    rejects, with the world it leaves and its message. *)
Inductive RejectedChain (list_ : option string -> World -> ListResult)
  : option string -> World -> list (list Listed) -> World -> string -> Prop :=
| RejectNow cursor w w' msg :
    list_ cursor w = ListErr w' msg ->
    RejectedChain list_ cursor w [] w' msg
| RejectLater cursor w w1 w' elements next cursor' rest msg :
    list_ cursor w = ListOk w1 elements next ->
    truthy next = Some cursor' ->
    RejectedChain list_ (Some cursor') w1 rest w' msg ->
    RejectedChain list_ cursor w (elements :: rest) w' msg.

(** The world after [n] sleeps of the poll interval. *)
Fixpoint wakeUps (sleep : Z -> World -> World) (n : nat) (w : World) : World :=
  match n with
  | O => w
  | S k => wakeUps sleep k (sleep POLL_INTERVAL_MS w)
  end.

(** The events of [n] rounds of a poll loop in which no lookup hits. *)
Fixpoint pollRounds (sleep : Z -> World -> World) (n : nat) (w : World) : list Event :=
  match n with
  | O => []
  | S k => [EvSleep (clock w); EvLookup; EvReadMeta]
           ++ pollRounds sleep k (sleep POLL_INTERVAL_MS w)
  end.

(** The sleeps of a trace, in order. *)
Definition sleepTimes (tr : list Event) : list Z :=
  omap (fun e => match e with
                 | EvSleep t => Some t
                 | _ => None
                 end) tr.

(** A store whose [channels] row another process claimed exactly
    [SYNC_TIMEOUT_MS] ago and never completed. *)
Definition heldSinceTimeout : World :=
  mkWorld (mkDb [] [] []
             (<["channels" := mkMeta (1700000000000 - SYNC_TIMEOUT_MS) 0]> (seedMeta ∅)))
          1700000000000.

(** The call of a caller that finds [heldSinceTimeout], while nobody
    writes to the store. *)
Definition boundaryRun : Run string :=
  syncIfNeeded "channels" (lookupChannel "general") fetchTwoChannels tick 61
               heldSinceTimeout.

(** What a caller waiting on [heldByOther] finds when its sleeps end: the
    holder's refresh completes 1.3 s into the wait, without the channel
    the caller looks for. *)
Definition sleepUntilHolderCompletes (ms : Z) (w : World) : World :=
  let w1 := tick ms w in
  let t0 := clock heldByOther in
  if clock w1 <? t0 + 1300 then w1
  else
    setMeta (<["channels" := mkMeta (t0 - 10000) (t0 + 1300)]> (sync_meta (db w1)))
            (storeChannels (t0 - 10000) [("C2", "random")] w1).

(** The same, for a second waiter: by the time it wakes up, another
    released waiter has claimed the row again, 1.4 s into the wait. *)
Definition sleepUntilReclaimed (ms : Z) (w : World) : World :=
  let w1 := tick ms w in
  let t0 := clock heldByOther in
  if clock w1 <? t0 + 1300 then w1
  else
    setMeta (<["channels" := mkMeta (t0 + 1400) (t0 + 1300)]> (sync_meta (db w1)))
            (storeChannels (t0 - 10000) [("C2", "random")] w1).

(** A text of [n] times the letter e with an acute accent, two bytes in
    UTF-8 and one UTF-16 code unit each. *)
Fixpoint accents (n : nat) : string :=
  match n with
  | O => EmptyString
  | S k => String (ascii_of_nat 195) (String (ascii_of_nat 169) (accents k))
  end.

(** A text of [n] characters outside the basic plane (U+1F600): four bytes
    in UTF-8 and two UTF-16 code units each. *)
Fixpoint emojis (n : nat) : string :=
  match n with
  | O => EmptyString
  | S k => String (ascii_of_nat 240)
             (String (ascii_of_nat 159)
                (String (ascii_of_nat 152) (String (ascii_of_nat 128) (emojis k))))
  end.

(** * Properties *)

(** ** The [sync_meta] updates *)

Lemma gtb_true (a b : Z) : (a >? b) = true <-> b < a.
Proof. rewrite Z.gtb_ltb. apply Z.ltb_lt. Qed.

Lemma gtb_false (a b : Z) : (a >? b) = false <-> a <= b.
Proof. rewrite Z.gtb_ltb. rewrite Z.ltb_ge. reflexivity. Qed.

Lemma geb_true (a b : Z) : (a >=? b) = true <-> b <= a.
Proof. rewrite Z.geb_leb. apply Z.leb_le. Qed.

Lemma geb_false (a b : Z) : (a >=? b) = false <-> a < b.
Proof. rewrite Z.geb_leb. rewrite Z.leb_gt. reflexivity. Qed.

Lemma claimable_iff (meta : SyncMeta) (claimTime : Z) :
  claimable meta claimTime = true
  <-> completed_at meta >= started_at meta
      \/ started_at meta + SYNC_TIMEOUT_MS < claimTime.
Proof.
  unfold claimable. rewrite orb_true_iff, geb_true, Z.ltb_lt. lia.
Qed.

Lemma claimable_false_iff (meta : SyncMeta) (claimTime : Z) :
  claimable meta claimTime = false
  <-> completed_at meta < started_at meta
      /\ claimTime <= started_at meta + SYNC_TIMEOUT_MS.
Proof.
  unfold claimable. rewrite orb_false_iff, geb_false, Z.ltb_ge. lia.
Qed.

Lemma casClaim_won (t : string) (claimTime : Z) (m : gmap string SyncMeta)
    (meta : SyncMeta) :
  m !! t = Some meta -> claimable meta claimTime = true ->
  casClaim t claimTime m = (<[t := mkMeta claimTime (completed_at meta)]> m, 1%nat).
Proof. intros Hm Hc. unfold casClaim. rewrite Hm, Hc. reflexivity. Qed.

Lemma casClaim_lost (t : string) (claimTime : Z) (m : gmap string SyncMeta)
    (meta : SyncMeta) :
  m !! t = Some meta -> claimable meta claimTime = false ->
  casClaim t claimTime m = (m, 0%nat).
Proof. intros Hm Hc. unfold casClaim. rewrite Hm, Hc. reflexivity. Qed.

Lemma casClaim_no_row (t : string) (claimTime : Z) (m : gmap string SyncMeta) :
  m !! t = None -> casClaim t claimTime m = (m, 0%nat).
Proof. intros Hm. unfold casClaim. rewrite Hm. reflexivity. Qed.

(** [changes] is 0 or 1, and 1 exactly when the row exists and satisfies
    the clause. *)
Lemma casClaim_changes (t : string) (claimTime : Z) (m : gmap string SyncMeta) :
  (snd (casClaim t claimTime m) = 1%nat
   /\ exists meta, m !! t = Some meta /\ claimable meta claimTime = true)
  \/ (snd (casClaim t claimTime m) = 0%nat
      /\ fst (casClaim t claimTime m) = m
      /\ forall meta, m !! t = Some meta -> claimable meta claimTime = false).
Proof.
  unfold casClaim. destruct (m !! t) as [meta|] eqn:Hm.
  - destruct (claimable meta claimTime) eqn:Hc.
    + left. split; [reflexivity|]. exists meta. auto.
    + right. repeat split. intros meta' [= <-]. exact Hc.
  - right. repeat split. intros meta' [=].
Qed.

Lemma resetLock_row (t : string) (m : gmap string SyncMeta) (meta : SyncMeta) :
  m !! t = Some meta ->
  resetLock t m !! t = Some (mkMeta (completed_at meta) (completed_at meta)).
Proof. intros Hm. unfold resetLock. rewrite Hm. apply lookup_insert_eq. Qed.

Lemma resetLock_no_row (t : string) (m : gmap string SyncMeta) :
  m !! t = None -> resetLock t m = m.
Proof. intros Hm. unfold resetLock. rewrite Hm. reflexivity. Qed.

Lemma resetLock_idle (t : string) (m : gmap string SyncMeta) (meta : SyncMeta) :
  resetLock t m !! t = Some meta -> started_at meta = completed_at meta.
Proof.
  destruct (m !! t) as [old|] eqn:Hm.
  - rewrite (resetLock_row _ _ _ Hm). intros [= <-]. reflexivity.
  - rewrite (resetLock_no_row _ _ Hm), Hm. discriminate.
Qed.

Lemma getMeta_setMeta (t : string) (m : gmap string SyncMeta) (w : World) :
  getMeta t (setMeta m w) = m !! t.
Proof. reflexivity. Qed.

(** ** The poll loop *)

Section PollFacts.

Context {T : Type}.
Variable tableName : string.
Variable lookupFn : World -> option T.
Variable sleep : Z -> World -> World.

Lemma sleepsBefore_nil (deadline : Z) : sleepsBefore deadline [].
Proof. intros t []. Qed.

Lemma sleepsBefore_app (deadline : Z) (a b : list Event) :
  sleepsBefore deadline a -> sleepsBefore deadline b -> sleepsBefore deadline (a ++ b).
Proof.
  intros Ha Hb t Hin. apply in_app_or in Hin as [Hin|Hin]; auto.
Qed.

Lemma PollSpec_after (deadline : Z) (pre : list Event) (p : @PollOut T) :
  pollOnly pre -> sleepsBefore deadline pre ->
  PollSpec lookupFn deadline p -> PollSpec lookupFn deadline (pollAfter pre p).
Proof.
  intros Hpre Hs. destruct p as [r w tr|w tr|]; simpl; [|  |trivial].
  - intros (Hl & Htr & Hsl). repeat split; auto using sleepsBefore_app.
    apply Forall_app; auto.
  - intros (Htr & Hsl). split; auto using sleepsBefore_app.
    apply Forall_app; auto.
Qed.

Lemma poll_spec (fuel : nat) (deadline since : Z) (w : World) :
  PollSpec lookupFn deadline (poll tableName lookupFn sleep fuel deadline since w).
Proof.
  revert w. induction fuel as [|fuel IH]; intros w; simpl; [trivial|].
  destruct (clock w <? deadline) eqn:Hd.
  - apply Z.ltb_lt in Hd.
    assert (Hpre : pollOnly
                          [EvSleep (clock w); EvLookup; EvReadMeta])
      by (repeat constructor).
    assert (Hs : sleepsBefore deadline [EvSleep (clock w); EvLookup; EvReadMeta]).
    { intros t [H|[H|[H|[]]]]; inversion H; subst; exact Hd. }
    destruct (lookupFn (sleep POLL_INTERVAL_MS w)) as [r|] eqn:Hl.
    + simpl. split; [exact Hl|]. split; [repeat constructor|].
      intros t [H|[H|[]]]; inversion H; subst; exact Hd.
    + destruct (getMeta tableName (sleep POLL_INTERVAL_MS w)) as [u|].
      * destruct (completed_at u >=? since); [simpl; auto|].
        apply PollSpec_after; auto.
      * apply PollSpec_after; auto.
  - simpl. split; [constructor | apply sleepsBefore_nil].
Qed.

Hypothesis sleep_advances : forall ms w, clock w + ms <= clock (sleep ms w).

Lemma pollAfter_fuel (pre : list Event) (p : @PollOut T) :
  pollAfter pre p = PollFuel -> p = PollFuel.
Proof. destruct p; simpl; congruence. Qed.

(** The loop terminates: each round moves the clock on by at least the poll
    interval, so a budget above the distance to the deadline is never used
    up. *)
Lemma poll_total (fuel : nat) (deadline since : Z) (w : World) :
  (Z.to_nat (deadline - clock w) < fuel)%nat ->
  poll tableName lookupFn sleep fuel deadline since w <> PollFuel.
Proof.
  revert w. induction fuel as [|fuel IH]; intros w Hfuel; [lia|]. simpl.
  destruct (clock w <? deadline) eqn:Hd; [|discriminate].
  apply Z.ltb_lt in Hd.
  pose proof (sleep_advances POLL_INTERVAL_MS w) as Hadv.
  unfold POLL_INTERVAL_MS in Hadv.
  assert (Hrec : poll tableName lookupFn sleep fuel deadline since
                      (sleep POLL_INTERVAL_MS w) <> PollFuel).
  { apply IH. unfold POLL_INTERVAL_MS. lia. }
  destruct (lookupFn (sleep POLL_INTERVAL_MS w)); [discriminate|].
  destruct (getMeta tableName (sleep POLL_INTERVAL_MS w)) as [u|].
  - destruct (completed_at u >=? since); [discriminate|].
    intros H. apply pollAfter_fuel in H. contradiction.
  - intros H. apply pollAfter_fuel in H. contradiction.
Qed.

End PollFacts.

(** ** The coordinator *)

Lemma setMeta_same (w : World) : setMeta (sync_meta (db w)) w = w.
Proof. destruct w as [[c u g m] k]. reflexivity. Qed.

Lemma clock_setMeta (m : gmap string SyncMeta) (w : World) :
  clock (setMeta m w) = clock w.
Proof. reflexivity. Qed.

Lemma pollOnly_app (a b : list Event) : pollOnly a -> pollOnly b -> pollOnly (a ++ b).
Proof. intros Ha Hb. apply Forall_app; auto. Qed.

Lemma pollOnly_head : pollOnly [EvLookup; EvReadMeta].
Proof. repeat constructor. Qed.

Lemma pollOnly_lookup : pollOnly [EvLookup].
Proof. repeat constructor. Qed.

Lemma countFetch_app (a b : list Event) :
  countFetch (a ++ b) = (countFetch a + countFetch b)%nat.
Proof. unfold countFetch. rewrite List.filter_app, List.length_app. reflexivity. Qed.

Lemma countFetch_pollOnly (tr : list Event) : pollOnly tr -> countFetch tr = 0%nat.
Proof.
  induction 1 as [|e tr He _ IH]; [reflexivity|].
  unfold countFetch in *. simpl.
  destruct e; simpl in *; try discriminate; exact IH.
Qed.

Lemma pollOnly_not_in (tr : list Event) (e : Event) :
  pollOnly tr -> isPollEvent e = false -> ~ In e tr.
Proof.
  intros Htr He Hin. unfold pollOnly in Htr. rewrite Forall_forall in Htr.
  apply list_elem_of_In in Hin. apply Htr in Hin. congruence.
Qed.

Section CoordinatorFacts.

Context {T : Type}.
Variable tableName : string.
Variable lookupFn : World -> option T.
Variable apiFetchFn : World -> FetchResult.
Variable sleep : Z -> World -> World.

Local Abbreviation waitStep := (checkAndWait tableName lookupFn sleep).
Local Abbreviation claimStep := (claimAndSync tableName lookupFn apiFetchFn sleep).
Local Abbreviation syncCall := (syncIfNeeded tableName lookupFn apiFetchFn sleep).
Local Abbreviation pollLoop := (poll tableName lookupFn sleep).

(** Steps 1 and 2 return only a hit, fall through only on a miss, and
    neither claim nor refresh. *)
Lemma checkAndWait_spec (fuel : nat) (w : World) :
  match waitStep fuel w with
  | WaitFound r w' tr => lookupFn w' = Some r /\ pollOnly tr
  | WaitProceed w' tr => lookupFn w' = None /\ pollOnly tr
  | WaitFuel => True
  end.
Proof.
  unfold checkAndWait.
  destruct (lookupFn w) as [cached|] eqn:Hl; [split; [exact Hl|apply pollOnly_lookup]|].
  destruct (getMeta tableName w) as [meta|]; [|split; [exact Hl|apply pollOnly_head]].
  destruct (started_at meta >? completed_at meta); [|split; [exact Hl|apply pollOnly_head]].
  destruct (clock w - started_at meta <? SYNC_TIMEOUT_MS);
    [|split; [exact Hl|apply pollOnly_head]].
  pose proof (poll_spec tableName lookupFn sleep fuel
                (started_at meta + SYNC_TIMEOUT_MS) (started_at meta) w) as Hp.
  destruct (pollLoop fuel _ _ w) as [r w' tr|w' tr|]; simpl in Hp; [| |trivial].
  - destruct Hp as (Hr & Htr & _). split; [exact Hr|].
    apply pollOnly_app; [apply pollOnly_head|exact Htr].
  - destruct Hp as (Htr & _).
    assert (Hall : pollOnly ([EvLookup; EvReadMeta] ++ tr ++ [EvLookup])).
    { apply pollOnly_app; [apply pollOnly_head|].
      apply pollOnly_app; [exact Htr|apply pollOnly_lookup]. }
    destruct (lookupFn w') as [afterWait|] eqn:Hl'; split; auto.
Qed.

(** A row that is not held (no row, Idle, or held for at least the
    timeout) is not waited for: after a miss the call goes straight to the
    claim, in the same world. *)
Lemma checkAndWait_no_wait (fuel : nat) (w : World) :
  lookupFn w = None ->
  (forall meta, getMeta tableName w = Some meta ->
                Idle meta \/ SYNC_TIMEOUT_MS <= clock w - started_at meta) ->
  waitStep fuel w = WaitProceed w [EvLookup; EvReadMeta].
Proof.
  intros Hl Hrow. unfold checkAndWait. rewrite Hl.
  destruct (getMeta tableName w) as [meta|]; [|reflexivity].
  destruct (started_at meta >? completed_at meta) eqn:Hheld; [|reflexivity].
  destruct (clock w - started_at meta <? SYNC_TIMEOUT_MS) eqn:Hel; [|reflexivity].
  apply gtb_true in Hheld. apply Z.ltb_lt in Hel.
  destruct (Hrow meta eq_refl) as [Hidle|Hstale]; unfold Idle in *; lia.
Qed.

(** The losing branch of the claim. *)
Lemma claimAndSync_lost (fuel : nat) (w : World) :
  claimChanges tableName w = 0%nat ->
  exists post,
    trace (claimStep fuel w) = EvClaim (clock w) false :: post
    /\ pollOnly post
    /\ sleepsBefore (clock w + SYNC_TIMEOUT_MS) post
    /\ (outcome (claimStep fuel w) = OutOfFuel
        \/ outcome (claimStep fuel w)
           = Returned (lookupFn (final (claimStep fuel w)))).
Proof.
  unfold claimChanges. intros Hch. unfold claimAndSync.
  rewrite Hch. simpl Nat.eqb. cbv iota.
  pose proof (poll_spec tableName lookupFn sleep fuel
                (clock w + SYNC_TIMEOUT_MS) (clock w)
                (setMeta (fst (casClaim tableName (clock w) (sync_meta (db w)))) w))
    as Hp.
  destruct (pollLoop fuel _ _ _) as [r w2 tr|w2 tr|]; simpl in Hp |- *.
  - destruct Hp as (Hr & Htr & Hs). exists tr. rewrite Hr. auto.
  - destruct Hp as (Htr & Hs). exists (tr ++ [EvLookup]). repeat split.
    + apply pollOnly_app; [exact Htr|apply pollOnly_lookup].
    + apply sleepsBefore_app; [exact Hs|].
      intros t [H|[]]. discriminate.
    + right. reflexivity.
  - exists []. repeat split; [constructor|apply sleepsBefore_nil|left; reflexivity].
Qed.

(** The winning branch, when the refresh resolves. *)
Lemma claimAndSync_synced (fuel : nat) (w w2 : World) :
  claimChanges tableName w = 1%nat ->
  apiFetchFn (claimedWorld tableName w) = FetchOk w2 ->
  claimStep fuel w
  = let w3 := setMeta (markCompleted tableName (clock w2) (sync_meta (db w2))) w2 in
    mkRun (Returned (lookupFn w3)) w3
          [EvClaim (clock w) true; EvFetch; EvMarkCompleted (clock w2); EvLookup].
Proof.
  unfold claimChanges, claimedWorld. intros Hch Hf. unfold claimAndSync.
  rewrite Hch. simpl Nat.eqb. cbv iota. rewrite Hf. reflexivity.
Qed.

(** The winning branch, when the refresh rejects. *)
Lemma claimAndSync_failed (fuel : nat) (w w2 : World) (msg : string) :
  claimChanges tableName w = 1%nat ->
  apiFetchFn (claimedWorld tableName w) = FetchErr w2 msg ->
  claimStep fuel w
  = mkRun (Thrown (mkError SYNC_FAILED
                     ("Failed to sync " +:+ tableName +:+ ": " +:+ msg)))
          (setMeta (resetLock tableName (sync_meta (db w2))) w2)
          [EvClaim (clock w) true; EvFetch; EvResetLock].
Proof.
  unfold claimChanges, claimedWorld. intros Hch Hf. unfold claimAndSync.
  rewrite Hch. simpl Nat.eqb. cbv iota. rewrite Hf. reflexivity.
Qed.

Lemma claimChanges_cases (w : World) :
  claimChanges tableName w = 0%nat \/ claimChanges tableName w = 1%nat.
Proof.
  unfold claimChanges.
  destruct (casClaim_changes tableName (clock w) (sync_meta (db w)))
    as [(H & _)|(H & _)]; auto.
Qed.

(** Every call takes one of the paths of [SyncPath]. *)
Lemma syncIfNeeded_path (fuel : nat) (w : World) :
  SyncPath tableName lookupFn apiFetchFn (syncCall fuel w).
Proof.
  unfold syncIfNeeded.
  pose proof (checkAndWait_spec fuel w) as Hw.
  destruct (waitStep fuel w) as [r w' tr|w' tr|].
  - destruct Hw as (Hr & Htr). eapply PathHit; simpl; eauto.
  - destruct Hw as (Hmiss & Htr).
    destruct (claimChanges_cases w') as [H0|H1].
    + destruct (claimAndSync_lost fuel w' H0) as (post & Htrace & Hpost & Hs & Hout).
      eapply (PathLost _ _ _ _ tr post w'); simpl; auto.
      rewrite Htrace. reflexivity.
    + destruct (apiFetchFn (claimedWorld tableName w')) as [w2|w2 msg] eqn:Hf.
      * eapply (PathSynced _ _ _ _ tr w' w2); auto;
          rewrite (claimAndSync_synced fuel w' w2 H1 Hf); reflexivity.
      * eapply (PathFailed _ _ _ _ tr w' w2 msg); auto;
          rewrite (claimAndSync_failed fuel w' w2 msg H1 Hf); reflexivity.
  - apply PathFuel; reflexivity.
Qed.

Hypothesis sleep_advances : forall ms w, clock w + ms <= clock (sleep ms w).

(** The loser's loop ends within [SYNC_TIMEOUT_MS] of its claim. *)
Lemma claimAndSync_total (fuel : nat) (w : World) :
  (Z.to_nat SYNC_TIMEOUT_MS < fuel)%nat ->
  outcome (claimStep fuel w) <> OutOfFuel.
Proof.
  intros Hfuel. unfold claimAndSync.
  destruct (snd (casClaim tableName (clock w) (sync_meta (db w))) =? 0)%nat.
  - pose proof (poll_total tableName lookupFn sleep sleep_advances fuel
                  (clock w + SYNC_TIMEOUT_MS) (clock w)
                  (setMeta (fst (casClaim tableName (clock w) (sync_meta (db w)))) w))
      as Hp.
    rewrite clock_setMeta in Hp.
    destruct (pollLoop fuel _ _ _); simpl; try discriminate.
    exfalso. apply Hp; [|reflexivity].
    replace (clock w + SYNC_TIMEOUT_MS - clock w) with SYNC_TIMEOUT_MS by lia.
    exact Hfuel.
  - destruct (apiFetchFn _); simpl; discriminate.
Qed.

(** With the budget of [enoughFuel] the model of the call runs to its end. *)
Lemma syncIfNeeded_total (fuel : nat) (w : World) :
  (enoughFuel tableName w <= fuel)%nat ->
  outcome (syncCall fuel w) <> OutOfFuel.
Proof.
  unfold enoughFuel. intros Hfuel.
  assert (Hclaim : forall w', outcome (claimStep fuel w') <> OutOfFuel)
    by (intros w'; apply claimAndSync_total; lia).
  unfold syncIfNeeded, checkAndWait.
  destruct (lookupFn w); [simpl; discriminate|].
  destruct (getMeta tableName w) as [meta|]; [|simpl; apply Hclaim].
  destruct (started_at meta >? completed_at meta); [|simpl; apply Hclaim].
  destruct (clock w - started_at meta <? SYNC_TIMEOUT_MS); [|simpl; apply Hclaim].
  pose proof (poll_total tableName lookupFn sleep sleep_advances fuel
                (started_at meta + SYNC_TIMEOUT_MS) (started_at meta) w) as Hp.
  destruct (pollLoop fuel _ _ w) as [r w' tr|w' tr|].
  - simpl. discriminate.
  - destruct (lookupFn w'); simpl; [discriminate|apply Hclaim].
  - exfalso. apply Hp; [lia|reflexivity].
Qed.

End CoordinatorFacts.

(** ** Reading the paths *)

(** Case analysis on the path a call took; the names are those of
    [SyncPath]'s constructors. *)
Ltac sync_paths tableName lookupFn apiFetchFn sleep fuel w :=
  destruct (syncIfNeeded_path tableName lookupFn apiFetchFn sleep fuel w)
    as [pre x Htr Hpre Hout Hhit
       |pre post w' Htr Hpre Hpost Hs Hch Hout
       |pre w' w2 Htr Hpre Hch Hf Hfin Hout
       |pre w' w2 msg Htr Hpre Hch Hf Hfin Hout
       |Htr Hout].

Lemma in_sync_trace (t : string) (pre tail : list Event) (e : Event) :
  pollOnly pre -> isPollEvent e = false -> isSyncCall e = false ->
  In e (EvSyncIfNeeded t :: pre ++ tail) -> In e tail.
Proof.
  intros Hpre He Hs [Heq|Hin].
  - subst e. discriminate.
  - apply in_app_or in Hin as [Hin|Hin]; [|exact Hin].
    exfalso. exact (pollOnly_not_in pre e Hpre He Hin).
Qed.

Lemma countFetch_sync_trace (t : string) (pre tail : list Event) :
  pollOnly pre ->
  countFetch (EvSyncIfNeeded t :: pre ++ tail) = countFetch tail.
Proof.
  intros Hpre. change (EvSyncIfNeeded t :: pre ++ tail)
    with ([EvSyncIfNeeded t] ++ pre ++ tail).
  rewrite !countFetch_app, (countFetch_pollOnly pre Hpre). reflexivity.
Qed.

(** *** The caller whose claim changed no row *)

Section LoserFacts.

Context {T : Type}.
Variable tableName : string.
Variable lookupFn : World -> option T.
Variable apiFetchFn : World -> FetchResult.
Variable sleep : Z -> World -> World.

Local Abbreviation loserLoop := (poll tableName lookupFn sleep).
Local Abbreviation loserStep := (claimAndSync tableName lookupFn apiFetchFn sleep).

Lemma pollAfter_exit (pre : list Event) (p : @PollOut T) (w2 : World) (tr : list Event) :
  pollAfter pre p = PollExit w2 tr -> exists tr', p = PollExit w2 tr'.
Proof. destruct p; simpl; intros [=]; subst; eauto. Qed.

(** A loop entered before its deadline begins with a sleep and a lookup. *)
Lemma poll_first_sleep (fuel : nat) (deadline since : Z) (w : World) :
  clock w < deadline ->
  match loserLoop (S fuel) deadline since w with
  | PollFound _ _ tr | PollExit _ tr =>
      exists rest, tr = EvSleep (clock w) :: EvLookup :: rest
  | PollFuel => True
  end.
Proof.
  intros Hd. apply Z.ltb_lt in Hd. simpl. rewrite Hd.
  destruct (lookupFn (sleep POLL_INTERVAL_MS w)); [eexists; reflexivity|].
  destruct (getMeta tableName (sleep POLL_INTERVAL_MS w)) as [u|];
    [destruct (completed_at u >=? since); [eexists; reflexivity|]|];
    destruct (loserLoop fuel deadline since (sleep POLL_INTERVAL_MS w));
    simpl; try trivial; eexists; reflexivity.
Qed.

(** The loop is left without a hit only for cause: the clock has reached
    the deadline, or the row read last shows a [completed_at] at or past
    [since]. *)
Lemma poll_exit_cause (fuel : nat) (deadline since : Z) (w w2 : World)
    (tr : list Event) :
  loserLoop fuel deadline since w = PollExit w2 tr ->
  deadline <= clock w2
  \/ exists meta, getMeta tableName w2 = Some meta /\ completed_at meta >= since.
Proof.
  revert w tr. induction fuel as [|fuel IH]; intros w tr; simpl; [discriminate|].
  destruct (clock w <? deadline) eqn:Hd.
  - destruct (lookupFn (sleep POLL_INTERVAL_MS w)); [discriminate|].
    destruct (getMeta tableName (sleep POLL_INTERVAL_MS w)) as [u|] eqn:Hu.
    + destruct (completed_at u >=? since) eqn:Hc.
      * intros [= <- <-]. right. exists u. split; [exact Hu|].
        apply geb_true in Hc. lia.
      * intros H. apply pollAfter_exit in H as (tr' & H). exact (IH _ _ H).
    + intros H. apply pollAfter_exit in H as (tr' & H). exact (IH _ _ H).
  - intros [= <- <-]. left. apply Z.ltb_ge in Hd. exact Hd.
Qed.

(** The losing caller polls: it sleeps first at its claim time, and it
    returns "absent" only once its own deadline has passed or a refresh has
    completed since its claim. *)
Lemma claimAndSync_lost_polls (fuel : nat) (w : World) :
  claimChanges tableName w = 0%nat ->
  (outcome (loserStep fuel w) <> OutOfFuel ->
   exists rest,
     trace (loserStep fuel w)
     = EvClaim (clock w) false :: EvSleep (clock w) :: EvLookup :: rest)
  /\ (outcome (loserStep fuel w) = Returned None ->
      clock w + SYNC_TIMEOUT_MS <= clock (final (loserStep fuel w))
      \/ exists meta, getMeta tableName (final (loserStep fuel w)) = Some meta
                      /\ completed_at meta >= clock w).
Proof.
  unfold claimChanges. intros Hch. unfold claimAndSync.
  rewrite Hch. simpl Nat.eqb. cbv iota.
  set (w1 := setMeta (fst (casClaim tableName (clock w) (sync_meta (db w)))) w).
  assert (Hclock : clock w1 = clock w) by reflexivity.
  destruct fuel as [|fuel].
  { simpl. split; [intros H; congruence|discriminate]. }
  pose proof (poll_first_sleep fuel (clock w + SYNC_TIMEOUT_MS) (clock w) w1) as Hfirst.
  rewrite Hclock in Hfirst.
  assert (Hd : clock w < clock w + SYNC_TIMEOUT_MS) by (unfold SYNC_TIMEOUT_MS; lia).
  specialize (Hfirst Hd).
  destruct (loserLoop (S fuel) (clock w + SYNC_TIMEOUT_MS) (clock w) w1)
    as [r w2 tr|w2 tr|] eqn:Hloop; cbn [outcome trace final].
  - destruct Hfirst as (rest & ->). split; [eauto|discriminate].
  - destruct Hfirst as (rest & ->). split; [intros _; eexists; reflexivity|].
    intros _. exact (poll_exit_cause _ _ _ _ _ _ Hloop).
  - split; [intros H; congruence|discriminate].
Qed.

End LoserFacts.

(** C4, as the code has it: in every execution of [syncIfNeeded] the
    refresh function is invoked at most once, and never where the
    conditional update changed no row.  That caller polls against a
    deadline of its own, its claim time plus [SYNC_TIMEOUT_MS]: it sleeps
    first at its claim time, begins every sleep before that deadline, and
    returns the result of its last lookup, found or absent; it returns
    "absent" only once the clock has reached the deadline or the row shows
    a [completed_at] at or past its claim time.  The executions are
    complete: where every sleep moves the clock on by its interval, the
    loop budget of [enoughFuel] is never used up and the call returns or
    throws. *)
Theorem syncIfNeeded_refresh_at_most_once
    {T : Type} (tableName : string) (lookupFn : World -> option T)
    (apiFetchFn : World -> FetchResult) (sleep : Z -> World -> World)
    (fuel : nat) (w : World) :
  let r := syncIfNeeded tableName lookupFn apiFetchFn sleep fuel w in
  (countFetch (trace r) <= 1)%nat
  /\ (forall claimTime,
        In (EvClaim claimTime false) (trace r) ->
        countFetch (trace r) = 0%nat
        /\ (outcome r = OutOfFuel \/ outcome r = Returned (lookupFn (final r)))
        /\ (outcome r = Returned None ->
            claimTime + SYNC_TIMEOUT_MS <= clock (final r)
            \/ exists meta, getMeta tableName (final r) = Some meta
                            /\ completed_at meta >= claimTime)
        /\ exists pre post,
             trace r = pre ++ EvClaim claimTime false :: post
             /\ pollOnly post
             /\ sleepsBefore (claimTime + SYNC_TIMEOUT_MS) post
             /\ (outcome r <> OutOfFuel ->
                 exists rest, post = EvSleep claimTime :: EvLookup :: rest))
  /\ ((forall ms w', clock w' + ms <= clock (sleep ms w')) ->
      (enoughFuel tableName w <= fuel)%nat ->
      outcome r <> OutOfFuel).
Proof.
  intros r.
  assert (Htotal : (forall ms w', clock w' + ms <= clock (sleep ms w')) ->
                   (enoughFuel tableName w <= fuel)%nat ->
                   outcome r <> OutOfFuel).
  { intros Hadv Hfuel.
    exact (syncIfNeeded_total tableName lookupFn apiFetchFn sleep Hadv fuel w Hfuel). }
  split; [|split; [|exact Htotal]]; clear Htotal; subst r; unfold syncIfNeeded;
    pose proof (checkAndWait_spec tableName lookupFn sleep fuel w) as Hw;
    destruct (checkAndWait tableName lookupFn sleep fuel w) as [x w' tr|w' tr|];
    unfold after; cbn [trace outcome final].
  - (* a hit in steps 1-2 *)
    destruct Hw as (_ & Htr).
    replace ([EvSyncIfNeeded tableName] ++ tr)
      with (EvSyncIfNeeded tableName :: tr ++ []) by (rewrite app_nil_r; reflexivity).
    rewrite countFetch_sync_trace by exact Htr. unfold countFetch. simpl. lia.
  - destruct Hw as (_ & Htr).
    change ([EvSyncIfNeeded tableName]
            ++ tr ++ trace (claimAndSync tableName lookupFn apiFetchFn sleep fuel w'))
      with (EvSyncIfNeeded tableName
            :: tr ++ trace (claimAndSync tableName lookupFn apiFetchFn sleep fuel w')).
    rewrite countFetch_sync_trace by exact Htr.
    destruct (claimChanges_cases tableName w') as [H0|H1].
    + destruct (claimAndSync_lost tableName lookupFn apiFetchFn sleep fuel w' H0)
        as (post & Htrace & Hpost & _).
      rewrite Htrace.
      change (EvClaim (clock w') false :: post) with ([EvClaim (clock w') false] ++ post).
      rewrite countFetch_app, (countFetch_pollOnly post Hpost). unfold countFetch. simpl. lia.
    + destruct (apiFetchFn (claimedWorld tableName w')) as [w2|w2 msg] eqn:Hf.
      * rewrite (claimAndSync_synced tableName lookupFn apiFetchFn sleep fuel w' w2 H1 Hf).
        unfold countFetch. simpl. lia.
      * rewrite (claimAndSync_failed tableName lookupFn apiFetchFn sleep fuel w' w2 msg
                   H1 Hf).
        unfold countFetch. simpl. lia.
  - unfold countFetch. simpl. lia.
  - (* a hit in steps 1-2: no claim *)
    destruct Hw as (_ & Htr). intros c Hin. exfalso.
    replace ([EvSyncIfNeeded tableName] ++ tr)
      with (EvSyncIfNeeded tableName :: tr ++ []) in Hin
      by (rewrite app_nil_r; reflexivity).
    apply in_sync_trace in Hin; auto.
  - destruct Hw as (_ & Htr). intros c Hin.
    change ([EvSyncIfNeeded tableName]
            ++ tr ++ trace (claimAndSync tableName lookupFn apiFetchFn sleep fuel w'))
      with (EvSyncIfNeeded tableName
            :: tr ++ trace (claimAndSync tableName lookupFn apiFetchFn sleep fuel w'))
      in Hin |- *.
    apply in_sync_trace in Hin; auto.
    rewrite countFetch_sync_trace by exact Htr.
    destruct (claimChanges_cases tableName w') as [H0|H1].
    + (* the claim changed no row *)
      destruct (claimAndSync_lost tableName lookupFn apiFetchFn sleep fuel w' H0)
        as (post & Htrace & Hpost & Hs & Hout).
      destruct (claimAndSync_lost_polls tableName lookupFn apiFetchFn sleep fuel w' H0)
        as (Hfirst & Hcause).
      rewrite Htrace in Hin |- *.
      destruct Hin as [Heq|Hin];
        [|exfalso; exact (pollOnly_not_in post (EvClaim c false) Hpost eq_refl Hin)].
      injection Heq as <-.
      split.
      { change (EvClaim (clock w') false :: post)
          with ([EvClaim (clock w') false] ++ post).
        rewrite countFetch_app, (countFetch_pollOnly post Hpost). reflexivity. }
      split; [exact Hout|]. split; [exact Hcause|].
      exists (EvSyncIfNeeded tableName :: tr), post.
      split; [rewrite <- app_comm_cons; reflexivity|].
      split; [exact Hpost|]. split; [exact Hs|].
      intros Hfuel. destruct (Hfirst Hfuel) as (rest & Hrest).
      rewrite Htrace in Hrest. injection Hrest as ->. eauto.
    + (* the claim changed the row: no [EvClaim _ false] *)
      exfalso. destruct (apiFetchFn (claimedWorld tableName w')) as [w2|w2 msg] eqn:Hf.
      * rewrite (claimAndSync_synced tableName lookupFn apiFetchFn sleep fuel w' w2 H1 Hf)
          in Hin.
        simpl in Hin. destruct Hin as [H|[H|[H|[H|[]]]]]; discriminate.
      * rewrite (claimAndSync_failed tableName lookupFn apiFetchFn sleep fuel w' w2 msg
                   H1 Hf) in Hin.
        simpl in Hin. destruct Hin as [H|[H|[H|[]]]]; discriminate.
  - intros c [H|[]]. discriminate.
Qed.

Lemma tick_advances (ms : Z) (w : World) : clock w + ms <= clock (tick ms w).
Proof. simpl. lia. Qed.

Lemma sleepDuringTakeover_advances (ms : Z) (w : World) :
  clock w + ms <= clock (sleepDuringTakeover ms w).
Proof.
  unfold sleepDuringTakeover.
  destruct (clock (tick ms w) <? clock heldByOther + 19800);
    [|destruct (clock (tick ms w) <? clock heldByOther + 21000)];
    simpl; lia.
Qed.

(** The theorem for a caller that waits on a held row while a third
    process takes the stale row over: its own claim, made at its deadline,
    changes nothing; it polls on and returns the channel the other
    process's refresh brought, its own refresh never invoked. *)
Lemma syncIfNeeded_refresh_at_most_once_witness :
  let claimTime := clock heldByOther + 20000 in
  In (EvClaim claimTime false) (trace takeoverRun)
  /\ outcome takeoverRun = Returned (Some "C1")
  /\ (countFetch (trace takeoverRun) <= 1)%nat
  /\ countFetch (trace takeoverRun) = 0%nat
  /\ (outcome takeoverRun = OutOfFuel
      \/ outcome takeoverRun = Returned (lookupChannel "general" (final takeoverRun)))
  /\ (outcome takeoverRun = Returned None ->
      claimTime + SYNC_TIMEOUT_MS <= clock (final takeoverRun)
      \/ exists meta, getMeta "channels" (final takeoverRun) = Some meta
                      /\ completed_at meta >= claimTime)
  /\ exists pre post,
       trace takeoverRun = pre ++ EvClaim claimTime false :: post
       /\ pollOnly post
       /\ sleepsBefore (claimTime + SYNC_TIMEOUT_MS) post
       /\ (outcome takeoverRun <> OutOfFuel ->
           exists rest, post = EvSleep claimTime :: EvLookup :: rest).
Proof.
  intros claimTime.
  destruct (syncIfNeeded_refresh_at_most_once "channels" (lookupChannel "general")
              fetchFails sleepDuringTakeover
              (enoughFuel "channels" heldByOther) heldByOther)
    as (Hmost & Hlost & Htotal).
  fold takeoverRun in Hmost, Hlost, Htotal.
  assert (Hin : In (EvClaim claimTime false) (trace takeoverRun)).
  { apply (nth_error_In _ 124). vm_compute. reflexivity. }
  split; [exact Hin|].
  split; [vm_compute; reflexivity|].
  split; [exact Hmost|].
  exact (Hlost _ Hin).
Defined.

(** C4 as stated fails: the losing claimant's deadline is not that of the
    claim it lost to.  On [heldSinceTimeout] the row is held since
    [clock - SYNC_TIMEOUT_MS], so the holder's deadline is the clock itself;
    the caller's conditional update changes no row, and it then sleeps
    sixty times, from the clock to 29.5 s later, every sleep begun at or
    after the holder's deadline, before it returns "absent", its refresh
    never invoked. *)
Lemma loser_polls_past_holder_deadline :
  let w := heldSinceTimeout in
  let held := mkMeta (clock w - SYNC_TIMEOUT_MS) 0 in
  getMeta "channels" w = Some held
  /\ started_at held + SYNC_TIMEOUT_MS = clock w
  /\ In (EvClaim (clock w) false) (trace boundaryRun)
  /\ sleepTimes (trace boundaryRun)
     = map (fun k => clock w + POLL_INTERVAL_MS * Z.of_nat k) (seq 0 60)
  /\ ~ sleepsBefore (started_at held + SYNC_TIMEOUT_MS) (trace boundaryRun)
  /\ outcome boundaryRun = Returned None
  /\ countFetch (trace boundaryRun) = 0%nat.
Proof.
  split; [reflexivity|]. split; [reflexivity|].
  split; [apply (nth_error_In _ 3); vm_compute; reflexivity|].
  split; [vm_compute; reflexivity|].
  split.
  - intros Hbefore.
    assert (Hin : In (EvSleep (clock heldSinceTimeout)) (trace boundaryRun)).
    { apply (nth_error_In _ 4). vm_compute. reflexivity. }
    apply Hbefore in Hin. vm_compute in Hin. discriminate.
  - split; vm_compute; reflexivity.
Qed.

(** A claim on an existing, claimable row changes it, and the winner goes
    on to the refresh. *)
Lemma claimChanges_won (t : string) (w : World) (meta : SyncMeta) :
  getMeta t w = Some meta -> claimable meta (clock w) = true ->
  claimChanges t w = 1%nat.
Proof.
  unfold getMeta, claimChanges. intros Hm Hc.
  rewrite (casClaim_won t (clock w) _ meta Hm Hc). reflexivity.
Qed.

Lemma claimAndSync_won_trace {T : Type} (t : string) (lookupFn : World -> option T)
    (apiFetchFn : World -> FetchResult) (sleep : Z -> World -> World)
    (fuel : nat) (w : World) :
  claimChanges t w = 1%nat ->
  exists rest,
    trace (claimAndSync t lookupFn apiFetchFn sleep fuel w)
    = EvClaim (clock w) true :: EvFetch :: rest.
Proof.
  intros Hch.
  destruct (apiFetchFn (claimedWorld t w)) as [w2|w2 msg] eqn:Hf.
  - rewrite (claimAndSync_synced t lookupFn apiFetchFn sleep fuel w w2 Hch Hf).
    simpl. eauto.
  - rewrite (claimAndSync_failed t lookupFn apiFetchFn sleep fuel w w2 msg Hch Hf).
    simpl. eauto.
Qed.

(** A call that misses on a row that exists and is Idle claims at once:
    no sleep precedes the claim, and the claim changes the row. *)
Lemma syncIfNeeded_idle_claims {T : Type} (t : string) (lookupFn : World -> option T)
    (apiFetchFn : World -> FetchResult) (sleep : Z -> World -> World)
    (fuel : nat) (w : World) (meta : SyncMeta) :
  lookupFn w = None -> getMeta t w = Some meta -> Idle meta ->
  exists rest,
    trace (syncIfNeeded t lookupFn apiFetchFn sleep fuel w)
    = [EvSyncIfNeeded t; EvLookup; EvReadMeta; EvClaim (clock w) true; EvFetch]
      ++ rest.
Proof.
  intros Hl Hm Hidle. unfold syncIfNeeded.
  rewrite (checkAndWait_no_wait t lookupFn sleep fuel w Hl).
  - assert (Hch : claimChanges t w = 1%nat).
    { apply (claimChanges_won t w meta Hm). apply claimable_iff. left. exact Hidle. }
    destruct (claimAndSync_won_trace t lookupFn apiFetchFn sleep fuel w Hch)
      as (rest & Hrest).
    exists rest. simpl. rewrite Hrest. reflexivity.
  - intros meta' Hm'. rewrite Hm in Hm'. injection Hm' as <-. left. exact Hidle.
Qed.

(** C3: a call whose claim changed the row and whose refresh then rejects
    throws; and when [syncIfNeeded] throws, the error is [SYNC_FAILED] with
    a message that names the kind, the thrower is the claim holder (its own
    conditional update changed the row, and its refresh rejected), the row
    it leaves is Idle, and a call for the same kind made in the world it
    leaves, missing its lookup, claims at once (no sleep before the claim,
    and the claim succeeds) instead of waiting for the timeout. *)
Theorem syncIfNeeded_failure_releases_claim
    {T : Type} (tableName : string) (lookupFn : World -> option T)
    (apiFetchFn : World -> FetchResult) (sleep : Z -> World -> World)
    (fuel : nat) (w : World) :
  let r := syncIfNeeded tableName lookupFn apiFetchFn sleep fuel w in
  (forall w' tr w2 msg,
     checkAndWait tableName lookupFn sleep fuel w = WaitProceed w' tr ->
     claimChanges tableName w' = 1%nat ->
     apiFetchFn (claimedWorld tableName w') = FetchErr w2 msg ->
     outcome r = Thrown (mkError SYNC_FAILED
                           ("Failed to sync " +:+ tableName +:+ ": " +:+ msg)))
  /\ forall e,
       outcome r = Thrown e ->
       (exists w' w2 msg,
          claimChanges tableName w' = 1%nat
          /\ apiFetchFn (claimedWorld tableName w') = FetchErr w2 msg
          /\ In (EvClaim (clock w') true) (trace r)
          /\ e = mkError SYNC_FAILED
                   ("Failed to sync " +:+ tableName +:+ ": " +:+ msg))
       /\ (forall meta, getMeta tableName (final r) = Some meta -> Idle meta)
       /\ forall (T' : Type) (lookupFn' : World -> option T')
                 (apiFetchFn' : World -> FetchResult) (sleep' : Z -> World -> World)
                 (fuel' : nat),
            lookupFn' (final r) = None ->
            is_Some (getMeta tableName (final r)) ->
            exists rest,
              trace (syncIfNeeded tableName lookupFn' apiFetchFn' sleep' fuel' (final r))
              = [EvSyncIfNeeded tableName; EvLookup; EvReadMeta;
                 EvClaim (clock (final r)) true; EvFetch] ++ rest.
Proof.
  intros r. split.
  { intros w' tr w2 msg Hwait Hch Hf. subst r. unfold syncIfNeeded.
    rewrite Hwait, (claimAndSync_failed tableName lookupFn apiFetchFn sleep
                      fuel w' w2 msg Hch Hf).
    reflexivity. }
  intros e Hthrown.
  sync_paths tableName lookupFn apiFetchFn sleep fuel w; fold r in Hout;
    try congruence; try (destruct Hout; congruence).
  fold r in Htr, Hfin.
  assert (Hidle : forall meta, getMeta tableName (final r) = Some meta -> Idle meta).
  { intros meta Hm. rewrite Hfin, getMeta_setMeta in Hm.
    apply resetLock_idle in Hm. unfold Idle. lia. }
  split.
  { exists w', w2, msg. repeat split; auto; [|congruence].
    rewrite Htr. right. apply in_or_app. right. left. reflexivity. }
  split; [exact Hidle|].
  intros T' lookupFn' apiFetchFn' sleep' fuel' Hmiss [meta Hm].
  exact (syncIfNeeded_idle_claims tableName lookupFn' apiFetchFn' sleep' fuel'
           (final r) meta Hmiss Hm (Hidle meta Hm)).
Qed.

(** On the cold store a refresh that rejects makes the call throw, the row
    is back at (0, 0), and the next call claims at once. *)
Lemma syncIfNeeded_failure_releases_claim_witness :
  outcome winnerRun
  = Thrown (mkError SYNC_FAILED "Failed to sync channels: network down")
  /\ (forall meta, getMeta "channels" (final winnerRun) = Some meta -> Idle meta)
  /\ exists rest,
       trace (syncIfNeeded "channels" (lookupChannel "general") fetchTwoChannels tick 1
                           (final winnerRun))
       = [EvSyncIfNeeded "channels"; EvLookup; EvReadMeta;
          EvClaim (clock (final winnerRun)) true; EvFetch] ++ rest.
Proof.
  destruct (syncIfNeeded_failure_releases_claim "channels" (lookupChannel "general")
              fetchFails tick 1 coldStart) as (Hthrows & Hthen).
  assert (Hout : outcome winnerRun
                 = Thrown (mkError SYNC_FAILED "Failed to sync channels: network down")).
  { apply (Hthrows coldStart [EvLookup; EvReadMeta] (tick 120 afterWinnerClaim)
             "network down"); vm_compute; reflexivity. }
  destruct (Hthen _ Hout) as (_ & Hidle & Hnext).
  split; [exact Hout|]. split; [exact Hidle|].
  apply Hnext; [vm_compute; reflexivity|].
  exists (mkMeta 0 0). vm_compute. reflexivity.
Defined.

(** C10: for a table name with no row in [sync_meta], [isTableSynced]
    compares 0 with [now - CACHE_TTL_MS], as for a row completed at 0, and
    so answers false at any clock at least the TTL past the epoch; and
    [syncIfNeeded] never invokes the refresh: after a miss the metadata
    read finds no row, so nothing is waited for, the conditional update
    changes no row, and the call polls as a losing claimant and returns
    what its last lookup yields. *)
Theorem missing_row_is_never_refreshed
    {T : Type} (tableName : string) (lookupFn : World -> option T)
    (apiFetchFn : World -> FetchResult) (sleep : Z -> World -> World)
    (fuel : nat) (w : World) :
  getMeta tableName w = None ->
  let r := syncIfNeeded tableName lookupFn apiFetchFn sleep fuel w in
  isTableSynced tableName w = (0 >? clock w - CACHE_TTL_MS)
  /\ (CACHE_TTL_MS <= clock w -> isTableSynced tableName w = false)
  /\ countFetch (trace r) = 0%nat
  /\ (lookupFn w = None ->
      exists post,
        trace r = [EvSyncIfNeeded tableName; EvLookup; EvReadMeta;
                   EvClaim (clock w) false] ++ post
        /\ pollOnly post
        /\ sleepsBefore (clock w + SYNC_TIMEOUT_MS) post)
  /\ ((forall ms w', clock w' + ms <= clock (sleep ms w')) ->
      (enoughFuel tableName w <= fuel)%nat ->
      outcome r = Returned (lookupFn (final r))).
Proof.
  intros Hrow r.
  assert (Hsynced : isTableSynced tableName w = (0 >? clock w - CACHE_TTL_MS)).
  { unfold isTableSynced. rewrite Hrow. reflexivity. }
  split; [exact Hsynced|].
  split; [intros Hclock; rewrite Hsynced; apply gtb_false; lia|].
  assert (Htotal : (forall ms w', clock w' + ms <= clock (sleep ms w')) ->
                   (enoughFuel tableName w <= fuel)%nat ->
                   outcome r <> OutOfFuel).
  { intros Hadv Hfuel.
    exact (syncIfNeeded_total tableName lookupFn apiFetchFn sleep Hadv fuel w Hfuel). }
  subst r. unfold syncIfNeeded in *.
  destruct (lookupFn w) as [x|] eqn:Hl.
  - (* step 1 returns *)
    unfold checkAndWait. rewrite Hl. simpl. rewrite Hl.
    repeat split; try reflexivity. discriminate.
  - rewrite (checkAndWait_no_wait tableName lookupFn sleep fuel w Hl) in *
      by (intros meta Hm; congruence).
    assert (Hch : claimChanges tableName w = 0%nat).
    { unfold claimChanges. unfold getMeta in Hrow.
      rewrite (casClaim_no_row tableName (clock w) _ Hrow). reflexivity. }
    destruct (claimAndSync_lost tableName lookupFn apiFetchFn sleep fuel w Hch)
      as (post & Htr & Hpost & Hs & Hout).
    simpl in *. rewrite Htr.
    split.
    { change (EvSyncIfNeeded tableName :: EvLookup :: EvReadMeta
                :: EvClaim (clock w) false :: post)
        with ([EvSyncIfNeeded tableName; EvLookup; EvReadMeta;
               EvClaim (clock w) false] ++ post).
      rewrite countFetch_app, (countFetch_pollOnly post Hpost). reflexivity. }
    split; [intros _; exists post; auto|].
    intros Hadv Hfuel. destruct Hout as [Hout|Hout]; [|exact Hout].
    exfalso. exact (Htotal Hadv Hfuel Hout).
Qed.

(** The theorem for a table name the store was never seeded with. *)
Lemma missing_row_is_never_refreshed_witness :
  let r := syncIfNeeded "teams" (lookupChannel "general") fetchTwoChannels tick
                        (enoughFuel "teams" coldStart) coldStart in
  getMeta "teams" coldStart = None
  /\ isTableSynced "teams" coldStart = false
  /\ countFetch (trace r) = 0%nat
  /\ (exists post,
        trace r = [EvSyncIfNeeded "teams"; EvLookup; EvReadMeta;
                   EvClaim (clock coldStart) false] ++ post
        /\ pollOnly post
        /\ sleepsBefore (clock coldStart + SYNC_TIMEOUT_MS) post)
  /\ outcome r = Returned (lookupChannel "general" (final r)).
Proof.
  intros r.
  assert (Hrow : getMeta "teams" coldStart = None) by (vm_compute; reflexivity).
  destruct (missing_row_is_never_refreshed "teams" (lookupChannel "general")
              fetchTwoChannels tick (enoughFuel "teams" coldStart) coldStart Hrow)
    as (_ & Hfalse & Hnone & Hshape & Hret).
  fold r in Hnone, Hshape, Hret.
  split; [exact Hrow|].
  split; [apply Hfalse; vm_compute; discriminate|].
  split; [exact Hnone|].
  split; [apply Hshape; vm_compute; reflexivity|].
  apply Hret; [exact tick_advances|lia].
Defined.

(** ** The claim's staleness test *)

(** The claim made at [w] reports whether the row satisfied the clause at
    the instant of the claim, [clock w]. *)
Lemma claimAndSync_first_event {T : Type} (t : string) (lookupFn : World -> option T)
    (apiFetchFn : World -> FetchResult) (sleep : Z -> World -> World)
    (fuel : nat) (w : World) (meta : SyncMeta) :
  getMeta t w = Some meta ->
  exists rest,
    trace (claimAndSync t lookupFn apiFetchFn sleep fuel w)
    = EvClaim (clock w) (claimable meta (clock w)) :: rest.
Proof.
  intros Hm. destruct (claimable meta (clock w)) eqn:Hc.
  - destruct (claimAndSync_won_trace t lookupFn apiFetchFn sleep fuel w
                (claimChanges_won t w meta Hm Hc)) as (rest & Hrest).
    exists (EvFetch :: rest). exact Hrest.
  - assert (Hch : claimChanges t w = 0%nat).
    { unfold claimChanges. unfold getMeta in Hm.
      rewrite (casClaim_lost t (clock w) _ meta Hm Hc). reflexivity. }
    destruct (claimAndSync_lost t lookupFn apiFetchFn sleep fuel w Hch)
      as (post & Htr & _). exists post. exact Htr.
Qed.

(** The claim's clause, as the code has it: it tests staleness against the instant
    of the claim with the strict [started_at + SYNC_TIMEOUT_MS < now]: a
    row is claimable exactly when it is Idle or that inequality holds.  A
    row with [started_at = now - SYNC_TIMEOUT_MS - 1], [completed_at = 0] is
    claimable; a held row with [started_at = now - SYNC_TIMEOUT_MS + 1] is
    not. *)
Theorem claim_staleness_is_strict (meta : SyncMeta) (now : Z) :
  (claimable meta now = true
   <-> completed_at meta >= started_at meta
       \/ started_at meta + SYNC_TIMEOUT_MS < now)
  /\ (forall (T : Type) (t : string) (lookupFn : World -> option T)
             (apiFetchFn : World -> FetchResult) (sleep : Z -> World -> World)
             (fuel : nat) (w : World),
        getMeta t w = Some meta -> clock w = now ->
        exists rest,
          trace (claimAndSync t lookupFn apiFetchFn sleep fuel w)
          = EvClaim now (claimable meta now) :: rest)
  /\ (started_at meta = now - SYNC_TIMEOUT_MS - 1 ->
      completed_at meta = 0 ->
      claimable meta now = true)
  /\ (completed_at meta < started_at meta ->
      started_at meta = now - SYNC_TIMEOUT_MS + 1 ->
      claimable meta now = false).
Proof.
  split; [apply claimable_iff|].
  split.
  { intros T t lookupFn apiFetchFn sleep fuel w Hm <-.
    exact (claimAndSync_first_event t lookupFn apiFetchFn sleep fuel w meta Hm). }
  split; [intros Hs Hc; apply claimable_iff; right; lia|].
  intros Hheld Hs. apply claimable_false_iff. lia.
Qed.

(** The two rows of the statement at [now = 1700000000000]. *)
Lemma claim_staleness_is_strict_witness :
  let now := 1700000000000 in
  claimable (mkMeta (now - SYNC_TIMEOUT_MS - 1) 0) now = true
  /\ claimable (mkMeta (now - SYNC_TIMEOUT_MS + 1) 0) now = false.
Proof.
  split.
  - apply (claim_staleness_is_strict
             (mkMeta (1700000000000 - SYNC_TIMEOUT_MS - 1) 0) 1700000000000);
      reflexivity.
  - apply (claim_staleness_is_strict
             (mkMeta (1700000000000 - SYNC_TIMEOUT_MS + 1) 0) 1700000000000);
      [vm_compute|]; reflexivity.
Defined.

(** A lock held since exactly [now - SYNC_TIMEOUT_MS] does not satisfy the
    clause at [now]; the conditional update changes no row. *)
Lemma boundary_lock_not_reclaimable :
  let now := 1700000000000 in
  let meta := mkMeta (now - SYNC_TIMEOUT_MS) 0 in
  started_at meta + SYNC_TIMEOUT_MS = now
  /\ claimable meta now <> true
  /\ casClaim "channels" now (<["channels" := meta]> (seedMeta ∅))
     = (<["channels" := meta]> (seedMeta ∅), 0%nat).
Proof.
  split; [reflexivity|]. split; [vm_compute; discriminate|].
  apply casClaim_lost with (meta := mkMeta (1700000000000 - SYNC_TIMEOUT_MS) 0).
  - apply lookup_insert_eq.
  - reflexivity.
Qed.

(** C5 on the code.  A caller that misses and finds the row held since
    exactly [SYNC_TIMEOUT_MS] ago does not wait in step 2, which treats the
    lock as expired ([elapsed < SYNC_TIMEOUT_MS] is false), and goes to the
    claim at once; but the clause of the claim has the strict
    [started_at + SYNC_TIMEOUT_MS < claimTime], which this row does not
    satisfy: the conditional update changes no row, the caller invokes no
    refresh and polls as a losing claimant, sleeping first at its claim
    time.  One millisecond later the same row satisfies the clause. *)
Theorem lock_at_timeout_is_not_reclaimed
    {T : Type} (tableName : string) (lookupFn : World -> option T)
    (apiFetchFn : World -> FetchResult) (sleep : Z -> World -> World)
    (fuel : nat) (w : World) (meta : SyncMeta) :
  lookupFn w = None ->
  getMeta tableName w = Some meta ->
  completed_at meta < started_at meta ->
  started_at meta + SYNC_TIMEOUT_MS = clock w ->
  let r := syncIfNeeded tableName lookupFn apiFetchFn sleep fuel w in
  (exists post,
     trace r = [EvSyncIfNeeded tableName; EvLookup; EvReadMeta; EvClaim (clock w) false]
               ++ post
     /\ pollOnly post
     /\ (outcome r <> OutOfFuel ->
         exists rest, post = EvSleep (clock w) :: EvLookup :: rest))
  /\ countFetch (trace r) = 0%nat
  /\ claimable meta (clock w) = false
  /\ claimable meta (clock w + 1) = true.
Proof.
  intros Hmiss Hm Hheld Hsince r.
  assert (Hlost : claimable meta (clock w) = false).
  { apply claimable_false_iff. lia. }
  assert (Hch : claimChanges tableName w = 0%nat).
  { unfold claimChanges. unfold getMeta in Hm.
    rewrite (casClaim_lost tableName (clock w) _ meta Hm Hlost). reflexivity. }
  destruct (claimAndSync_lost tableName lookupFn apiFetchFn sleep fuel w Hch)
    as (post & Htrace & Hpost & _).
  destruct (claimAndSync_lost_polls tableName lookupFn apiFetchFn sleep fuel w Hch)
    as (Hfirst & _).
  assert (Hrun : r = after [EvSyncIfNeeded tableName; EvLookup; EvReadMeta]
                           (claimAndSync tableName lookupFn apiFetchFn sleep fuel w)).
  { subst r. unfold syncIfNeeded.
    rewrite (checkAndWait_no_wait tableName lookupFn sleep fuel w Hmiss);
      [reflexivity|].
    intros meta' Hm'. rewrite Hm in Hm'. injection Hm' as <-. right. lia. }
  rewrite Hrun. unfold after. cbn [trace outcome]. rewrite Htrace.
  split; [|split; [|split]].
  - exists post. split; [reflexivity|]. split; [exact Hpost|].
    intros Hfuel. destruct (Hfirst Hfuel) as (rest & Hrest).
    rewrite Htrace in Hrest. injection Hrest as ->. eauto.
  - change ([EvSyncIfNeeded tableName; EvLookup; EvReadMeta]
            ++ EvClaim (clock w) false :: post)
      with ([EvSyncIfNeeded tableName; EvLookup; EvReadMeta; EvClaim (clock w) false]
            ++ post).
    rewrite countFetch_app, (countFetch_pollOnly post Hpost). reflexivity.
  - exact Hlost.
  - apply claimable_iff. right. lia.
Qed.

(** The caller on [heldSinceTimeout], with nobody writing to the store:
    no wait in step 2, a claim that changes no row, then sixty sleeps and
    "absent". *)
Lemma lock_at_timeout_is_not_reclaimed_witness :
  let w := heldSinceTimeout in
  let held := mkMeta (clock w - SYNC_TIMEOUT_MS) 0 in
  ((exists post,
      trace boundaryRun
      = [EvSyncIfNeeded "channels"; EvLookup; EvReadMeta; EvClaim (clock w) false] ++ post
      /\ pollOnly post
      /\ (outcome boundaryRun <> OutOfFuel ->
          exists rest, post = EvSleep (clock w) :: EvLookup :: rest))
   /\ countFetch (trace boundaryRun) = 0%nat
   /\ claimable held (clock w) = false
   /\ claimable held (clock w + 1) = true)
  /\ outcome boundaryRun = Returned None
  /\ countSleeps (trace boundaryRun) = 60%nat
  /\ clock (final boundaryRun) = clock w + SYNC_TIMEOUT_MS.
Proof.
  intros w held. split.
  - apply (lock_at_timeout_is_not_reclaimed "channels" (lookupChannel "general")
             fetchTwoChannels tick 61 heldSinceTimeout held); reflexivity.
  - split; [|split]; vm_compute; reflexivity.
Defined.

(** ** A refresh that fails *)

(** A waiter whose sleep ends on a miss and on a row not completed since
    [since] goes round its loop again. *)
Lemma poll_goes_on {T : Type} (t : string) (lookupFn : World -> option T)
    (sleep : Z -> World -> World) (fuel : nat) (deadline since : Z) (w : World) :
  clock w < deadline ->
  lookupFn (sleep POLL_INTERVAL_MS w) = None ->
  (forall u, getMeta t (sleep POLL_INTERVAL_MS w) = Some u -> completed_at u < since) ->
  poll t lookupFn sleep (S fuel) deadline since w
  = pollAfter [EvSleep (clock w); EvLookup; EvReadMeta]
              (poll t lookupFn sleep fuel deadline since (sleep POLL_INTERVAL_MS w)).
Proof.
  intros Hd Hl Hrow. simpl.
  apply Z.ltb_lt in Hd. rewrite Hd, Hl.
  destruct (getMeta t (sleep POLL_INTERVAL_MS w)) as [u|]; [|reflexivity].
  destruct (completed_at u >=? since) eqn:Hc; [|reflexivity].
  apply geb_true in Hc. specialize (Hrow u eq_refl). lia.
Qed.

(** C2, as the code has it: when a claimed refresh fails, the row is reset
    by setting [started_at] back to [completed_at]; [completed_at] keeps the
    value the refresh left, so it does not become the [s] the claim wrote.
    The row is Idle again, but for a waiter that observed [started_at = s]
    with [completed_at < s] the re-read [completed_at >= s] stays false: the
    waiter whose sleep ends in that world on a miss is not released and
    goes round its loop again. *)
Theorem failed_refresh_resets_started_at
    {T : Type} (tableName : string) (lookupFn : World -> option T)
    (apiFetchFn : World -> FetchResult) (sleep : Z -> World -> World)
    (fuel : nat) (w : World) (e : SlackMcpError) :
  outcome (syncIfNeeded tableName lookupFn apiFetchFn sleep fuel w) = Thrown e ->
  let r := syncIfNeeded tableName lookupFn apiFetchFn sleep fuel w in
  exists (w' w2 : World) (msg : string),
    apiFetchFn (claimedWorld tableName w') = FetchErr w2 msg
    /\ final r = setMeta (resetLock tableName (sync_meta (db w2))) w2
    /\ forall left,
         getMeta tableName w2 = Some left ->
         getMeta tableName (final r)
         = Some (mkMeta (completed_at left) (completed_at left))
         /\ forall s,
              completed_at left < s ->
              (forall reset,
                 getMeta tableName (final r) = Some reset ->
                 Idle reset /\ completed_at reset < s
                 /\ (completed_at reset >=? s) = false)
              /\ forall (T' : Type) (lookupFn' : World -> option T')
                        (sleep' : Z -> World -> World) (fuel' : nat)
                        (deadline : Z) (w0 : World),
                   clock w0 < deadline ->
                   sleep' POLL_INTERVAL_MS w0 = final r ->
                   lookupFn' (final r) = None ->
                   poll tableName lookupFn' sleep' (S fuel') deadline s w0
                   = pollAfter [EvSleep (clock w0); EvLookup; EvReadMeta]
                       (poll tableName lookupFn' sleep' fuel' deadline s (final r)).
Proof.
  intros Hthrown r. fold r in Hthrown.
  sync_paths tableName lookupFn apiFetchFn sleep fuel w; fold r in Hout;
    try congruence; try (destruct Hout; congruence).
  fold r in Hfin. exists w', w2, msg.
  split; [exact Hf|]. split; [exact Hfin|].
  intros left Hleft.
  assert (Hrow : getMeta tableName (final r)
                 = Some (mkMeta (completed_at left) (completed_at left))).
  { rewrite Hfin, getMeta_setMeta. apply resetLock_row. exact Hleft. }
  split; [exact Hrow|].
  intros s Hs.
  assert (Hreset : forall reset, getMeta tableName (final r) = Some reset ->
                                 Idle reset /\ completed_at reset < s
                                 /\ (completed_at reset >=? s) = false).
  { intros reset Hm. rewrite Hrow in Hm. injection Hm as <-.
    unfold Idle. simpl. rewrite geb_false. lia. }
  split; [exact Hreset|].
  intros T' lookupFn' sleep' fuel' deadline w0 Hd Hwake Hmiss.
  rewrite <- Hwake. apply poll_goes_on; [exact Hd|rewrite Hwake; exact Hmiss|].
  intros u Hu. rewrite Hwake in Hu. apply (Hreset u Hu).
Qed.

(** The theorem at the winner's failed call on the cold store. *)
Lemma failed_refresh_resets_started_at_witness :
  outcome winnerRun = Thrown (mkError SYNC_FAILED "Failed to sync channels: network down")
  /\ exists (w' w2 : World) (msg : string),
    fetchFails (claimedWorld "channels" w') = FetchErr w2 msg
    /\ final winnerRun = setMeta (resetLock "channels" (sync_meta (db w2))) w2
    /\ forall left,
         getMeta "channels" w2 = Some left ->
         getMeta "channels" (final winnerRun)
         = Some (mkMeta (completed_at left) (completed_at left))
         /\ forall s,
              completed_at left < s ->
              (forall reset,
                 getMeta "channels" (final winnerRun) = Some reset ->
                 Idle reset /\ completed_at reset < s
                 /\ (completed_at reset >=? s) = false)
              /\ forall (T' : Type) (lookupFn' : World -> option T')
                        (sleep' : Z -> World -> World) (fuel' : nat)
                        (deadline : Z) (w0 : World),
                   clock w0 < deadline ->
                   sleep' POLL_INTERVAL_MS w0 = final winnerRun ->
                   lookupFn' (final winnerRun) = None ->
                   poll "channels" lookupFn' sleep' (S fuel') deadline s w0
                   = pollAfter [EvSleep (clock w0); EvLookup; EvReadMeta]
                       (poll "channels" lookupFn' sleep' fuel' deadline s
                             (final winnerRun)).
Proof.
  split; [vm_compute; reflexivity|].
  apply (failed_refresh_resets_started_at "channels" (lookupChannel "general")
           fetchFails tick 1 coldStart
           (mkError SYNC_FAILED "Failed to sync channels: network down")).
  vm_compute. reflexivity.
Defined.

(** C2 as stated fails.  The winner's claim on the cold store wrote
    [started_at = s]; its refresh failed; the reset left [completed_at] at 0,
    not at [s].  A waiter that had observed [started_at = s] is not released
    by the reset, 120 ms after the claim: it sleeps sixty times, until
    [s + SYNC_TIMEOUT_MS] has passed, before it goes on to claim. *)
Lemma failed_refresh_leaves_completed_at :
  let s := clock coldStart in
  getMeta "channels" afterWinnerClaim = Some (mkMeta s 0)
  /\ outcome winnerRun
     = Thrown (mkError SYNC_FAILED "Failed to sync channels: network down")
  /\ clock (final winnerRun) = s + 120
  /\ getMeta "channels" (final winnerRun) = Some (mkMeta 0 0)
  /\ ~ (exists reset, getMeta "channels" (final winnerRun) = Some reset
                      /\ completed_at reset = s)
  /\ ~ (exists reset, getMeta "channels" (final winnerRun) = Some reset
                      /\ completed_at reset >= s)
  /\ getMeta "channels" waiterArrives = Some (mkMeta s 0)
  /\ length (List.filter isSleep (trace waiterRun)) = 60%nat
  /\ exists pre rest,
       trace waiterRun = pre ++ EvClaim (s + 30100) true :: rest
       /\ length (List.filter isSleep pre) = 60%nat.
Proof.
  split; [vm_compute; reflexivity|].
  split; [vm_compute; reflexivity|].
  split; [vm_compute; reflexivity|].
  assert (Hrow : getMeta "channels" (final winnerRun) = Some (mkMeta 0 0))
    by (vm_compute; reflexivity).
  split; [exact Hrow|].
  split. { intros (reset & Hm & Hc). rewrite Hrow in Hm. injection Hm as <-.
           vm_compute in Hc. discriminate. }
  split. { intros (reset & Hm & Hc). rewrite Hrow in Hm. injection Hm as <-.
           vm_compute in Hc. apply Hc. reflexivity. }
  split; [vm_compute; reflexivity|].
  split; [vm_compute; reflexivity|].
  assert (Hcut : exists n, trace waiterRun
                 = firstn n (trace waiterRun)
                   ++ EvClaim (clock coldStart + 30100) true
                   :: skipn (S n) (trace waiterRun)
                 /\ length (List.filter isSleep (firstn n (trace waiterRun))) = 60%nat).
  { exists 184%nat. vm_compute. split; reflexivity. }
  destruct Hcut as (n & Hcut & Hlen). eauto.
Qed.

(** ** Callers that race for the claim *)






(** ** The entity caches *)

Lemma selectId_none_iff (where_ : Entity -> bool) (rows : list Entity) :
  selectId where_ rows = None <-> forall r, In r rows -> where_ r = false.
Proof.
  unfold selectId. induction rows as [|x rows IH]; simpl.
  - split; [intros _ r []|reflexivity].
  - destruct (where_ x) eqn:Hx; simpl.
    + split; [discriminate|]. intros H. specialize (H x (or_introl eq_refl)). congruence.
    + rewrite IH. split.
      * intros H r [<-|Hin]; auto.
      * intros H r Hin. apply H. right. exact Hin.
Qed.

Lemma selectId_some (where_ : Entity -> bool) (rows : list Entity) (id : string) :
  selectId where_ rows = Some id ->
  exists x, In x rows /\ where_ x = true /\ ent_id x = id.
Proof.
  unfold selectId. destruct (find where_ rows) as [x|] eqn:Hf; [|discriminate].
  intros [= <-]. apply find_some in Hf. exists x. tauto.
Qed.

Lemma selectId_hit (where_ : Entity -> bool) (rows : list Entity) (r : Entity) :
  In r rows -> where_ r = true ->
  exists x, In x rows /\ where_ x = true /\ selectId where_ rows = Some (ent_id x).
Proof.
  intros Hin Hr. destruct (selectId where_ rows) as [id|] eqn:Hsel.
  - destruct (selectId_some _ _ _ Hsel) as (x & Hx & Hw & <-). eauto.
  - rewrite selectId_none_iff in Hsel. specialize (Hsel r Hin). congruence.
Qed.

Lemma isFresh_iff (w : World) (r : Entity) :
  isFresh w r = true <-> synced_at r > clock w - CACHE_TTL_MS.
Proof. unfold isFresh. rewrite gtb_true. lia. Qed.

Lemma isFresh_false_iff (w : World) (r : Entity) :
  isFresh w r = false <-> synced_at r <= clock w - CACHE_TTL_MS.
Proof. unfold isFresh. apply gtb_false. Qed.

Lemma byName_true (name : string) (w : World) (r : Entity) :
  byName name w r = true <-> ent_name r = name /\ isFresh w r = true.
Proof. unfold byName. rewrite andb_true_iff, String.eqb_eq. reflexivity. Qed.

Lemma byId_true (id : string) (w : World) (r : Entity) :
  byId id w r = true <-> ent_id r = id /\ isFresh w r = true.
Proof. unfold byId. rewrite andb_true_iff, String.eqb_eq. reflexivity. Qed.

Lemma byName_false (name : string) (w : World) (r : Entity) :
  byName name w r = false <-> (ent_name r = name -> isFresh w r = false).
Proof.
  unfold byName. rewrite andb_false_iff, String.eqb_neq.
  destruct (String.eqb_spec (ent_name r) name); intuition congruence.
Qed.

Lemma byId_false (id : string) (w : World) (r : Entity) :
  byId id w r = false <-> (ent_id r = id -> isFresh w r = false).
Proof.
  unfold byId. rewrite andb_false_iff, String.eqb_neq.
  destruct (String.eqb_spec (ent_id r) id); intuition congruence.
Qed.

(** A table is synced within the freshness window iff its row's
    [completed_at > now - CACHE_TTL_MS]. *)
Lemma isTableSynced_row (t : string) (w : World) (meta : SyncMeta) :
  getMeta t w = Some meta ->
  (isTableSynced t w = true <-> completed_at meta > clock w - CACHE_TTL_MS).
Proof. intros Hm. unfold isTableSynced. rewrite Hm, gtb_true. lia. Qed.

(** Any selection by a key field and freshness is strict at the TTL. *)
Lemma selectId_strict (key : Entity -> string)
    (where_ : string -> World -> Entity -> bool) (rows : World -> list Entity) :
  (forall k w r, where_ k w r = true <-> key r = k /\ isFresh w r = true) ->
  StrictTtl (fun k w => selectId (where_ k w) (rows w)) rows key.
Proof.
  intros Hwhere w k.
  assert (Hmiss : selectId (where_ k w) (rows w) = None
                  <-> forall r, In r (rows w) -> key r = k ->
                                synced_at r <= clock w - CACHE_TTL_MS).
  { rewrite selectId_none_iff. split.
    - intros H r Hin Hk. apply isFresh_false_iff.
      destruct (isFresh w r) eqn:Hf; [|reflexivity].
      rewrite <- (H r Hin). symmetry. apply Hwhere. auto.
    - intros H r Hin. destruct (where_ k w r) eqn:Hw; [|reflexivity].
      apply Hwhere in Hw as (Hk & Hf). apply isFresh_iff in Hf.
      specialize (H r Hin Hk). lia. }
  split; [exact Hmiss|]. split.
  - intros Hall. apply Hmiss. intros r Hin Hk. rewrite (Hall r Hin Hk). lia.
  - intros r Hin Hk Hs.
    assert (Hr : where_ k w r = true).
    { apply Hwhere. split; [exact Hk|]. apply isFresh_iff. lia. }
    destruct (selectId_hit (where_ k w) (rows w) r Hin Hr) as (x & Hx & Hwx & Hsel).
    exists x. split; [exact Hx|]. split; [|exact Hsel].
    apply Hwhere in Hwx. tauto.
Qed.

(** C8: record freshness is strict against [now - CACHE_TTL_MS]: a record
    synced exactly the TTL ago is not fresh, one synced a millisecond later
    is; and so every lookup (channels by name and by id, users, groups)
    misses on rows synced exactly the TTL ago and hits on a row synced a
    millisecond later. *)
Theorem lookups_are_strict_at_ttl :
  (forall w r, synced_at r = clock w - CACHE_TTL_MS -> isFresh w r = false)
  /\ (forall w r, synced_at r = clock w - CACHE_TTL_MS + 1 -> isFresh w r = true)
  /\ StrictTtl lookupChannel (fun w => channels (db w)) ent_name
  /\ StrictTtl lookupUser (fun w => users (db w)) ent_name
  /\ StrictTtl lookupUserGroup (fun w => user_groups (db w)) ent_name
  /\ StrictTtl ChannelsById.lookupChannelByName (fun w => channels (db w)) ent_name
  /\ StrictTtl ChannelsById.lookupChannelById (fun w => channels (db w)) ent_id.
Proof.
  split; [intros w r Hs; apply isFresh_false_iff; lia|].
  split; [intros w r Hs; apply isFresh_iff; lia|].
  split; [exact (selectId_strict ent_name byName _ byName_true)|].
  split; [exact (selectId_strict ent_name byName _ byName_true)|].
  split; [exact (selectId_strict ent_name byName _ byName_true)|].
  split; [exact (selectId_strict ent_name byName _ byName_true)|].
  exact (selectId_strict ent_id byId _ byId_true).
Qed.

(** Alice's row, synced exactly the TTL ago and a millisecond later. *)
Lemma lookups_are_strict_at_ttl_witness :
  let now := 1700000000000 in
  lookupUser "alice" (oneUser (now - CACHE_TTL_MS) now) = None
  /\ exists x, In x (users (db (oneUser (now - CACHE_TTL_MS + 1) now)))
               /\ ent_name x = "alice"
               /\ lookupUser "alice" (oneUser (now - CACHE_TTL_MS + 1) now)
                  = Some (ent_id x).
Proof.
  pose proof lookups_are_strict_at_ttl as (_ & _ & _ & Husers & _).
  split.
  - apply (Husers (oneUser (1700000000000 - CACHE_TTL_MS) 1700000000000) "alice").
    intros r [<-|[]] _. reflexivity.
  - destruct (Husers (oneUser (1700000000000 - CACHE_TTL_MS + 1) 1700000000000)
                      "alice") as (_ & _ & Hhit).
    apply (Hhit (mkEntity "U222" "alice" (1700000000000 - CACHE_TTL_MS + 1))).
    + left. reflexivity.
    + reflexivity.
    + reflexivity.
Defined.

(** C6: when the table is known fresh (its [sync_meta] row has
    [completed_at > now - CACHE_TTL_MS]) and the local lookup misses,
    resolve returns absent and the coordinator is not invoked: the run is
    the lookup and the metadata read, nothing more, and the world is
    unchanged.  So for channels, users and groups. *)
Theorem known_fresh_miss_skips_sync
    (sleep : Z -> World -> World)
    (fetchChannels fetchUsers fetchUserGroups : World -> FetchResult)
    (key : string) (fuel : nat) (w : World) :
  (forall meta,
     getMeta "channels" w = Some meta ->
     completed_at meta > clock w - CACHE_TTL_MS ->
     lookupChannel key w = None ->
     getChannelId sleep fetchChannels key fuel w
     = mkRun (Returned None) w [EvLookup; EvReadMeta])
  /\ (forall meta,
        getMeta "users" w = Some meta ->
        completed_at meta > clock w - CACHE_TTL_MS ->
        lookupUser key w = None ->
        resolveUser sleep fetchUsers key fuel w
        = mkRun (Returned None) w [EvLookup; EvReadMeta])
  /\ (forall meta,
        getMeta "user_groups" w = Some meta ->
        completed_at meta > clock w - CACHE_TTL_MS ->
        lookupUserGroup key w = None ->
        resolveUserGroup sleep fetchUserGroups key fuel w
        = mkRun (Returned None) w [EvLookup; EvReadMeta]).
Proof.
  split; [|split]; intros meta Hm Hfresh Hmiss.
  - unfold getChannelId. rewrite Hmiss.
    apply (isTableSynced_row "channels" w meta Hm) in Hfresh.
    rewrite Hfresh. reflexivity.
  - unfold resolveUser. rewrite Hmiss.
    apply (isTableSynced_row "users" w meta Hm) in Hfresh.
    rewrite Hfresh. reflexivity.
  - unfold resolveUserGroup. rewrite Hmiss.
    apply (isTableSynced_row "user_groups" w meta Hm) in Hfresh.
    rewrite Hfresh. reflexivity.
Qed.

(** On the warm store, names nobody has resolve to absent without a sync,
    though the refreshes at hand would fail. *)
Lemma known_fresh_miss_skips_sync_witness :
  getChannelId tick fetchFails "nonexistent" 0 warmStore
  = mkRun (Returned None) warmStore [EvLookup; EvReadMeta]
  /\ resolveUser tick fetchFails "bob" 0 warmStore
     = mkRun (Returned None) warmStore [EvLookup; EvReadMeta]
  /\ resolveUserGroup tick fetchFails "team-z" 0 warmStore
     = mkRun (Returned None) warmStore [EvLookup; EvReadMeta].
Proof.
  pose proof (known_fresh_miss_skips_sync tick fetchFails fetchFails fetchFails)
    as H.
  split; [|split].
  - destruct (H "nonexistent" 0%nat warmStore) as (Hc & _ & _).
    apply (Hc (mkMeta 1700000000000 (1700000000000 + 120)));
      [vm_compute; reflexivity|vm_compute; reflexivity|reflexivity].
  - destruct (H "bob" 0%nat warmStore) as (_ & Hu & _).
    apply (Hu (mkMeta 1700000000000 (1700000000000 + 120)));
      [vm_compute; reflexivity|vm_compute; reflexivity|reflexivity].
  - destruct (H "team-z" 0%nat warmStore) as (_ & _ & Hg).
    apply (Hg (mkMeta 1700000000000 (1700000000000 + 120)));
      [vm_compute; reflexivity|vm_compute; reflexivity|reflexivity].
Defined.

(** C7 on the code.  The sources hold two texts of the channel cache.
    For an input that is the id of a fresh channel record and the label of
    no fresh one, the text with [lookupChannelById] answers with that id
    after its two lookups, without a sync and without a change to the
    store; the [getChannelId] of [src/cache/channels.ts], the one
    [sendMessage] imports, has no lookup by id: on a synced table it
    answers "absent", and otherwise it goes to [syncIfNeeded] with the
    lookup by label alone.  The text with the id lookup answers a label
    hit with the id of that record after one lookup, and calls
    [syncIfNeeded] with the combined lookup when label and id both miss.
    Users and groups are looked up by label only: their lookups miss
    exactly when no fresh record carries the input as its label, whatever
    the ids. *)
Theorem channel_id_resolves_in_one_text_only
    (sleep : Z -> World -> World) (fetchChannels : World -> FetchResult)
    (input : string) (fuel : nat) (w : World) :
  (forall r,
     In r (channels (db w)) -> ent_id r = input -> isFresh w r = true ->
     (forall x, In x (channels (db w)) -> isFresh w x = true -> ent_name x <> input) ->
     ChannelsById.getChannelId sleep fetchChannels input fuel w
     = mkRun (Returned (Some input)) w [EvLookup; EvLookup]
     /\ (isTableSynced "channels" w = true ->
         getChannelId sleep fetchChannels input fuel w
         = mkRun (Returned None) w [EvLookup; EvReadMeta])
     /\ (isTableSynced "channels" w = false ->
         getChannelId sleep fetchChannels input fuel w
         = after [EvLookup; EvReadMeta]
                 (syncIfNeeded "channels" (lookupChannel input) fetchChannels sleep
                               fuel w)))
  /\ (forall id,
        ChannelsById.lookupChannelByName input w = Some id ->
        ChannelsById.getChannelId sleep fetchChannels input fuel w
        = mkRun (Returned (Some id)) w [EvLookup])
  /\ ((forall x, In x (channels (db w)) -> isFresh w x = true ->
                 ent_name x <> input /\ ent_id x <> input) ->
      ChannelsById.getChannelId sleep fetchChannels input fuel w
      = after [EvLookup; EvLookup]
              (syncIfNeeded "channels" (ChannelsById.combinedLookup input)
                            fetchChannels sleep fuel w))
  /\ (lookupUser input w = None
      <-> forall x, In x (users (db w)) -> ent_name x = input -> isFresh w x = false)
  /\ (lookupUserGroup input w = None
      <-> forall x, In x (user_groups (db w)) -> ent_name x = input ->
                    isFresh w x = false).
Proof.
  assert (Hname : (forall x, In x (channels (db w)) -> isFresh w x = true ->
                             ent_name x <> input) ->
                  selectId (byName input w) (channels (db w)) = None).
  { intros Hnolabel. apply selectId_none_iff. intros x Hx.
    apply byName_false. intros Hn.
    destruct (isFresh w x) eqn:Hf; [|reflexivity].
    exfalso. exact (Hnolabel x Hx Hf Hn). }
  split; [|split; [|split; [|split]]].
  - intros r Hin Hid Hfresh Hnolabel.
    assert (Hbyid : ChannelsById.lookupChannelById input w = Some input).
    { unfold ChannelsById.lookupChannelById.
      destruct (selectId_hit (byId input w) (channels (db w)) r Hin)
        as (x & _ & Hx & Hsel); [apply byId_true; auto|].
      apply byId_true in Hx as (Hx & _). rewrite Hsel, Hx. reflexivity. }
    split; [|split].
    + unfold ChannelsById.getChannelId, ChannelsById.lookupChannelByName.
      rewrite (Hname Hnolabel), Hbyid. reflexivity.
    + intros Hsynced. unfold getChannelId, lookupChannel.
      rewrite (Hname Hnolabel), Hsynced. reflexivity.
    + intros Hsynced. unfold getChannelId. unfold lookupChannel at 1.
      rewrite (Hname Hnolabel), Hsynced. reflexivity.
  - intros id Hhit. unfold ChannelsById.getChannelId. rewrite Hhit. reflexivity.
  - intros Hnone. unfold ChannelsById.getChannelId, ChannelsById.lookupChannelByName,
      ChannelsById.lookupChannelById.
    rewrite (Hname (fun x Hx Hf => proj1 (Hnone x Hx Hf))).
    assert (Hid : selectId (byId input w) (channels (db w)) = None).
    { apply selectId_none_iff. intros x Hx. apply byId_false. intros Hi.
      destruct (isFresh w x) eqn:Hf; [|reflexivity].
      exfalso. exact (proj2 (Hnone x Hx Hf) Hi). }
    rewrite Hid. reflexivity.
  - unfold lookupUser. rewrite selectId_none_iff. split.
    + intros H x Hx. apply byName_false. auto.
    + intros H x Hx. apply byName_false. auto.
  - unfold lookupUserGroup. rewrite selectId_none_iff. split.
    + intros H x Hx. apply byName_false. auto.
    + intros H x Hx. apply byName_false. auto.
Qed.

(** ["C2"] on the warm store, whose only record with that id is labelled
    ["random"] and whose table was synced a minute ago: the text with the
    id lookup answers ["C2"], [src/cache/channels.ts] answers "absent";
    neither syncs.  The same kind of input misses among users. *)
Lemma channel_id_resolves_in_one_text_only_witness :
  ChannelsById.getChannelId tick fetchFails "C2" 0 warmStore
  = mkRun (Returned (Some "C2")) warmStore [EvLookup; EvLookup]
  /\ getChannelId tick fetchFails "C2" 0 warmStore
     = mkRun (Returned None) warmStore [EvLookup; EvReadMeta]
  /\ ChannelsById.getChannelId tick fetchFails "random" 0 warmStore
     = mkRun (Returned (Some "C2")) warmStore [EvLookup]
  /\ lookupUser "U222" warmStore = None.
Proof.
  destruct (channel_id_resolves_in_one_text_only tick fetchFails "C2" 0 warmStore)
    as (Hchan & _).
  destruct (channel_id_resolves_in_one_text_only tick fetchFails "random" 0 warmStore)
    as (_ & Hlabel & _).
  destruct (channel_id_resolves_in_one_text_only tick fetchFails "U222" 0 warmStore)
    as (_ & _ & _ & Huser & _).
  destruct (Hchan (mkEntity "C2" "random" 1700000000000)) as (Hbyid & Hsynced & _).
  - right. left. reflexivity.
  - reflexivity.
  - vm_compute. reflexivity.
  - intros x [<-|[<-|[]]] _; discriminate.
  - split; [exact Hbyid|]. split; [apply Hsynced; vm_compute; reflexivity|].
    split; [apply Hlabel; vm_compute; reflexivity|].
    apply Huser. intros x [<-|[]]; discriminate.
Defined.

(** The [getChannelId] of [src/cache/channels.ts] looks up by name only:
    on the warm store the input ["C2"], an id, resolves to absent. *)
Example getChannelId_looks_up_by_name_only :
  getChannelId tick fetchFails "C2" 0 warmStore
  = mkRun (Returned None) warmStore [EvLookup; EvReadMeta].
Proof. vm_compute. reflexivity. Qed.

(** ** Mentions *)

(** C9 at its input, on the code: with the test's mocks, [convertMentions]
    looks ["here"] up like any other name, finds nothing and leaves it:
    the result is ["@here <@U222> please check"], not
    ["<!here> <@U222> please check"]. *)
Theorem convertMentions_here_is_looked_up :
  mentionNames "@here @alice please check" = ["here"; "alice"]
  /\ convertMentionsRun mockResolveUserGroup mockResolveUser
       "@here @alice please check"
     = ("@here <@U222> please check",
        [CallGroup "here"; CallUser "here"; CallGroup "alice"; CallUser "alice"])
  /\ convertMentions mockResolveUserGroup mockResolveUser
       "@here @alice please check"
     <> "<!here> <@U222> please check".
Proof.
  split; [reflexivity|]. split; [reflexivity|].
  vm_compute. discriminate.
Qed.

(** Group matches take priority: when the group resolver answers, the
    replacement is the subteam mention and the user resolver is not asked. *)
Lemma resolveEntry_group_first (resolveUserGroup resolveUser : string -> option string)
    (name groupId : string) :
  truthy (resolveUserGroup name) = Some groupId ->
  resolveEntry resolveUserGroup resolveUser name
  = (Some ("<!subteam^" +:+ groupId +:+ ">"), [CallGroup name]).
Proof. intros Hg. unfold resolveEntry. rewrite Hg. reflexivity. Qed.

(** The test's ["backend-team"], a group and a user at once. *)
Lemma resolveEntry_group_first_witness :
  resolveEntry (fun _ => Some "S98765") (fun _ => Some "U12345") "backend-team"
  = (Some "<!subteam^S98765>", [CallGroup "backend-team"]).
Proof.
  apply (resolveEntry_group_first (fun _ => Some "S98765") (fun _ => Some "U12345")
           "backend-team" "S98765").
  reflexivity.
Defined.

Lemma nameEnd_bound (s : string) (n : nat) (best : option nat) (k : nat) :
  (forall b, best = Some b -> (b <= n)%nat) ->
  nameEnd s n best = Some k -> (k <= n + String.length s)%nat.
Proof.
  revert n best. induction s as [|c rest IH]; intros n best Hbest; simpl.
  - intros H. apply Hbest in H. lia.
  - destruct (isNameChar c).
    + intros H. apply IH in H; [lia|].
      intros b.
      match goal with |- context [if ?cond then _ else _] => destruct cond end.
      * intros [= <-]. lia.
      * intros Hb. apply Hbest in Hb. lia.
    + intros H. apply Hbest in H. lia.
Qed.

Lemma substring_dropChars (k : nat) (s : string) :
  (k <= String.length s)%nat -> substring 0 k s +:+ dropChars k s = s.
Proof.
  revert s. induction k as [|k IH]; intros s Hk.
  - destruct s; reflexivity.
  - destruct s as [|c rest]; simpl in *; [lia|].
    change (String c (substring 0 k rest +:+ dropChars k rest) = String c rest).
    f_equal. apply IH. lia.
Qed.

(** The pieces cut the message exactly: put back together with no
    replacement at hand they give the message from [skip] on. *)
Lemma replaceMentions_pieces (s : string) (prevWord : bool) (skip : nat) :
  fold_right (fun p out =>
                match p with
                | Plain c => String c out
                | Mention name =>
                    match replacementFor [] name with
                    | Some r => r +:+ out
                    | None => "@" +:+ name +:+ out
                    end
                end)
             EmptyString (pieces prevWord skip s)
  = dropChars skip s.
Proof.
  revert prevWord skip. induction s as [|c rest IH]; intros prevWord skip.
  - destruct skip; reflexivity.
  - destruct skip as [|k]; simpl; [|apply IH].
    destruct (Ascii.eqb c "@" && negb prevWord) eqn:Hat.
    + destruct (matchName rest) as [k|] eqn:Hm; simpl.
      * rewrite IH. apply andb_true_iff in Hat as (Hc & _).
        apply Ascii.eqb_eq in Hc. subst c.
        change ("@" +:+ substring 0 k rest +:+ dropChars k rest)
          with (String "@" (substring 0 k rest +:+ dropChars k rest)).
        rewrite substring_dropChars; [reflexivity|].
        apply (nameEnd_bound rest 0 None k) in Hm; [lia|discriminate].
      * rewrite IH. reflexivity.
    + simpl. rewrite IH. reflexivity.
Qed.

(** X25: replacing with no replacement at hand gives the message back. *)
Lemma replaceMentions_nil (message : string) : replaceMentions [] message = message.
Proof. unfold replaceMentions. apply replaceMentions_pieces. Qed.

(** X22: unknown mentions are left as they are: resolvers that know no
    name leave the message unchanged. *)
Lemma convertMentions_unknown_unchanged
    (resolveUserGroup resolveUser : string -> option string) (message : string) :
  (forall name, resolveUserGroup name = None) ->
  (forall name, resolveUser name = None) ->
  convertMentions resolveUserGroup resolveUser message = message.
Proof.
  intros Hg Hu. unfold convertMentions, convertMentionsRun.
  destruct (negb (includesAt message)); [reflexivity|].
  destruct (mentionNames message) as [|n names]; [reflexivity|].
  assert (Hnone : forall l,
            omap (fun e : string * (option string * list Call) =>
                    match fst (snd e) with
                    | Some replacement => Some (fst e, replacement)
                    | None => None
                    end)
                 (map (fun name => (name, resolveEntry resolveUserGroup resolveUser name)) l)
            = []).
  { induction l as [|x l IH]; [reflexivity|].
    simpl. unfold resolveEntry at 1. rewrite Hg, Hu. simpl. exact IH. }
  rewrite Hnone. reflexivity.
Qed.

Lemma convertMentions_unknown_unchanged_witness :
  convertMentions (fun _ => None) (fun _ => None) "hey @unknown-person"
  = "hey @unknown-person".
Proof.
  apply (convertMentions_unknown_unchanged (fun _ => None) (fun _ => None)
           "hey @unknown-person"); reflexivity.
Defined.

(** ** More of the coordinator and the store *)

(** The hot path: a hit at entry returns at once; no metadata is read
    and nothing is written. *)
Lemma syncIfNeeded_hit_returns_at_once
    {T : Type} (tableName : string) (lookupFn : World -> option T)
    (apiFetchFn : World -> FetchResult) (sleep : Z -> World -> World)
    (fuel : nat) (w : World) (cached : T) :
  lookupFn w = Some cached ->
  syncIfNeeded tableName lookupFn apiFetchFn sleep fuel w
  = mkRun (Returned (Some cached)) w [EvSyncIfNeeded tableName; EvLookup].
Proof.
  intros Hl. unfold syncIfNeeded, checkAndWait. rewrite Hl. reflexivity.
Qed.

Lemma syncIfNeeded_hit_returns_at_once_witness :
  syncIfNeeded "channels" (lookupChannel "general") fetchFails tick 0 warmStore
  = mkRun (Returned (Some "C1")) warmStore [EvSyncIfNeeded "channels"; EvLookup].
Proof.
  apply (syncIfNeeded_hit_returns_at_once "channels" (lookupChannel "general")
           fetchFails tick 0 warmStore "C1").
  vm_compute. reflexivity.
Defined.

(** X23: a refresh that resolves is marked completed at the time it ended: the
    row keeps the [started_at] the refresh left and gets that time as
    [completed_at], and the call returns its final lookup. *)
Lemma refresh_success_marks_completed
    {T : Type} (tableName : string) (lookupFn : World -> option T)
    (apiFetchFn : World -> FetchResult) (sleep : Z -> World -> World)
    (fuel : nat) (w w2 : World) (left : SyncMeta) :
  claimChanges tableName w = 1%nat ->
  apiFetchFn (claimedWorld tableName w) = FetchOk w2 ->
  getMeta tableName w2 = Some left ->
  let r := claimAndSync tableName lookupFn apiFetchFn sleep fuel w in
  getMeta tableName (final r) = Some (mkMeta (started_at left) (clock w2))
  /\ clock (final r) = clock w2
  /\ outcome r = Returned (lookupFn (final r))
  /\ trace r = [EvClaim (clock w) true; EvFetch; EvMarkCompleted (clock w2); EvLookup].
Proof.
  intros Hch Hf Hleft r. subst r.
  rewrite (claimAndSync_synced tableName lookupFn apiFetchFn sleep fuel w w2 Hch Hf).
  simpl. repeat split.
  rewrite getMeta_setMeta. unfold markCompleted. unfold getMeta in Hleft.
  rewrite Hleft. apply lookup_insert_eq.
Qed.

(** The first scenario: on the cold store resolving ["general"] claims,
    refreshes, marks the row completed 120 ms after the claim and returns
    ["C1"]. *)
Lemma refresh_success_marks_completed_witness :
  let r := claimAndSync "channels" (lookupChannel "general") fetchTwoChannels tick 0
                        coldStart in
  getMeta "channels" (final r)
  = Some (mkMeta (clock coldStart) (clock coldStart + 120))
  /\ outcome r = Returned (Some "C1").
Proof.
  destruct (refresh_success_marks_completed "channels" (lookupChannel "general")
              fetchTwoChannels tick 0 coldStart
              (tick 120 (storeChannels (clock coldStart)
                           [("C1", "general"); ("C2", "random")] afterWinnerClaim))
              (mkMeta (clock coldStart) 0))
    as (Hrow & _ & Hout & _); try (vm_compute; reflexivity).
  split; [exact Hrow|]. rewrite Hout. vm_compute. reflexivity.
Defined.

(** X24: seeding never clobbers progress: a row that exists is kept, a row
    of the three kinds that is missing starts at (0, 0), and seeding twice
    is seeding once. *)
Lemma seedMeta_keeps_progress (m : gmap string SyncMeta) (t : string) :
  (forall meta, m !! t = Some meta -> seedMeta m !! t = Some meta)
  /\ (m !! t = None -> t = "channels" \/ t = "users" \/ t = "user_groups" ->
      seedMeta m !! t = Some (mkMeta 0 0))
  /\ seedMeta (seedMeta m) = seedMeta m.
Proof.
  assert (Hkeep : forall k (m' : gmap string SyncMeta) meta,
            m' !! t = Some meta -> upsert k m' !! t = Some meta).
  { intros k m' meta Hm. unfold upsert. destruct (m' !! k) eqn:Hk; [exact Hm|].
    rewrite lookup_insert_ne; [exact Hm|]. intros ->. congruence. }
  assert (Hnew : forall (m' : gmap string SyncMeta),
            m' !! t = None -> upsert t m' !! t = Some (mkMeta 0 0)).
  { intros m' Hm. unfold upsert. rewrite Hm. apply lookup_insert_eq. }
  assert (Hidem : forall k (m' : gmap string SyncMeta),
            is_Some (m' !! k) -> upsert k m' = m').
  { intros k m' [x Hx]. unfold upsert. rewrite Hx. reflexivity. }
  assert (Hsome : forall k (m' : gmap string SyncMeta), is_Some (upsert k m' !! k)).
  { intros k m'. unfold upsert. destruct (m' !! k) eqn:Hk; [rewrite Hk; eauto|].
    rewrite lookup_insert_eq. eauto. }
  assert (Hmono : forall k k' (m' : gmap string SyncMeta),
            is_Some (m' !! k) -> is_Some (upsert k' m' !! k)).
  { intros k k' m' [x Hx]. unfold upsert. destruct (m' !! k') eqn:Hk'; [eauto|].
    destruct (decide (k' = k)) as [->|Hne]; [congruence|].
    rewrite lookup_insert_ne by exact Hne. eauto. }
  split; [|split].
  - intros meta Hm. unfold seedMeta. auto.
  - intros Hm [-> | [-> | ->]]; unfold seedMeta.
    + apply Hkeep, Hkeep, Hnew, Hm.
    + apply Hkeep. destruct (upsert "channels" m !! "users") eqn:Hc.
      * exfalso. unfold upsert in Hc. destruct (m !! "channels"); [congruence|].
        rewrite lookup_insert_ne in Hc by discriminate. congruence.
      * apply Hnew, Hc.
    + destruct (upsert "users" (upsert "channels" m) !! "user_groups") eqn:Hc.
      * exfalso. unfold upsert in Hc.
        destruct (m !! "channels");
          destruct (_ !! "users");
          repeat (rewrite lookup_insert_ne in Hc by discriminate); congruence.
      * apply Hnew, Hc.
  - unfold seedMeta at 1.
    rewrite (Hidem "channels"); [|unfold seedMeta; auto].
    rewrite (Hidem "users"); [|unfold seedMeta; auto].
    apply Hidem. unfold seedMeta. auto.
Qed.

Lemma seedMeta_keeps_progress_witness :
  seedMeta (sync_meta (db heldByOther)) !! "channels"
  = Some (mkMeta (1700000000000 - 10000) 0).
Proof.
  apply (seedMeta_keeps_progress (sync_meta (db heldByOther)) "channels").
  vm_compute. reflexivity.
Defined.

(** A replaced table has one row per id, and every row carries the
    refresh's single timestamp. *)
Lemma replaceAll_one_timestamp (now : Z) (pairs : list (string * string)) :
  Forall (fun r => synced_at r = now) (replaceAll now pairs)
  /\ NoDup (map ent_id (replaceAll now pairs)).
Proof.
  unfold replaceAll.
  assert (Hgen : forall rows,
            Forall (fun r => synced_at r = now) rows ->
            NoDup (map ent_id rows) ->
            Forall (fun r => synced_at r = now)
                   (fold_left (fun rows p =>
                                 insertOrReplace (mkEntity (fst p) (snd p) now) rows)
                              pairs rows)
            /\ NoDup (map ent_id
                        (fold_left (fun rows p =>
                                      insertOrReplace (mkEntity (fst p) (snd p) now) rows)
                                   pairs rows))).
  { induction pairs as [|p pairs IH]; intros rows Hts Hnd; [split; assumption|].
    simpl. apply IH.
    - unfold insertOrReplace. apply Forall_app. split.
      + apply Forall_forall. intros x Hx. rewrite Forall_forall in Hts.
        apply list_elem_of_In in Hx. apply filter_In in Hx as (Hx & _).
        apply Hts. apply list_elem_of_In. exact Hx.
      + constructor; [reflexivity|constructor].
    - unfold insertOrReplace. rewrite map_app. simpl.
      apply NoDup_app. split; [|split].
      + clear Hts. induction rows as [|x rows IHr]; simpl; [constructor|].
        apply NoDup_cons in Hnd as (Hx & Hnd).
        destruct (negb (String.eqb (ent_id x) (fst p))); simpl; auto.
        constructor; auto. intros Hin. apply Hx.
        apply list_elem_of_In in Hin. apply in_map_iff in Hin as (y & Hy & Hiny).
        apply filter_In in Hiny as (Hiny & _).
        apply list_elem_of_In. apply in_map_iff. eauto.
      + intros id Hin Hin'. apply list_elem_of_In in Hin.
        apply in_map_iff in Hin as (y & Hy & Hiny).
        apply filter_In in Hiny as (_ & Hne).
        apply list_elem_of_In in Hin'. destruct Hin' as [Heq|[]].
        apply negb_true_iff, String.eqb_neq in Hne. simpl in Hne. congruence.
      + constructor; [intros H; inversion H|constructor]. }
  apply Hgen; constructor.
Qed.

(** * Further properties of the code *)

(** ** How long a call waits *)

Lemma countSleeps_app (a b : list Event) :
  countSleeps (a ++ b) = (countSleeps a + countSleeps b)%nat.
Proof. unfold countSleeps. rewrite List.filter_app, List.length_app. reflexivity. Qed.

Section WaitBounds.

Context {T : Type}.
Variable tableName : string.
Variable lookupFn : World -> option T.
Variable apiFetchFn : World -> FetchResult.
Variable sleep : Z -> World -> World.
Hypothesis sleep_advances : forall ms w, clock w + ms <= clock (sleep ms w).

Lemma pollSleeps_after (pre : list Event) (p : @PollOut T) :
  (pollSleeps (pollAfter pre p) <= countSleeps pre + pollSleeps p)%nat.
Proof. destruct p; simpl; rewrite ?countSleeps_app; lia. Qed.

(** Consecutive sleeps begin at least [POLL_INTERVAL_MS] apart and the
    last one begins before the deadline. *)
Lemma poll_sleeps_bounded (fuel : nat) (deadline since : Z) (w : World) :
  POLL_INTERVAL_MS * Z.of_nat (pollSleeps (poll tableName lookupFn sleep fuel deadline since w))
  <= Z.max 0 (deadline - clock w + (POLL_INTERVAL_MS - 1)).
Proof.
  revert w. induction fuel as [|fuel IH]; intros w; simpl; [lia|].
  destruct (clock w <? deadline) eqn:Hd; [|cbn; lia].
  apply Z.ltb_lt in Hd.
  pose proof (sleep_advances POLL_INTERVAL_MS w) as Hadv.
  specialize (IH (sleep POLL_INTERVAL_MS w)).
  assert (Hrec : POLL_INTERVAL_MS
                 * Z.of_nat (pollSleeps
                     (pollAfter [EvSleep (clock w); EvLookup; EvReadMeta]
                        (poll tableName lookupFn sleep fuel deadline since
                              (sleep POLL_INTERVAL_MS w))))
                 <= Z.max 0 (deadline - clock w + (POLL_INTERVAL_MS - 1))).
  { pose proof (pollSleeps_after [EvSleep (clock w); EvLookup; EvReadMeta]
                  (poll tableName lookupFn sleep fuel deadline since
                        (sleep POLL_INTERVAL_MS w))) as Hle.
    change (countSleeps [EvSleep (clock w); EvLookup; EvReadMeta]) with 1%nat in Hle.
    unfold POLL_INTERVAL_MS in *. lia. }
  destruct (lookupFn (sleep POLL_INTERVAL_MS w)).
  - simpl. unfold POLL_INTERVAL_MS. cbn. lia.
  - destruct (getMeta tableName (sleep POLL_INTERVAL_MS w)) as [u|]; [|exact Hrec].
    destruct (completed_at u >=? since); [|exact Hrec].
    simpl. unfold POLL_INTERVAL_MS. cbn. lia.
Qed.

(** A loop whose deadline is at most [SYNC_TIMEOUT_MS] away sleeps at most
    sixty times. *)
Lemma poll_sixty (fuel : nat) (deadline since : Z) (w : World) :
  deadline - clock w <= SYNC_TIMEOUT_MS ->
  (pollSleeps (poll tableName lookupFn sleep fuel deadline since w) <= 60)%nat.
Proof.
  intros Hnear. pose proof (poll_sleeps_bounded fuel deadline since w) as Hb.
  unfold POLL_INTERVAL_MS, SYNC_TIMEOUT_MS in *. lia.
Qed.

Lemma claimAndSync_sleeps (fuel : nat) (w : World) :
  (countSleeps (trace (claimAndSync tableName lookupFn apiFetchFn sleep fuel w)) <= 60)%nat.
Proof.
  unfold claimAndSync.
  destruct (snd (casClaim tableName (clock w) (sync_meta (db w))) =? 0)%nat.
  - pose proof (poll_sixty fuel (clock w + SYNC_TIMEOUT_MS) (clock w)
                  (setMeta (fst (casClaim tableName (clock w) (sync_meta (db w)))) w))
      as Hp.
    rewrite clock_setMeta in Hp. specialize (Hp ltac:(lia)).
    destruct (poll tableName lookupFn sleep fuel _ _ _) as [r w2 tr|w2 tr|];
      simpl in *.
    + change (EvClaim (clock w) false :: tr) with ([EvClaim (clock w) false] ++ tr).
      rewrite countSleeps_app. cbn. lia.
    + change (EvClaim (clock w) false :: tr ++ [EvLookup])
        with ([EvClaim (clock w) false] ++ tr ++ [EvLookup]).
      rewrite !countSleeps_app. cbn. lia.
    + cbn. lia.
  - destruct (apiFetchFn _); cbn; lia.
Qed.

End WaitBounds.

(** X1: a call is bounded in its waiting.  Where every sleep moves the
    clock on by its interval and the row's [started_at] is not in the
    future, [syncIfNeeded] sleeps at most sixty times before its claim and,
    when the claim changes no row, at most sixty times after it: it is back
    within 120 polls, twice [SYNC_TIMEOUT_MS]. *)
Theorem syncIfNeeded_sleeps_at_most_120
    {T : Type} (tableName : string) (lookupFn : World -> option T)
    (apiFetchFn : World -> FetchResult) (sleep : Z -> World -> World)
    (fuel : nat) (w : World) :
  (forall ms w', clock w' + ms <= clock (sleep ms w')) ->
  (forall meta, getMeta tableName w = Some meta -> started_at meta <= clock w) ->
  (countSleeps (trace (syncIfNeeded tableName lookupFn apiFetchFn sleep fuel w))
   <= 120)%nat.
Proof.
  intros Hadv Hpast.
  pose proof (claimAndSync_sleeps tableName lookupFn apiFetchFn sleep Hadv fuel) as Hclaim.
  assert (Hhead : countSleeps [EvSyncIfNeeded tableName; EvLookup; EvReadMeta] = 0%nat)
    by reflexivity.
  assert (Hlookup : countSleeps [EvLookup] = 0%nat) by reflexivity.
  assert (Hdirect :
            (countSleeps
               (trace (after [EvSyncIfNeeded tableName]
                         (after [EvLookup; EvReadMeta]
                            (claimAndSync tableName lookupFn apiFetchFn sleep fuel w))))
             <= 120)%nat).
  { unfold after. simpl trace.
    change (EvSyncIfNeeded tableName :: EvLookup :: EvReadMeta
              :: trace (claimAndSync tableName lookupFn apiFetchFn sleep fuel w))
      with ([EvSyncIfNeeded tableName; EvLookup; EvReadMeta]
              ++ trace (claimAndSync tableName lookupFn apiFetchFn sleep fuel w)).
    rewrite countSleeps_app, Hhead. specialize (Hclaim w). lia. }
  unfold syncIfNeeded, checkAndWait.
  destruct (lookupFn w); [cbn; lia|].
  destruct (getMeta tableName w) as [meta|] eqn:Hm; [|exact Hdirect].
  destruct (started_at meta >? completed_at meta); [|exact Hdirect].
  destruct (clock w - started_at meta <? SYNC_TIMEOUT_MS); [|exact Hdirect].
  pose proof (poll_sixty tableName lookupFn sleep Hadv fuel
                (started_at meta + SYNC_TIMEOUT_MS) (started_at meta) w) as Hp.
  specialize (Hp ltac:(specialize (Hpast meta eq_refl); lia)).
  destruct (poll tableName lookupFn sleep fuel _ _ w) as [r w' tr|w' tr|];
    simpl in Hp.
  - unfold after. simpl trace.
    change (EvSyncIfNeeded tableName :: EvLookup :: EvReadMeta :: tr)
      with ([EvSyncIfNeeded tableName; EvLookup; EvReadMeta] ++ tr).
    rewrite countSleeps_app, Hhead. lia.
  - destruct (lookupFn w').
    + unfold after. simpl trace.
      change (EvSyncIfNeeded tableName :: EvLookup :: EvReadMeta :: tr ++ [EvLookup])
        with ([EvSyncIfNeeded tableName; EvLookup; EvReadMeta] ++ tr ++ [EvLookup]).
      rewrite !countSleeps_app, Hhead, Hlookup. lia.
    + specialize (Hclaim w'). unfold after. simpl trace.
      change (EvSyncIfNeeded tableName :: EvLookup :: EvReadMeta
                :: (tr ++ [EvLookup])
                   ++ trace (claimAndSync tableName lookupFn apiFetchFn sleep fuel w'))
        with ([EvSyncIfNeeded tableName; EvLookup; EvReadMeta]
                ++ (tr ++ [EvLookup])
                ++ trace (claimAndSync tableName lookupFn apiFetchFn sleep fuel w')).
      rewrite !countSleeps_app, Hhead, Hlookup. lia.
  - cbn. lia.
Qed.

Lemma syncIfNeeded_sleeps_at_most_120_witness :
  (countSleeps (trace takeoverRun) <= 120)%nat.
Proof.
  apply (syncIfNeeded_sleeps_at_most_120 "channels" (lookupChannel "general")
           fetchFails sleepDuringTakeover
           (enoughFuel "channels" heldByOther) heldByOther).
  - exact sleepDuringTakeover_advances.
  - intros meta Hm. vm_compute in Hm. injection Hm as <-. vm_compute. discriminate.
Defined.

Lemma pollRounds_pollOnly (sleep : Z -> World -> World) (n : nat) (w : World) :
  pollOnly (pollRounds sleep n w).
Proof.
  revert w. induction n as [|n IH]; intros w; simpl; [constructor|].
  repeat constructor. apply IH.
Qed.

(** A wait of [S n] rounds: no lookup hits, the rows read in the first
    [n] rounds are not completed since [since], the row read in the last
    round is. *)
Lemma poll_released {T : Type} (tableName : string) (lookupFn : World -> option T)
    (sleep : Z -> World -> World) (n fuel : nat) (deadline since : Z) (w : World)
    (done : SyncMeta) :
  (forall i, (i <= n)%nat -> clock (wakeUps sleep i w) < deadline) ->
  (forall i, (1 <= i <= S n)%nat -> lookupFn (wakeUps sleep i w) = None) ->
  (forall i, (1 <= i <= n)%nat ->
             forall u, getMeta tableName (wakeUps sleep i w) = Some u ->
                       completed_at u < since) ->
  getMeta tableName (wakeUps sleep (S n) w) = Some done ->
  completed_at done >= since ->
  poll tableName lookupFn sleep (S n + fuel) deadline since w
  = PollExit (wakeUps sleep (S n) w) (pollRounds sleep (S n) w).
Proof.
  revert w. induction n as [|n IH]; intros w Hclock Hmiss Hheld Hdone Hcompleted.
  - pose proof (Hmiss 1%nat ltac:(lia)) as Hmiss1.
    cbn [wakeUps] in Hdone, Hmiss1 |- *. cbn [pollRounds poll Nat.add].
    replace (clock w <? deadline) with true
      by (symmetry; apply Z.ltb_lt; exact (Hclock 0%nat (le_n 0))).
    rewrite Hmiss1, Hdone.
    replace (completed_at done >=? since) with true
      by (symmetry; apply geb_true; lia).
    reflexivity.
  - change (S (S n) + fuel)%nat with (S (S n + fuel)).
    rewrite (poll_goes_on tableName lookupFn sleep (S n + fuel) deadline since w).
    + rewrite (IH (sleep POLL_INTERVAL_MS w)).
      * reflexivity.
      * intros i Hi. apply (Hclock (S i)). lia.
      * intros i Hi. apply (Hmiss (S i)). lia.
      * intros i Hi. apply (Hheld (S i)). lia.
      * exact Hdone.
      * exact Hcompleted.
    + exact (Hclock 0%nat (Nat.le_0_l _)).
    + apply (Hmiss 1%nat). lia.
    + apply (Hheld 1%nat). lia.
Qed.

(** X2: a waiter is released when a row it reads after a sleep shows the
    holder's refresh completed.  If its lookups still miss, it goes to the
    claim at once, in the world it woke up in, after one more lookup.
    Where the row then satisfies the clause of the claim (no other caller
    has claimed it), the waiter claims it and invokes the refresh again: a
    completed refresh that did not bring the name is followed by another.
    Where another caller has claimed the row in the meantime, the waiter's
    conditional update changes no row and it invokes no refresh. *)
Theorem released_waiter_goes_to_the_claim
    {T : Type} (tableName : string) (lookupFn : World -> option T)
    (apiFetchFn : World -> FetchResult) (sleep : Z -> World -> World)
    (n fuel : nat) (w : World) (held done : SyncMeta) :
  getMeta tableName w = Some held ->
  started_at held > completed_at held ->
  (forall i, (i <= n)%nat ->
             clock (wakeUps sleep i w) - started_at held < SYNC_TIMEOUT_MS) ->
  (forall i, (i <= S n)%nat -> lookupFn (wakeUps sleep i w) = None) ->
  (forall i, (1 <= i <= n)%nat ->
             forall u, getMeta tableName (wakeUps sleep i w) = Some u ->
                       completed_at u < started_at held) ->
  getMeta tableName (wakeUps sleep (S n) w) = Some done ->
  completed_at done >= started_at held ->
  let v := wakeUps sleep (S n) w in
  let r := syncIfNeeded tableName lookupFn apiFetchFn sleep (S n + fuel) w in
  let waited := [EvSyncIfNeeded tableName; EvLookup; EvReadMeta]
                ++ pollRounds sleep (S n) w ++ [EvLookup] in
  (claimable done (clock v) = true ->
   exists rest, trace r = waited ++ [EvClaim (clock v) true; EvFetch] ++ rest)
  /\ (claimable done (clock v) = false ->
      countFetch (trace r) = 0%nat
      /\ exists rest, trace r = waited ++ EvClaim (clock v) false :: rest).
Proof.
  intros Hheld Hprogress Hclock Hmiss Hrows Hdone Hcompleted v r waited.
  subst v. set (v := wakeUps sleep (S n) w) in *.
  assert (Hwait : checkAndWait tableName lookupFn sleep (S n + fuel) w
                  = WaitProceed v ([EvLookup; EvReadMeta]
                                   ++ pollRounds sleep (S n) w ++ [EvLookup])).
  { pose proof (Hmiss 0%nat (Nat.le_0_l _)) as Hmiss0. cbn [wakeUps] in Hmiss0.
    unfold checkAndWait. rewrite Hmiss0, Hheld.
    replace (started_at held >? completed_at held) with true
      by (symmetry; apply gtb_true; lia).
    replace (clock w - started_at held <? SYNC_TIMEOUT_MS) with true
      by (symmetry; apply Z.ltb_lt; exact (Hclock 0%nat (Nat.le_0_l _))).
    rewrite (poll_released tableName lookupFn sleep n fuel
               (started_at held + SYNC_TIMEOUT_MS) (started_at held) w done).
    - fold v. replace (lookupFn v) with (@None T) by (symmetry; apply Hmiss; lia).
      reflexivity.
    - intros i Hi. specialize (Hclock i Hi). lia.
    - intros i Hi. apply Hmiss. lia.
    - exact Hrows.
    - exact Hdone.
    - exact Hcompleted. }
  assert (Hrun : trace r
                 = waited ++ trace (claimAndSync tableName lookupFn apiFetchFn sleep
                                                 (S n + fuel) v)).
  { subst r waited. unfold syncIfNeeded. rewrite Hwait. unfold after. cbn [trace].
    rewrite <- !app_assoc. reflexivity. }
  split; intros Hclause.
  - assert (Hch : claimChanges tableName v = 1%nat)
      by exact (claimChanges_won tableName v done Hdone Hclause).
    destruct (claimAndSync_won_trace tableName lookupFn apiFetchFn sleep (S n + fuel)
                v Hch) as (rest & Hrest).
    exists rest. rewrite Hrun, Hrest. reflexivity.
  - assert (Hch : claimChanges tableName v = 0%nat).
    { unfold claimChanges. unfold getMeta in Hdone.
      rewrite (casClaim_lost tableName (clock v) _ done Hdone Hclause). reflexivity. }
    destruct (claimAndSync_lost tableName lookupFn apiFetchFn sleep (S n + fuel) v Hch)
      as (post & Htrace & Hpost & _).
    rewrite Hrun, Htrace. split; [|exists post; reflexivity].
    assert (Hwaited : pollOnly (pollRounds sleep (S n) w ++ [EvLookup])).
    { apply pollOnly_app; [apply pollRounds_pollOnly|apply pollOnly_lookup]. }
    subst waited. set (rounds := pollRounds sleep (S n) w ++ [EvLookup]) in *.
    rewrite <- app_assoc, !countFetch_app, (countFetch_pollOnly rounds Hwaited).
    change (EvClaim (clock v) false :: post) with ([EvClaim (clock v) false] ++ post).
    rewrite countFetch_app, (countFetch_pollOnly post Hpost). reflexivity.
Qed.

(** Two waiters on [heldByOther] look for ["general"]; the holder's
    refresh completes 1.3 s later and brings only ["random"].  Both wake up
    for the third time 1.5 s into the wait.  The one that finds the row as
    the holder left it claims it and fetches; the one that finds it claimed
    again 100 ms before loses its claim and fetches nothing. *)
Lemma released_waiter_goes_to_the_claim_witness :
  let t0 := clock heldByOther in
  let waited := [EvSyncIfNeeded "channels"; EvLookup; EvReadMeta;
                 EvSleep t0; EvLookup; EvReadMeta;
                 EvSleep (t0 + 500); EvLookup; EvReadMeta;
                 EvSleep (t0 + 1000); EvLookup; EvReadMeta; EvLookup] in
  (exists rest,
     trace (syncIfNeeded "channels" (lookupChannel "general") fetchTwoChannels
                         sleepUntilHolderCompletes 64 heldByOther)
     = waited ++ [EvClaim (t0 + 1500) true; EvFetch] ++ rest)
  /\ countFetch (trace (syncIfNeeded "channels" (lookupChannel "general")
                                     fetchTwoChannels sleepUntilReclaimed 64
                                     heldByOther)) = 0%nat
  /\ exists rest,
       trace (syncIfNeeded "channels" (lookupChannel "general") fetchTwoChannels
                           sleepUntilReclaimed 64 heldByOther)
       = waited ++ EvClaim (t0 + 1500) false :: rest.
Proof.
  intros t0 waited.
  assert (Hcases : forall i, (i <= 3)%nat -> i = 0%nat \/ i = 1%nat \/ i = 2%nat \/ i = 3%nat)
    by (intros i Hi; lia).
  destruct (released_waiter_goes_to_the_claim "channels" (lookupChannel "general")
              fetchTwoChannels sleepUntilHolderCompletes 2 61 heldByOther
              (mkMeta (1700000000000 - 10000) 0)
              (mkMeta (1700000000000 - 10000) (1700000000000 + 1300)))
    as (Hfirst & _).
  - reflexivity.
  - vm_compute. reflexivity.
  - intros i Hi. destruct (Hcases i) as [-> | [-> | [-> | ->]]]; try lia;
      vm_compute; reflexivity.
  - intros i Hi. destruct (Hcases i) as [-> | [-> | [-> | ->]]]; try lia;
      vm_compute; reflexivity.
  - intros i Hi u Hu. destruct (Hcases i) as [-> | [-> | [-> | ->]]]; try lia;
      vm_compute in Hu; injection Hu as <-; vm_compute; reflexivity.
  - vm_compute. reflexivity.
  - vm_compute. discriminate.
  - destruct (released_waiter_goes_to_the_claim "channels" (lookupChannel "general")
                fetchTwoChannels sleepUntilReclaimed 2 61 heldByOther
                (mkMeta (1700000000000 - 10000) 0)
                (mkMeta (1700000000000 + 1400) (1700000000000 + 1300)))
      as (_ & Hsecond).
    + reflexivity.
    + vm_compute. reflexivity.
    + intros i Hi. destruct (Hcases i) as [-> | [-> | [-> | ->]]]; try lia;
        vm_compute; reflexivity.
    + intros i Hi. destruct (Hcases i) as [-> | [-> | [-> | ->]]]; try lia;
        vm_compute; reflexivity.
    + intros i Hi u Hu. destruct (Hcases i) as [-> | [-> | [-> | ->]]]; try lia;
        vm_compute in Hu; injection Hu as <-; vm_compute; reflexivity.
    + vm_compute. reflexivity.
    + vm_compute. discriminate.
    + split; [apply Hfirst; vm_compute; reflexivity|].
      apply Hsecond. vm_compute. reflexivity.
Defined.

(** ** The refreshes *)

Lemma truthy_some (o : option string) (s : string) :
  truthy o = Some s <-> o = Some s /\ s <> EmptyString.
Proof.
  destruct o as [[|c r]|]; simpl; split.
  - discriminate.
  - intros ([= <-] & H). congruence.
  - intros [= <-]. split; [reflexivity|discriminate].
  - intros ([= <-] & _). reflexivity.
  - discriminate.
  - intros ([=] & _).
Qed.

Lemma validPairs_in (elements : list Listed) (id name : string) :
  In (id, name) (validPairs elements)
  <-> exists e, In e elements
                /\ truthy (listed_id e) = Some id
                /\ truthy (listed_name e) = Some name.
Proof.
  unfold validPairs. induction elements as [|e es IH]; simpl.
  - split; [intros []|intros (e & [] & _)].
  - destruct (truthy (listed_id e)) as [i|] eqn:Hi;
      [destruct (truthy (listed_name e)) as [n|] eqn:Hn|]; simpl; rewrite ?IH.
    + split.
      * intros [[= <- <-]|(x & Hx & H)]; [exists e; auto|exists x; auto].
      * intros (x & [<-|Hx] & H1 & H2); [left; congruence|right; eauto].
    + split.
      * intros (x & Hx & H); exists x; auto.
      * intros (x & [<-|Hx] & H1 & H2); [congruence|eauto].
    + split.
      * intros (x & Hx & H); exists x; auto.
      * intros (x & [<-|Hx] & H1 & H2); [congruence|eauto].
Qed.

(** Pairs with an id and a name. *)
Lemma validPairs_nonempty (elements : list Listed) :
  Forall (fun p => fst p <> EmptyString /\ snd p <> EmptyString) (validPairs elements).
Proof.
  apply Forall_forall. intros [id name] Hin. apply list_elem_of_In in Hin.
  apply validPairs_in in Hin as (e & _ & Hi & Hn).
  apply truthy_some in Hi, Hn. simpl. tauto.
Qed.

Section Listing.

Variable list_ : option string -> World -> ListResult.

(** The loop only adds valid pairs to what it has. *)
Lemma listAll_done (fuel : nat) (cursor : option string)
    (pairs : list (string * string)) (w w' : World) (all : list (string * string)) :
  listAll list_ fuel cursor pairs w = PagesDone w' all ->
  exists more, all = pairs ++ more
               /\ Forall (fun p => fst p <> EmptyString /\ snd p <> EmptyString) more.
Proof.
  revert cursor pairs w. induction fuel as [|fuel IH]; intros cursor pairs w; simpl;
    [discriminate|].
  destruct (list_ cursor w) as [w1 elements next|w1 msg]; [|discriminate].
  destruct (truthy next) as [c|].
  - intros H. apply IH in H as (more & -> & Hmore).
    exists (validPairs elements ++ more). rewrite app_assoc. split; [reflexivity|].
    apply Forall_app. split; [apply validPairs_nonempty|exact Hmore].
  - intros [= <- <-]. exists (validPairs elements).
    split; [reflexivity|apply validPairs_nonempty].
Qed.

(** A rejected listing is the rejection of one of its calls. *)
Lemma listAll_err (fuel : nat) (cursor : option string)
    (pairs : list (string * string)) (w w' : World) (msg : string) :
  listAll list_ fuel cursor pairs w = PagesErr w' msg ->
  exists cursor0 w0, list_ cursor0 w0 = ListErr w' msg.
Proof.
  revert cursor pairs w. induction fuel as [|fuel IH]; intros cursor pairs w; simpl;
    [discriminate|].
  destruct (list_ cursor w) as [w1 elements next|w1 msg1] eqn:Hcall.
  - destruct (truthy next) as [c|]; [apply IH|discriminate].
  - intros [= <- <-]. eauto.
Qed.

Hypothesis list_reads_only : readsOnly list_.

(** Listing leaves the store alone when its calls do. *)
Lemma listAll_frame (fuel : nat) (cursor : option string)
    (pairs : list (string * string)) (w : World) :
  match listAll list_ fuel cursor pairs w with
  | PagesDone w' _ => db w' = db w
  | PagesErr w' _ => db w' = db w
  | PagesFuel => True
  end.
Proof.
  revert cursor pairs w. induction fuel as [|fuel IH]; intros cursor pairs w; simpl;
    [trivial|].
  pose proof (list_reads_only cursor w) as Hframe.
  destruct (list_ cursor w) as [w1 elements next|w1 msg1]; simpl in Hframe;
    [|exact Hframe].
  destruct (truthy next) as [c|]; [|exact Hframe].
  specialize (IH (Some c) (pairs ++ validPairs elements) w1).
  destruct (listAll list_ fuel (Some c) _ w1); congruence || trivial.
Qed.

End Listing.

Lemma listAll_rejected (list_ : option string -> World -> ListResult)
    (pages : list (list Listed)) (cursor : option string) (w w' : World)
    (msg : string) :
  RejectedChain list_ cursor w pages w' msg ->
  forall fuel pairs,
    (length pages < fuel)%nat ->
    listAll list_ fuel cursor pairs w = PagesErr w' msg.
Proof.
  induction 1 as [cursor w w' msg Hcall
                 |cursor w w1 w' elements next cursor' rest msg Hcall Hnext _ IH];
    intros fuel pairs Hfuel; simpl in Hfuel;
    (destruct fuel as [|fuel]; [lia|]); simpl; rewrite Hcall.
  - reflexivity.
  - rewrite Hnext. apply IH. lia.
Qed.

Lemma servePages_reads_only (pages : list (list Listed)) : readsOnly (servePages pages).
Proof.
  intros cursor w. unfold servePages.
  destruct (nth_error pages _); reflexivity.
Qed.

(** X3: a rejected listing call aborts the refresh, and nothing is
    committed.  When the remote serves some pages and then rejects a call,
    [fetchChannels] and [fetchUsers] reject with that call's message in the
    world that call left, whatever the pages read before held; where the
    listing calls write nothing to the store, the store is then exactly as
    it was before the refresh.  [fetchUserGroups], which makes one call,
    rejects when that call does. *)
Theorem failed_fetch_commits_nothing (client : WebClient)
    (pages : list (list Listed)) (fuel : nat) (w w' : World) (msg : string) :
  (length pages < fuel)%nat ->
  (RejectedChain (conversations_list client) None w pages w' msg ->
   fetchChannels client fuel w = Some (FetchErr w' msg)
   /\ (readsOnly (conversations_list client) -> db w' = db w))
  /\ (RejectedChain (users_list client) None w pages w' msg ->
      fetchUsers client fuel w = Some (FetchErr w' msg)
      /\ (readsOnly (users_list client) -> db w' = db w))
  /\ (usergroups_list client w = ListErr w' msg ->
      fetchUserGroups client w = FetchErr w' msg).
Proof.
  intros Hfuel. split; [|split].
  - intros Hchain.
    pose proof (listAll_rejected _ _ _ _ _ _ Hchain fuel [] Hfuel) as Hall.
    unfold fetchChannels. rewrite Hall. split; [reflexivity|].
    intros Hro. pose proof (listAll_frame _ Hro fuel None [] w) as Hf.
    rewrite Hall in Hf. exact Hf.
  - intros Hchain.
    pose proof (listAll_rejected _ _ _ _ _ _ Hchain fuel [] Hfuel) as Hall.
    unfold fetchUsers. rewrite Hall. split; [reflexivity|].
    intros Hro. pose proof (listAll_frame _ Hro fuel None [] w) as Hf.
    rewrite Hall in Hf. exact Hf.
  - intros Hcall. unfold fetchUserGroups. rewrite Hcall. reflexivity.
Qed.

(** A remote whose second page never comes: the first page is fetched, the
    second call rejects, and the warm store keeps its two channels. *)
Lemma failed_fetch_commits_nothing_witness :
  let w' := tick 200 (tick 200 warmStore) in
  fetchChannels secondPageRejects 5 warmStore = Some (FetchErr w' "ratelimited")
  /\ db w' = db warmStore
  /\ channels (db w') = [mkEntity "C1" "general" 1700000000000;
                         mkEntity "C2" "random" 1700000000000].
Proof.
  intros w'.
  destruct (failed_fetch_commits_nothing secondPageRejects
              [[mkListed (Some "C7") (Some "new")]] 5 warmStore w' "ratelimited")
    as (Hchannels & _); [simpl; lia|].
  destruct Hchannels as (Hrun & Hframe).
  - eapply RejectLater; [reflexivity|reflexivity|]. apply RejectNow. reflexivity.
  - split; [exact Hrun|]. split; [|reflexivity].
    apply Hframe. intros cursor w. destruct cursor; reflexivity.
Defined.

(** *** The replace transaction *)

Lemma In_insertOrReplace (r x : Entity) (rows : list Entity) :
  In r (insertOrReplace x rows) <-> (In r rows /\ ent_id r <> ent_id x) \/ r = x.
Proof.
  unfold insertOrReplace. rewrite in_app_iff, filter_In. simpl.
  rewrite negb_true_iff, String.eqb_neq. intuition.
Qed.

Lemma fold_insertOrReplace_in (now : Z) (pairs : list (string * string))
    (rows : list Entity) (r : Entity) :
  In r (fold_left (fun rows p => insertOrReplace (mkEntity (fst p) (snd p) now) rows)
                  pairs rows)
  <-> (synced_at r = now /\ lastNameOf (ent_id r) pairs = Some (ent_name r))
      \/ (lastNameOf (ent_id r) pairs = None /\ In r rows).
Proof.
  revert rows. induction pairs as [|[i n] pairs IH]; intros rows; simpl.
  - split; [auto|]. intros [(_ & H)|(_ & H)]; [discriminate|exact H].
  - rewrite IH, In_insertOrReplace. destruct r as [rid rname rt]. simpl.
    destruct (lastNameOf rid pairs) as [n'|].
    + split; (intros [H|(H & _)]; [left; exact H|discriminate]).
    + destruct (String.eqb_spec i rid) as [->|Hne].
      * split.
        -- intros [(_ & H)|(_ & [(_ & H)|H])]; [discriminate|congruence|].
           injection H as -> ->. left. auto.
        -- intros [(-> & [= ->])|(H & _)]; [|discriminate].
           right. split; [reflexivity|]. right. reflexivity.
      * split.
        -- intros [(_ & H)|(_ & [(H & _)|H])]; [discriminate| |congruence].
           right. auto.
        -- intros [(_ & H)|(_ & H)]; [discriminate|].
           right. split; [reflexivity|]. left. split; [exact H|congruence].
Qed.

(** X4: the replace transaction keeps exactly one row for each id listed,
    with the name of the last pair that has the id and the refresh's time,
    and nothing else: no two rows share an id, and a row is in the table
    exactly when it carries that time and the name listed last for its id.
    A remote that lists an id twice overwrites the first name with the
    second. *)
Theorem replaceAll_last_write_wins (now : Z) (pairs : list (string * string)) :
  NoDup (map ent_id (replaceAll now pairs))
  /\ forall r,
       In r (replaceAll now pairs)
       <-> synced_at r = now /\ lastNameOf (ent_id r) pairs = Some (ent_name r).
Proof.
  split; [apply replaceAll_one_timestamp|].
  intros r. unfold replaceAll. rewrite fold_insertOrReplace_in. simpl. tauto.
Qed.

Lemma lastNameOf_none (id : string) (pairs : list (string * string)) :
  lastNameOf id pairs = None <-> ~ In id (map fst pairs).
Proof.
  induction pairs as [|[i n] pairs IH]; simpl.
  - tauto.
  - destruct (lastNameOf id pairs) as [n'|].
    + split; [discriminate|]. intros H. exfalso. apply H. right.
      destruct (in_dec string_dec id (map fst pairs)) as [Hin|Hnin]; [exact Hin|].
      apply IH in Hnin. discriminate.
    + destruct (String.eqb_spec i id) as [->|Hne].
      * split; [discriminate|]. intros H. exfalso. apply H. left. reflexivity.
      * split; [|reflexivity]. intros _ [H|H]; [congruence|]. apply IH; auto.
Qed.

Lemma lastNameOf_in (id name : string) (pairs : list (string * string)) :
  lastNameOf id pairs = Some name -> In (id, name) pairs.
Proof.
  induction pairs as [|[i n] pairs IH]; simpl; [discriminate|].
  destruct (lastNameOf id pairs) as [n'|].
  - intros [= ->]. right. apply IH. reflexivity.
  - destruct (String.eqb_spec i id) as [->|Hne]; [|discriminate].
    intros [= ->]. left. reflexivity.
Qed.

(** With no id listed twice, the table is the listing, in order. *)
Lemma replaceAll_distinct (now : Z) (pairs : list (string * string)) :
  NoDup (map fst pairs) -> replaceAll now pairs = map (rowOf now) pairs.
Proof.
  unfold replaceAll.
  assert (Hgen : forall rows,
            NoDup (map ent_id rows ++ map fst pairs) ->
            fold_left (fun rows p => insertOrReplace (mkEntity (fst p) (snd p) now) rows)
                      pairs rows
            = rows ++ map (rowOf now) pairs).
  { induction pairs as [|p pairs IH]; intros rows Hnd; simpl.
    - rewrite app_nil_r. reflexivity.
    - rewrite IH.
      + unfold insertOrReplace. rewrite <- app_assoc. simpl. f_equal.
        apply NoDup_app in Hnd as (_ & Hdis & _).
        clear IH. induction rows as [|x rows IHr]; simpl; [reflexivity|].
        destruct (String.eqb_spec (ent_id x) (fst p)) as [He|_]; simpl.
        * exfalso. apply (Hdis (ent_id x)); [left|rewrite He; left].
        * f_equal. apply IHr. intros y Hy. apply Hdis. right. exact Hy.
      + unfold insertOrReplace. rewrite map_app. simpl.
        apply NoDup_app in Hnd as (Hrows & Hdis & Hps).
        apply NoDup_cons in Hps as (Hp & Hps).
        apply NoDup_app. split; [|split].
        * apply NoDup_app. split; [|split].
          -- revert Hrows. clear. induction rows as [|x rows IHr]; simpl; [auto|].
             intros Hnd. apply NoDup_cons in Hnd as (Hx & Hnd).
             destruct (negb _); simpl; [|auto].
             apply NoDup_cons. split; [|auto].
             intros Hin. apply Hx. clear -Hin.
             induction rows as [|y rows IHr]; simpl in *; [exact Hin|].
             destruct (negb _); simpl in Hin; [|right; auto].
             apply elem_of_cons in Hin as [->|Hin]; [left|right; auto].
          -- intros y Hy Hy'. apply list_elem_of_singleton in Hy'. subst y.
             clear -Hy. induction rows as [|x rows IHr]; simpl in Hy.
             ++ inversion Hy.
             ++ destruct (String.eqb_spec (ent_id x) (fst p)) as [He|Hne]; simpl in Hy;
                  [auto|].
                apply elem_of_cons in Hy as [Hy|Hy]; [congruence|auto].
          -- apply NoDup_singleton.
        * intros y Hy Hy'. apply elem_of_app in Hy as [Hy|Hy].
          -- apply (Hdis y); [|right; exact Hy'].
             clear -Hy. induction rows as [|x rows IHr]; simpl in *; [exact Hy|].
             destruct (negb _); simpl in Hy; [|right; auto].
             apply elem_of_cons in Hy as [->|Hy]; [left|right; auto].
          -- apply list_elem_of_singleton in Hy. subst y. apply Hp. exact Hy'.
        * exact Hps. }
  intros Hnd. apply (Hgen []). exact Hnd.
Qed.

(** *** The paged listing *)

Lemma listAll_chain (list_ : option string -> World -> ListResult)
    (pages : list (list Listed)) (cursor : option string) (w w' : World) :
  CursorChain list_ cursor w pages w' ->
  forall fuel pairs,
    (length pages <= fuel)%nat ->
    listAll list_ fuel cursor pairs w
    = PagesDone w' (pairs ++ concat (map validPairs pages)).
Proof.
  induction 1 as [cursor w w' elements next Hcall Hnext
                 |cursor w w1 w' elements next cursor' rest Hcall Hnext _ IH];
    intros fuel pairs Hfuel; simpl in Hfuel;
    (destruct fuel as [|fuel]; [lia|]); simpl; rewrite Hcall, Hnext.
  - rewrite app_nil_r. reflexivity.
  - rewrite IH by lia. rewrite app_assoc. reflexivity.
Qed.

Lemma listAll_done_chain (list_ : option string -> World -> ListResult)
    (fuel : nat) (cursor : option string) (pairs : list (string * string))
    (w w' : World) (all : list (string * string)) :
  listAll list_ fuel cursor pairs w = PagesDone w' all ->
  exists pages, CursorChain list_ cursor w pages w'
                /\ (length pages <= fuel)%nat
                /\ all = pairs ++ concat (map validPairs pages).
Proof.
  revert cursor pairs w. induction fuel as [|fuel IH]; intros cursor pairs w; simpl;
    [discriminate|].
  destruct (list_ cursor w) as [w1 elements next|w1 msg] eqn:Hcall; [|discriminate].
  destruct (truthy next) as [c|] eqn:Hnext.
  - intros H. apply IH in H as (pages & Hchain & Hlen & ->).
    exists (elements :: pages). split; [|split].
    + eapply ChainMore; eauto.
    + simpl. lia.
    + simpl. rewrite app_assoc. reflexivity.
  - intros [= <- <-]. exists [elements]. split; [|split].
    + eapply ChainLast; eauto.
    + simpl. lia.
    + simpl. rewrite app_nil_r. reflexivity.
Qed.

(** X5: the channel refresh reads every page of the cursor chain and
    stores them all in one transaction.  When the remote serves [pages]
    from the first call on (each call made with the cursor of the page
    before, an absent or empty cursor ending the chain), the refresh
    resolves, and the table it leaves holds the elements of all the pages
    that have an id and a name, stamped with the clock read before the
    first call; the other tables and the sync metadata are those the last
    call left.  The same holds for [fetchUsers]. *)
Theorem fetch_stores_every_page (client : WebClient) (pages : list (list Listed))
    (fuel : nat) (w w' : World) :
  (length pages <= fuel)%nat ->
  (CursorChain (conversations_list client) None w pages w' ->
   fetchChannels client fuel w
   = Some (FetchOk (storeChannels (clock w) (concat (map validPairs pages)) w')))
  /\ (CursorChain (users_list client) None w pages w' ->
      fetchUsers client fuel w
      = Some (FetchOk (storeUsers (clock w) (concat (map validPairs pages)) w'))).
Proof.
  intros Hfuel. split; intros Hchain.
  - unfold fetchChannels.
    rewrite (listAll_chain _ _ _ _ _ Hchain fuel [] Hfuel). reflexivity.
  - unfold fetchUsers.
    rewrite (listAll_chain _ _ _ _ _ Hchain fuel [] Hfuel). reflexivity.
Qed.

(** Two pages, the first with an element that has no name: both pages are
    read, 200 ms each, and the two named channels are stored. *)
Lemma fetch_stores_every_page_witness :
  fetchChannels (pagedClient twoPages) 2 coldStart
  = Some (FetchOk (storeChannels (clock coldStart)
                                 [("C1", "general"); ("C2", "random")]
                                 (tick 200 (tick 200 coldStart)))).
Proof.
  apply (fetch_stores_every_page (pagedClient twoPages) twoPages 2 coldStart
           (tick 200 (tick 200 coldStart))); [simpl; lia|].
  eapply ChainMore; [reflexivity|reflexivity|].
  eapply ChainLast; reflexivity.
Defined.

(** X6: what a resolved channel refresh leaves.  Every row of the table has
    a non-empty id and a non-empty name and carries the clock read before
    the first listing call; no two rows share an id; and where the listing
    calls write nothing to the store, the users, the groups and the sync
    metadata are as they were: the refresh itself never writes
    [sync_meta]. *)
Theorem fetched_rows_are_valid (client : WebClient) (fuel : nat) (w w2 : World) :
  fetchChannels client fuel w = Some (FetchOk w2) ->
  Forall (fun r => synced_at r = clock w
                   /\ ent_id r <> EmptyString /\ ent_name r <> EmptyString)
         (channels (db w2))
  /\ NoDup (map ent_id (channels (db w2)))
  /\ (readsOnly (conversations_list client) ->
      users (db w2) = users (db w)
      /\ user_groups (db w2) = user_groups (db w)
      /\ sync_meta (db w2) = sync_meta (db w)).
Proof.
  unfold fetchChannels. intros H.
  destruct (listAll (conversations_list client) fuel None [] w)
    as [w1 all|w1 msg1|] eqn:Hall; try discriminate.
  injection H as <-. simpl. split; [|split].
  - apply listAll_done in Hall as (more & -> & Hvalid). simpl.
    apply Forall_forall. intros r Hr. apply list_elem_of_In in Hr.
    unfold replaceAll in Hr.
    apply fold_insertOrReplace_in in Hr as [(Ht & Hlast)|(_ & [])].
    apply lastNameOf_in in Hlast.
    rewrite Forall_forall in Hvalid. apply list_elem_of_In in Hlast.
    specialize (Hvalid _ Hlast). simpl in Hvalid. tauto.
  - apply replaceAll_one_timestamp.
  - intros Hro. pose proof (listAll_frame _ Hro fuel None [] w) as Hf.
    rewrite Hall in Hf. rewrite Hf. auto.
Qed.

Lemma fetched_rows_are_valid_witness :
  let w2 := storeChannels (clock coldStart) [("C1", "general"); ("C2", "random")]
                          (tick 200 (tick 200 coldStart)) in
  Forall (fun r => synced_at r = clock coldStart
                   /\ ent_id r <> EmptyString /\ ent_name r <> EmptyString)
         (channels (db w2))
  /\ NoDup (map ent_id (channels (db w2)))
  /\ (readsOnly (conversations_list (pagedClient twoPages)) ->
      users (db w2) = users (db coldStart)
      /\ user_groups (db w2) = user_groups (db coldStart)
      /\ sync_meta (db w2) = sync_meta (db coldStart)).
Proof.
  intros w2.
  apply (fetched_rows_are_valid (pagedClient twoPages) 2 coldStart w2).
  vm_compute. reflexivity.
Defined.

(** *** From the refresh to the lookups *)

Lemma lookupChannel_stored (now : Z) (pairs : list (string * string)) (w1 : World)
    (name : string) :
  let w2 := storeChannels now pairs w1 in
  (forall id, lookupChannel name w2 = Some id ->
              lastNameOf id pairs = Some name /\ now > clock w1 - CACHE_TTL_MS)
  /\ (now > clock w1 - CACHE_TTL_MS ->
      forall id, lastNameOf id pairs = Some name ->
                 exists id', lookupChannel name w2 = Some id'
                             /\ lastNameOf id' pairs = Some name)
  /\ (now <= clock w1 - CACHE_TTL_MS -> lookupChannel name w2 = None).
Proof.
  intros w2. unfold lookupChannel. subst w2. simpl channels.
  assert (Hsound : forall id,
            selectId (byName name (storeChannels now pairs w1)) (replaceAll now pairs)
            = Some id ->
            lastNameOf id pairs = Some name /\ now > clock w1 - CACHE_TTL_MS).
  { intros id Hsel. apply selectId_some in Hsel as (x & Hin & Hwhere & <-).
    unfold replaceAll in Hin.
    apply fold_insertOrReplace_in in Hin as [(Ht & Hlast)|(_ & [])].
    apply byName_true in Hwhere as (<- & Hfresh). apply isFresh_iff in Hfresh.
    simpl in Hfresh. split; [exact Hlast|lia]. }
  split; [exact Hsound|]. split.
  - intros Hnow id Hlast.
    destruct (selectId_hit (byName name (storeChannels now pairs w1))
                           (replaceAll now pairs) (mkEntity id name now))
      as (x & _ & _ & Hsel).
    + unfold replaceAll. apply fold_insertOrReplace_in. left. simpl. auto.
    + apply byName_true. split; [reflexivity|]. apply isFresh_iff. simpl. lia.
    + exists (ent_id x). split; [exact Hsel|]. apply (Hsound _ Hsel).
  - intros Hstale.
    destruct (selectId _ (replaceAll now pairs)) as [id|] eqn:Hsel; [|reflexivity].
    destruct (Hsound id eq_refl) as (_ & Hfresh). lia.
Qed.

(** X7: from the remote listing to the lookup.  After a channel refresh
    that read [pages], a lookup by name answers only with an id that the
    listing last gave that name; where the listing took less than the TTL
    every name that an id carries at the end of the listing is found; and
    where it took the TTL or longer nothing is found, since the rows carry
    the time the refresh began, not the time it ended. *)
Theorem fetched_names_resolve (client : WebClient) (pages : list (list Listed))
    (fuel : nat) (w w1 w2 : World) (name : string) :
  CursorChain (conversations_list client) None w pages w1 ->
  (length pages <= fuel)%nat ->
  fetchChannels client fuel w = Some (FetchOk w2) ->
  let listed := concat (map validPairs pages) in
  (forall id, lookupChannel name w2 = Some id -> lastNameOf id listed = Some name)
  /\ (clock w1 - clock w < CACHE_TTL_MS ->
      forall id, lastNameOf id listed = Some name ->
                 exists id', lookupChannel name w2 = Some id'
                             /\ lastNameOf id' listed = Some name)
  /\ (CACHE_TTL_MS <= clock w1 - clock w -> lookupChannel name w2 = None).
Proof.
  intros Hchain Hfuel Hfetch listed.
  unfold fetchChannels in Hfetch.
  rewrite (listAll_chain _ _ _ _ _ Hchain fuel [] Hfuel) in Hfetch.
  injection Hfetch as <-. simpl app. fold listed.
  destruct (lookupChannel_stored (clock w) listed w1 name) as (Hsound & Hfound & Hstale).
  split; [|split].
  - intros id Hsel. apply (Hsound id Hsel).
  - intros Hshort. apply Hfound. lia.
  - intros Hlong. apply Hstale. lia.
Qed.

(** The two pages of the scenario, listed in 400 ms. *)
Lemma fetched_names_resolve_witness :
  let w1 := tick 200 (tick 200 coldStart) in
  let w2 := storeChannels (clock coldStart) [("C1", "general"); ("C2", "random")] w1 in
  let listed := concat (map validPairs twoPages) in
  (forall id, lookupChannel "random" w2 = Some id -> lastNameOf id listed = Some "random")
  /\ (clock w1 - clock coldStart < CACHE_TTL_MS ->
      forall id, lastNameOf id listed = Some "random" ->
                 exists id', lookupChannel "random" w2 = Some id'
                             /\ lastNameOf id' listed = Some "random")
  /\ (CACHE_TTL_MS <= clock w1 - clock coldStart -> lookupChannel "random" w2 = None).
Proof.
  intros w1 w2.
  apply (fetched_names_resolve (pagedClient twoPages) twoPages 2 coldStart w1 w2 "random").
  - eapply ChainMore; [reflexivity|reflexivity|]. eapply ChainLast; reflexivity.
  - simpl. lia.
  - vm_compute. reflexivity.
Defined.

(** X8: a cold start, end to end.  The name is not cached, the [channels]
    row is idle and older than the TTL, and the remote serves [pages]:
    [getChannelId] claims the row, lists every page, replaces the table,
    marks the row completed at the time the listing ended and answers with
    one more lookup, without sleeping.  In the store it leaves, a name the
    listing did not have is answered [null] from the cache alone: one
    refresh serves the misses of the next 24 hours. *)
Theorem getChannelId_cold_start (sleep : Z -> World -> World)
    (fetch : World -> FetchResult) (client : WebClient) (pfuel : nat)
    (name : string) (fuel : nat) (w : World) (meta : SyncMeta)
    (pages : list (list Listed)) (w1 : World) :
  lookupChannel name w = None ->
  getMeta "channels" w = Some meta ->
  Idle meta ->
  completed_at meta <= clock w - CACHE_TTL_MS ->
  CursorChain (conversations_list client) None (claimedWorld "channels" w) pages w1 ->
  (length pages <= pfuel)%nat ->
  readsOnly (conversations_list client) ->
  fetchChannels client pfuel (claimedWorld "channels" w)
  = Some (fetch (claimedWorld "channels" w)) ->
  let run := getChannelId sleep fetch name fuel w in
  trace run = [EvLookup; EvReadMeta; EvSyncIfNeeded "channels"; EvLookup; EvReadMeta;
               EvClaim (clock w) true; EvFetch; EvMarkCompleted (clock w1); EvLookup]
  /\ outcome run = Returned (lookupChannel name (final run))
  /\ channels (db (final run)) = replaceAll (clock w) (concat (map validPairs pages))
  /\ getMeta "channels" (final run) = Some (mkMeta (clock w) (clock w1))
  /\ clock (final run) = clock w1
  /\ forall name' fuel',
       lookupChannel name' (final run) = None ->
       getChannelId sleep fetch name' fuel' (final run)
       = answered None (final run) [EvLookup; EvReadMeta].
Proof.
  intros Hmiss Hm Hidle Hold Hchain Hlen Hro Hfetch run.
  assert (Hclaimable : claimable meta (clock w) = true).
  { apply claimable_iff. left. exact Hidle. }
  assert (Hch : claimChanges "channels" w = 1%nat).
  { exact (claimChanges_won "channels" w meta Hm Hclaimable). }
  assert (Hclaimed : sync_meta (db (claimedWorld "channels" w))
                     = <["channels" := mkMeta (clock w) (completed_at meta)]>
                         (sync_meta (db w))).
  { unfold claimedWorld. unfold getMeta in Hm.
    rewrite (casClaim_won "channels" (clock w) _ meta Hm Hclaimable). reflexivity. }
  assert (Hframe : db w1 = db (claimedWorld "channels" w)).
  { pose proof (listAll_frame _ Hro pfuel None [] (claimedWorld "channels" w)) as Hf.
    rewrite (listAll_chain _ _ _ _ _ Hchain pfuel [] Hlen) in Hf. exact Hf. }
  assert (Hok : fetch (claimedWorld "channels" w)
                = FetchOk (storeChannels (clock w) (concat (map validPairs pages)) w1)).
  { unfold fetchChannels in Hfetch.
    rewrite (listAll_chain _ _ _ _ _ Hchain pfuel [] Hlen) in Hfetch.
    injection Hfetch as <-. reflexivity. }
  assert (Hrun : run
                 = let w2 := storeChannels (clock w) (concat (map validPairs pages)) w1 in
                   let w3 := setMeta (markCompleted "channels" (clock w2)
                                                    (sync_meta (db w2))) w2 in
                   mkRun (Returned (lookupChannel name w3)) w3
                         [EvLookup; EvReadMeta; EvSyncIfNeeded "channels"; EvLookup;
                          EvReadMeta; EvClaim (clock w) true; EvFetch;
                          EvMarkCompleted (clock w2); EvLookup]).
  { subst run. unfold getChannelId. rewrite Hmiss.
    assert (Hsynced : isTableSynced "channels" w = false).
    { unfold isTableSynced. rewrite Hm. apply gtb_false. exact Hold. }
    rewrite Hsynced. simpl negb. cbv iota.
    unfold syncIfNeeded.
    rewrite (checkAndWait_no_wait "channels" (lookupChannel name) sleep fuel w Hmiss).
    - rewrite (claimAndSync_synced "channels" (lookupChannel name) fetch sleep fuel w _
                                   Hch Hok).
      reflexivity.
    - intros meta' Hm'. rewrite Hm in Hm'. injection Hm' as <-. left. exact Hidle. }
  assert (Hmeta : markCompleted "channels" (clock w1) (sync_meta (db w1))
                  !! "channels"
                  = Some (mkMeta (clock w) (clock w1))).
  { unfold markCompleted. rewrite Hframe, Hclaimed, lookup_insert_eq.
    simpl. apply lookup_insert_eq. }
  rewrite Hrun. simpl. split; [reflexivity|]. split; [reflexivity|].
  split; [reflexivity|]. split; [exact Hmeta|]. split; [reflexivity|].
  intros name' fuel' Hmiss'. unfold getChannelId. rewrite Hmiss'.
  unfold isTableSynced, getMeta. simpl. rewrite Hmeta. simpl.
  assert (Hfresh : (clock w1 >? clock w1 - CACHE_TTL_MS) = true).
  { apply gtb_true. unfold CACHE_TTL_MS. lia. }
  rewrite Hfresh. reflexivity.
Qed.

(** The cold start of the scenarios against a remote with two pages: 400 ms
    of listing, then "random" resolves. *)
Lemma getChannelId_cold_start_witness :
  let run := getChannelId tick listTwoPages "random" 1 coldStart in
  outcome run = Returned (Some "C2")
  /\ countFetch (trace run) = 1%nat
  /\ getMeta "channels" (final run)
     = Some (mkMeta (clock coldStart) (clock coldStart + 400))
  /\ getChannelId tick listTwoPages "nowhere" 1 (final run)
     = answered None (final run) [EvLookup; EvReadMeta].
Proof.
  intros run.
  destruct (getChannelId_cold_start tick listTwoPages (pagedClient twoPages) 2
              "random" 1 coldStart (mkMeta 0 0) twoPages
              (tick 200 (tick 200 (claimedWorld "channels" coldStart))))
    as (Htrace & Hout & _ & Hmeta & _ & Hnext).
  - reflexivity.
  - reflexivity.
  - unfold Idle. simpl. lia.
  - vm_compute. discriminate.
  - eapply ChainMore; [reflexivity|reflexivity|]. eapply ChainLast; reflexivity.
  - simpl. lia.
  - apply servePages_reads_only.
  - reflexivity.
  - fold run in Htrace, Hout, Hmeta, Hnext.
    split; [rewrite Hout; vm_compute; reflexivity|].
    split; [rewrite Htrace; reflexivity|].
    split; [rewrite Hmeta; vm_compute; reflexivity|].
    apply Hnext. vm_compute. reflexivity.
Defined.

(** X9: the channel cache that also looks up by id has no
    [isTableSynced] gate: when both lookups miss and the row is idle, the
    call claims and invokes the refresh, however recently the table was
    synced.  Every resolve of a name that no channel has costs a full
    listing. *)
Theorem by_id_cache_refetches_on_miss (sleep : Z -> World -> World)
    (fetch : World -> FetchResult) (input : string) (fuel : nat) (w : World)
    (meta : SyncMeta) :
  ChannelsById.lookupChannelByName input w = None ->
  ChannelsById.lookupChannelById input w = None ->
  getMeta "channels" w = Some meta ->
  Idle meta ->
  exists rest,
    trace (ChannelsById.getChannelId sleep fetch input fuel w)
    = [EvLookup; EvLookup; EvSyncIfNeeded "channels"; EvLookup; EvReadMeta;
       EvClaim (clock w) true; EvFetch] ++ rest.
Proof.
  intros Hname Hid Hm Hidle. unfold ChannelsById.getChannelId. rewrite Hname, Hid.
  destruct (syncIfNeeded_idle_claims "channels" (ChannelsById.combinedLookup input)
              fetch sleep fuel w meta) as (rest & Hrest); auto.
  - unfold ChannelsById.combinedLookup. rewrite Hname. exact Hid.
  - exists rest. unfold after. cbn [trace]. rewrite Hrest. reflexivity.
Qed.

(** The warm store was synced a minute ago; a name it does not have is
    listed for again. *)
Lemma by_id_cache_refetches_on_miss_witness :
  isTableSynced "channels" warmStore = true
  /\ exists rest,
       trace (ChannelsById.getChannelId tick fetchTwoChannels "nowhere" 1 warmStore)
       = [EvLookup; EvLookup; EvSyncIfNeeded "channels"; EvLookup; EvReadMeta;
          EvClaim (clock warmStore) true; EvFetch] ++ rest.
Proof.
  split; [vm_compute; reflexivity|].
  apply (by_id_cache_refetches_on_miss tick fetchTwoChannels "nowhere" 1 warmStore
           (mkMeta 1700000000000 (1700000000000 + 120))).
  - vm_compute. reflexivity.
  - vm_compute. reflexivity.
  - vm_compute. reflexivity.
  - unfold Idle. simpl. lia.
Defined.

(** ** Mentions *)

Lemma addName_in (x name : string) (names : list string) :
  In x (addName name names) <-> x = name \/ In x names.
Proof.
  induction names as [|n names IH]; simpl.
  - intuition.
  - destruct (String.eqb_spec n name) as [->|Hne]; simpl.
    + intuition.
    + rewrite IH. intuition.
Qed.

Lemma addName_NoDup (name : string) (names : list string) :
  NoDup names -> NoDup (addName name names).
Proof.
  induction names as [|n names IH]; simpl; intros Hnd.
  - apply NoDup_singleton.
  - destruct (String.eqb_spec n name) as [->|Hne]; [exact Hnd|].
    apply NoDup_cons in Hnd as (Hn & Hnd). apply NoDup_cons. split; [|auto].
    rewrite list_elem_of_In, addName_in. rewrite list_elem_of_In in Hn.
    intros [->|H]; auto.
Qed.

Local Abbreviation collect :=
  (fun names p => match p with
                  | Mention name => addName name names
                  | Plain _ => names
                  end).

Lemma collect_in (x : string) (ps : list Piece) (names : list string) :
  In x (fold_left collect ps names) <-> In x names \/ In (Mention x) ps.
Proof.
  revert names. induction ps as [|p ps IH]; intros names; simpl.
  - tauto.
  - rewrite IH. destruct p as [c|name].
    + split; [intros [H|H]; auto|intros [H|[H|H]]; auto; discriminate].
    + rewrite addName_in. split.
      * intros [[->|H]|H]; auto.
      * intros [H|[[= ->]|H]]; auto.
Qed.

Lemma collect_NoDup (ps : list Piece) (names : list string) :
  NoDup names -> NoDup (fold_left collect ps names).
Proof.
  revert names. induction ps as [|p ps IH]; intros names Hnd; simpl; [exact Hnd|].
  apply IH. destruct p; [exact Hnd|apply addName_NoDup, Hnd].
Qed.

Lemma mentionNames_in (message name : string) :
  In name (mentionNames message) <-> In (Mention name) (pieces false 0 message).
Proof. unfold mentionNames. rewrite collect_in. simpl. tauto. Qed.

Lemma pieces_no_at (s : string) (prevWord : bool) (skip : nat) (name : string) :
  includesAt s = false -> ~ In (Mention name) (pieces prevWord skip s).
Proof.
  revert prevWord skip. induction s as [|c rest IH]; intros prevWord skip; simpl.
  - tauto.
  - intros H. apply orb_false_iff in H as (Hc & Hrest). rewrite Hc. simpl.
    destruct skip; [|apply IH, Hrest].
    intros [H|H]; [discriminate|]. exact (IH _ _ Hrest H).
Qed.

Section MentionFacts.

Variable resolveUserGroup resolveUser : string -> option string.

Local Abbreviation entriesOf names :=
  (omap (fun e : string * (option string * list Call) =>
           match fst (snd e) with
           | Some replacement => Some (fst e, replacement)
           | None => None
           end)
        (map (fun name => (name, resolveEntry resolveUserGroup resolveUser name)) names)).

Lemma replacementFor_sound (names : list string) (name r : string) :
  replacementFor (entriesOf names) name = Some r ->
  fst (resolveEntry resolveUserGroup resolveUser name) = Some r.
Proof.
  unfold replacementFor. induction names as [|n names IH]; simpl; [discriminate|].
  destruct (fst (resolveEntry resolveUserGroup resolveUser n)) as [rn|] eqn:Hn; simpl;
    [|exact IH].
  destruct (String.eqb_spec n name) as [->|Hne]; simpl; [|exact IH].
  intros [= <-]. exact Hn.
Qed.

Lemma replacementFor_complete (names : list string) (name r : string) :
  In name names ->
  fst (resolveEntry resolveUserGroup resolveUser name) = Some r ->
  replacementFor (entriesOf names) name = Some r.
Proof.
  unfold replacementFor. intros Hin Hr.
  induction names as [|n names IH]; simpl; [destruct Hin|].
  destruct (String.eqb_spec n name) as [->|Hne].
  - rewrite Hr. simpl. rewrite String.eqb_refl. reflexivity.
  - destruct Hin as [Hin|Hin]; [congruence|].
    destruct (fst (resolveEntry resolveUserGroup resolveUser n)) as [rn|]; simpl;
      [|exact (IH Hin)].
    destruct (String.eqb_spec n name) as [He|_]; [congruence|]. exact (IH Hin).
Qed.

Lemma replacementFor_entries (names : list string) (name : string) :
  In name names ->
  replacementFor (entriesOf names) name
  = fst (resolveEntry resolveUserGroup resolveUser name).
Proof.
  intros Hin.
  destruct (fst (resolveEntry resolveUserGroup resolveUser name)) as [r|] eqn:Hr.
  - apply replacementFor_complete; assumption.
  - destruct (replacementFor (entriesOf names) name) as [r|] eqn:Hrep; [|reflexivity].
    apply replacementFor_sound in Hrep. congruence.
Qed.

Lemma render_agree (replacements : list (string * string)) (ps : list Piece) :
  (forall name, In (Mention name) ps ->
                replacementFor replacements name
                = fst (resolveEntry resolveUserGroup resolveUser name)) ->
  fold_right (fun p out =>
                match p with
                | Plain c => String c out
                | Mention name =>
                    match replacementFor replacements name with
                    | Some r => r +:+ out
                    | None => "@" +:+ name +:+ out
                    end
                end)
             EmptyString ps
  = renderPieces resolveUserGroup resolveUser ps.
Proof.
  induction ps as [|p ps IH]; intros Hrep; simpl; [reflexivity|].
  rewrite IH by (intros name Hin; apply Hrep; right; exact Hin).
  destruct p as [c|name]; [reflexivity|].
  rewrite (Hrep name) by (left; reflexivity).
  unfold resolveEntry, renderMention.
  destruct (truthy (resolveUserGroup name)); [reflexivity|].
  destruct (truthy (resolveUser name)); reflexivity.
Qed.

(** X10: [convertMentions] against its description.  The set of names, the
    map of replacements and the three early returns (no [@], no match, no
    replacement) come to this: the message is cut by the regex, and each
    match is rendered on its own, as [<!subteam^ID>] where the group
    resolver gives a non-empty id, else as [<@ID>] where the user resolver
    does, else as it stands; the text between the matches is kept. *)
Theorem convertMentions_renders_each_mention (message : string) :
  convertMentions resolveUserGroup resolveUser message
  = renderPieces resolveUserGroup resolveUser (pieces false 0 message).
Proof.
  assert (Hplain : (forall name, ~ In (Mention name) (pieces false 0 message)) ->
                   message
                   = renderPieces resolveUserGroup resolveUser (pieces false 0 message)).
  { intros Hno. rewrite <- (render_agree []).
    - symmetry. apply (replaceMentions_pieces message false 0).
    - intros name Hin. destruct (Hno name Hin). }
  unfold convertMentions, convertMentionsRun.
  destruct (includesAt message) eqn:Hat; simpl negb; cbv iota.
  - destruct (mentionNames message) as [|n names] eqn:Hnames.
    + simpl. apply Hplain. intros name Hin.
      apply mentionNames_in in Hin. rewrite Hnames in Hin. destruct Hin.
    + rewrite <- Hnames.
      assert (Hall : replaceMentions (entriesOf (mentionNames message)) message
                     = renderPieces resolveUserGroup resolveUser
                                    (pieces false 0 message)).
      { unfold replaceMentions. apply render_agree. intros name Hin.
        apply replacementFor_entries, mentionNames_in, Hin. }
      destruct (entriesOf (mentionNames message)) as [|e es] eqn:Hentries; simpl.
      * rewrite <- Hall. unfold replaceMentions.
        symmetry. apply (replaceMentions_pieces message false 0).
      * exact Hall.
  - simpl. apply Hplain. intros name. apply pieces_no_at, Hat.
Qed.

Lemma convertMentionsRun_calls (message : string) :
  snd (convertMentionsRun resolveUserGroup resolveUser message)
  = concat (map (fun name => snd (resolveEntry resolveUserGroup resolveUser name))
                (mentionNames message)).
Proof.
  unfold convertMentionsRun.
  destruct (includesAt message) eqn:Hat; simpl negb; cbv iota.
  - destruct (mentionNames message) as [|n names]; [reflexivity|].
    cbv zeta.
    match goal with
    | |- snd (match ?r with [] => _ | _ :: _ => _ end) = _ => destruct r
    end; cbn [snd]; rewrite map_map; reflexivity.
  - destruct (mentionNames message) as [|n names] eqn:Hnames; [reflexivity|].
    exfalso. apply (pieces_no_at message false 0 n Hat).
    apply mentionNames_in. rewrite Hnames. left. reflexivity.
Qed.

Lemma countGroupCalls_app (name : string) (a b : list Call) :
  countGroupCalls name (a ++ b)
  = (countGroupCalls name a + countGroupCalls name b)%nat.
Proof. unfold countGroupCalls. rewrite List.filter_app, List.length_app. reflexivity. Qed.

Lemma countUserCalls_app (name : string) (a b : list Call) :
  countUserCalls name (a ++ b)
  = (countUserCalls name a + countUserCalls name b)%nat.
Proof. unfold countUserCalls. rewrite List.filter_app, List.length_app. reflexivity. Qed.

Lemma resolveEntry_counts (n name : string) :
  let calls := snd (resolveEntry resolveUserGroup resolveUser n) in
  countGroupCalls name calls = (if String.eqb n name then 1 else 0)%nat
  /\ countUserCalls name calls
     = (if String.eqb n name
        then match truthy (resolveUserGroup n) with
             | Some _ => 0
             | None => 1
             end
        else 0)%nat.
Proof.
  unfold resolveEntry, countGroupCalls, countUserCalls.
  destruct (truthy (resolveUserGroup n)); [|destruct (truthy (resolveUser n))];
    simpl; destruct (String.eqb n name); split; reflexivity.
Qed.

Lemma calls_counts (names : list string) (name : string) :
  NoDup names ->
  let calls := concat (map (fun n => snd (resolveEntry resolveUserGroup resolveUser n))
                           names) in
  (In name names ->
   countGroupCalls name calls = 1%nat
   /\ countUserCalls name calls
      = match truthy (resolveUserGroup name) with
        | Some _ => 0%nat
        | None => 1%nat
        end)
  /\ (~ In name names ->
      countGroupCalls name calls = 0%nat /\ countUserCalls name calls = 0%nat).
Proof.
  induction names as [|n names IH]; intros Hnd; simpl.
  - split; [intros []|]. intros _. split; reflexivity.
  - apply NoDup_cons in Hnd as (Hn & Hnd). rewrite list_elem_of_In in Hn.
    destruct (IH Hnd) as (IHin & IHout). clear IH.
    rewrite countGroupCalls_app, countUserCalls_app.
    destruct (resolveEntry_counts n name) as (Hg & Hu). simpl in Hg, Hu.
    rewrite Hg, Hu.
    destruct (String.eqb_spec n name) as [->|Hne].
    + split.
      * intros _. destruct (IHout Hn) as (-> & ->).
        split; [reflexivity|]. destruct (truthy (resolveUserGroup name)); reflexivity.
      * intros H. exfalso. apply H. left. reflexivity.
    + split.
      * intros [H|H]; [congruence|]. exact (IHin H).
      * intros H. apply IHout. intros Hin. apply H. right. exact Hin.
Qed.

(** X11: however often a name is mentioned, the group resolver is asked
    for it once, and the user resolver once if the group resolver gave no
    id (or an empty one) and not at all otherwise; a name the message does
    not mention is never asked for. *)
Theorem convertMentions_asks_once (message name : string) :
  let calls := snd (convertMentionsRun resolveUserGroup resolveUser message) in
  (In (Mention name) (pieces false 0 message) ->
   countGroupCalls name calls = 1%nat
   /\ countUserCalls name calls
      = match truthy (resolveUserGroup name) with
        | Some _ => 0%nat
        | None => 1%nat
        end)
  /\ (~ In (Mention name) (pieces false 0 message) ->
      countGroupCalls name calls = 0%nat /\ countUserCalls name calls = 0%nat).
Proof.
  intros calls. subst calls. rewrite convertMentionsRun_calls.
  assert (Hnd : NoDup (mentionNames message)).
  { unfold mentionNames. apply collect_NoDup, NoDup_nil_2. }
  destruct (calls_counts (mentionNames message) name Hnd) as (Hin & Hout).
  split; intros H.
  - apply Hin, mentionNames_in, H.
  - apply Hout. intros Hn. apply H, mentionNames_in, Hn.
Qed.

End MentionFacts.

Lemma nameEnd_shape (s : string) (n : nat) (best : option nat) (k : nat) :
  nameEnd s n best = Some k ->
  best = Some k
  \/ ((n < k)%nat /\ (2 <= k)%nat
      /\ String.length (substring 0 (k - n) s) = (k - n)%nat
      /\ allNameChars (substring 0 (k - n) s) = true
      /\ endsInWordChar (substring 0 (k - n) s) = true).
Proof.
  revert n best. induction s as [|c rest IH]; intros n best; simpl nameEnd.
  - auto.
  - destruct (isNameChar c) eqn:Hname; [|auto].
    intros H. apply IH in H as [H|(Hlt & Hk & Hlen & Hall & Hend)].
    + match type of H with
      | (if ?cond then _ else _) = _ => destruct cond eqn:Hcond
      end; [|auto].
      injection H as <-. right.
      apply andb_true_iff in Hcond as (Hword & Hk).
      assert (Hn : (1 <= n)%nat) by (destruct n; [discriminate|lia]).
      assert (H0 : substring 0 0 rest = EmptyString) by (destruct rest; reflexivity).
      replace (S n - n)%nat with 1%nat by lia. simpl.
      rewrite Hname, Hword, H0. repeat split; try reflexivity; lia.
    + right. replace (k - n)%nat with (S (k - S n)) by lia.
      cbn [substring]. cbn [String.length allNameChars endsInWordChar].
      rewrite Hname, Hall, Hlen.
      destruct (substring 0 (k - S n) rest) as [|c' t'] eqn:Ht.
      * simpl in Hlen. lia.
      * repeat split; auto; lia.
Qed.

Lemma pieces_names_shape (s : string) (prevWord : bool) (skip : nat) (name : string) :
  In (Mention name) (pieces prevWord skip s) ->
  (2 <= String.length name)%nat
  /\ allNameChars name = true
  /\ endsInWordChar name = true.
Proof.
  revert prevWord skip.
  induction s as [|c rest IH]; intros prevWord skip; simpl; [tauto|].
  destruct skip as [|skip]; [|apply IH].
  destruct (Ascii.eqb c "@" && negb prevWord).
  - destruct (matchName rest) as [k|] eqn:Hk.
    + intros [[= <-]|H]; [|exact (IH _ _ H)].
      apply nameEnd_shape in Hk as [Hk|(_ & Hk & Hlen & Hall & Hend)]; [discriminate|].
      rewrite Nat.sub_0_r in Hlen, Hall, Hend. rewrite Hlen. auto.
    + intros [H|H]; [discriminate|exact (IH _ _ H)].
  - intros [H|H]; [discriminate|exact (IH _ _ H)].
Qed.

(** X12: what can be mentioned.  Every name the regex extracts has at least
    two characters, consists of word characters, dots and hyphens, and ends
    in a word character: a one-letter handle is never looked up, and a dot
    or hyphen that ends a sentence is not part of the name. *)
Theorem mention_names_are_well_formed (message name : string) :
  In name (mentionNames message) ->
  (2 <= String.length name)%nat
  /\ allNameChars name = true
  /\ endsInWordChar name = true.
Proof.
  intros Hin. apply mentionNames_in in Hin.
  exact (pieces_names_shape message false 0 name Hin).
Qed.

(** A sentence that ends in a name: the dot stays outside. *)
Lemma mention_names_are_well_formed_witness :
  mentionNames "ask @bob.smith. or @al-" = ["bob.smith"; "al"]
  /\ (2 <= String.length "bob.smith")%nat
  /\ allNameChars "bob.smith" = true
  /\ endsInWordChar "bob.smith" = true.
Proof.
  split; [vm_compute; reflexivity|].
  apply (mention_names_are_well_formed "ask @bob.smith. or @al-" "bob.smith").
  vm_compute. auto.
Defined.

Lemma pieces_after_word (s : string) (prevWord : bool) (skip : nat) (name : string) :
  everyAtAfterWord prevWord s = true -> ~ In (Mention name) (pieces prevWord skip s).
Proof.
  revert prevWord skip. induction s as [|c rest IH]; intros prevWord skip; simpl.
  - tauto.
  - intros H. apply andb_true_iff in H as (Hc & Hrest).
    destruct skip; [|apply IH, Hrest].
    destruct (Ascii.eqb c "@"); simpl.
    + rewrite Hc. simpl. intros [H|H]; [discriminate|exact (IH _ _ Hrest H)].
    + intros [H|H]; [discriminate|exact (IH _ _ Hrest H)].
Qed.

(** X13: e-mail addresses are safe.  In a message where every [@] comes
    directly after a word character nothing is a mention: the message is
    returned as it is and no resolver is called, whatever the resolvers
    know. *)
Theorem convertMentions_skips_addresses
    (resolveUserGroup resolveUser : string -> option string) (message : string) :
  everyAtAfterWord false message = true ->
  convertMentionsRun resolveUserGroup resolveUser message = (message, []).
Proof.
  intros Hsafe. unfold convertMentionsRun.
  destruct (negb (includesAt message)); [reflexivity|].
  destruct (mentionNames message) as [|n names] eqn:Hnames; [reflexivity|].
  exfalso. apply (pieces_after_word message false 0 n Hsafe).
  apply mentionNames_in. rewrite Hnames. left. reflexivity.
Qed.

Lemma convertMentions_skips_addresses_witness :
  convertMentionsRun (fun _ => Some "S1") (fun _ => Some "U1")
                     "write to alice@example.com"
  = ("write to alice@example.com", []).
Proof.
  apply (convertMentions_skips_addresses (fun _ => Some "S1") (fun _ => Some "U1")
           "write to alice@example.com").
  vm_compute. reflexivity.
Defined.

(** ** The Slack client *)

(** X14: the client is built once.  The first call that finds both tokens
    set and non-empty builds the client; every later call returns that
    client without reading the environment, whatever it holds by then.  A
    call that finds a token missing or empty throws [CONFIG_MISSING],
    naming the token ([XOXC] before [XOXD]), and keeps no client, so the
    next call reads the environment again. *)
Theorem getSlackClient_builds_once (env : Env) :
  match getSlackClient None env with
  | (inr c, kept) =>
      SLACK_MCP_XOXC_TOKEN env = Some (client_token c)
      /\ client_token c <> EmptyString
      /\ (exists xoxd, SLACK_MCP_XOXD_TOKEN env = Some xoxd
                       /\ xoxd <> EmptyString
                       /\ client_cookie c = "d=" +:+ xoxd)
      /\ kept = Some c
      /\ forall env', getSlackClient kept env' = (inr c, kept)
  | (inl e, kept) =>
      code e = CONFIG_MISSING
      /\ kept = None
      /\ (truthy (SLACK_MCP_XOXC_TOKEN env) = None
          /\ message e = "SLACK_MCP_XOXC_TOKEN environment variable is required"
          \/ truthy (SLACK_MCP_XOXC_TOKEN env) <> None
             /\ truthy (SLACK_MCP_XOXD_TOKEN env) = None
             /\ message e = "SLACK_MCP_XOXD_TOKEN environment variable is required")
  end.
Proof.
  unfold getSlackClient.
  destruct (truthy (SLACK_MCP_XOXC_TOKEN env)) as [token|] eqn:Hc.
  - destruct (truthy (SLACK_MCP_XOXD_TOKEN env)) as [xoxd|] eqn:Hd.
    + apply truthy_some in Hc as (Hc & Hc'). apply truthy_some in Hd as (Hd & Hd').
      simpl. repeat split; eauto.
    + simpl. repeat split. right. repeat split. discriminate.
  - simpl. repeat split. left. split; reflexivity.
Qed.

(** ** Sending *)

Lemma digitsDotSix_split (s : string) :
  digitsDotSix s = true ->
  exists secs micros,
    s = secs +:+ "." +:+ micros
    /\ allDigits secs = true /\ allDigits micros = true
    /\ String.length micros = 6%nat.
Proof.
  induction s as [|c rest IH]; simpl; [discriminate|].
  destruct (isDigit c) eqn:Hc.
  - intros H. apply IH in H as (secs & micros & -> & Hs & Hm & Hlen).
    exists (String c secs), micros. simpl. rewrite Hc, Hs. auto.
  - intros H. apply andb_true_iff in H as (H & Hm).
    apply andb_true_iff in H as (Hdot & Hlen).
    apply Ascii.eqb_eq in Hdot. apply Nat.eqb_eq in Hlen. subst c.
    exists EmptyString, rest. auto.
Qed.

Lemma digitsDotSix_join (secs micros : string) :
  allDigits secs = true -> allDigits micros = true -> String.length micros = 6%nat ->
  digitsDotSix (secs +:+ "." +:+ micros) = true.
Proof.
  intros Hs Hm Hlen. induction secs as [|c secs IH]; simpl.
  - change (dotSixDigits (String "." micros) = true).
    unfold dotSixDigits. rewrite Hm, Hlen. reflexivity.
  - simpl in Hs. apply andb_true_iff in Hs as (Hc & Hs). rewrite Hc. auto.
Qed.

(** X15: the thread timestamps that pass validation are exactly the
    texts made of one or more digits, a dot and six digits, with nothing
    before or after. *)
Theorem THREAD_TS_RE_accepts (ts : string) :
  THREAD_TS_RE ts = true
  <-> exists secs micros,
        ts = secs +:+ "." +:+ micros
        /\ secs <> EmptyString
        /\ allDigits secs = true
        /\ allDigits micros = true
        /\ String.length micros = 6%nat.
Proof.
  split.
  - destruct ts as [|c rest]; simpl; [discriminate|].
    intros H. apply andb_true_iff in H as (Hc & H).
    apply digitsDotSix_split in H as (secs & micros & -> & Hs & Hm & Hlen).
    exists (String c secs), micros. simpl. rewrite Hc, Hs.
    repeat split; auto; discriminate.
  - intros (secs & micros & -> & Hne & Hs & Hm & Hlen).
    destruct secs as [|c secs]; [congruence|]. simpl in *.
    apply andb_true_iff in Hs as (Hc & Hs). rewrite Hc. simpl.
    apply digitsDotSix_join; assumption.
Qed.

Section SendFacts.

Variable convertMentions_ : string -> SlackClient -> JsError + string.
Variable getChannelId_ : string -> SlackClient -> JsError + option string.
Variable postMessage : SlackClient -> PostArgs.t -> string + option string.

Local Abbreviation send := (sendMessage convertMentions_ getChannelId_ postMessage).
Local Abbreviation Prepared := (PreparedSend convertMentions_ getChannelId_).

(** A prepared send, written out: one plain post for a long message, else
    the Block Kit post and, if it rejects, the plain one. *)
Lemma sendMessage_prepared (_client : option SlackClient) (env : Env)
    (params : SendMessageParams.t) (client : SlackClient)
    (convertedMessage channelId : string) :
  Prepared _client env params client convertedMessage channelId ->
  send _client env params
  = let channelName := SendMessageParams.channel_name params in
    let result := makeResult params channelId convertedMessage in
    let plain := plainArgs params channelId convertedMessage in
    let block := blockArgs params channelId convertedMessage in
    if (BLOCK_KIT_TEXT_LIMIT <? jsLength convertedMessage)%nat then
      match postMessage client plain with
      | inr ts => (Sent (result ts true), prepSteps params ++ [StepPost plain])
      | inl error => (Failed (SlackError (mapSlackError error channelName)),
                      prepSteps params ++ [StepPost plain])
      end
    else
      match postMessage client block with
      | inr ts => (Sent (result ts false), prepSteps params ++ [StepPost block])
      | inl blockKitError =>
          match postMessage client plain with
          | inr ts => (Sent (result ts true),
                       prepSteps params ++ [StepPost block; StepPost plain])
          | inl _ => (Failed (SlackError (mapSlackError blockKitError channelName)),
                      prepSteps params ++ [StepPost block; StepPost plain])
          end
      end.
Proof.
  intros (Hclient & Hthread & Hconv & Hchannel & Hid).
  unfold sendMessage. rewrite Hclient.
  assert (Hvalid : match truthy (SendMessageParams.thread_ts params) with
                   | Some ts =>
                       if negb (THREAD_TS_RE ts)
                       then Some (mkError SEND_FAILED
                                    ("Invalid thread_ts format " +:+ dquote +:+ ts
                                     +:+ dquote +:+ ". Expected format: " +:+ dquote
                                     +:+ "1234567890.123456" +:+ dquote +:+ "."))
                       else None
                   | None => None
                   end = None).
  { destruct (truthy (SendMessageParams.thread_ts params)) as [ts|]; [|reflexivity].
    rewrite (Hthread ts eq_refl). reflexivity. }
  cbv zeta. rewrite Hvalid, Hconv, Hchannel.
  assert (Hfound : truthy (Some channelId) = Some channelId).
  { apply truthy_some. auto. }
  rewrite Hfound. unfold sendPlainText, plainArgs, blockArgs, prepSteps.
  destruct (BLOCK_KIT_TEXT_LIMIT <? jsLength convertedMessage)%nat.
  - destruct (postMessage client _); reflexivity.
  - destruct (postMessage client (withText _ convertedMessage _)); [|reflexivity].
    destruct (postMessage client _); reflexivity.
Qed.

(** A send that was not prepared fails and posts nothing. *)
Lemma sendMessage_stages (_client : option SlackClient) (env : Env)
    (params : SendMessageParams.t) :
  (exists e steps, send _client env params = (Failed e, steps)
                   /\ forall args, ~ In (StepPost args) steps)
  \/ exists client convertedMessage channelId,
       Prepared _client env params client convertedMessage channelId.
Proof.
  destruct (fst (getSlackClient _client env)) as [e|client] eqn:Hclient.
  { left. unfold sendMessage. rewrite Hclient. eexists _, _. split; [reflexivity|].
    intros args []. }
  destruct (truthy (SendMessageParams.thread_ts params)) as [ts|] eqn:Hts.
  - destruct (THREAD_TS_RE ts) eqn:Hre.
    + destruct (convertMentions_ (SendMessageParams.message params) client)
        as [e|convertedMessage] eqn:Hconv.
      { left. unfold sendMessage. rewrite Hclient, Hts, Hre. simpl. rewrite Hconv.
        eexists _, _. split; [reflexivity|]. intros args [H|[]]. discriminate. }
      destruct (getChannelId_ (SendMessageParams.channel_name params) client)
        as [e|found] eqn:Hchannel.
      { left. unfold sendMessage. rewrite Hclient, Hts, Hre. simpl.
        rewrite Hconv, Hchannel.
        eexists _, _. split; [reflexivity|]. intros args [H|[H|[]]]; discriminate. }
      destruct (truthy found) as [channelId|] eqn:Hfound.
      * right. apply truthy_some in Hfound as (-> & Hid).
        exists client, convertedMessage, channelId. unfold PreparedSend.
        repeat split; auto.
        intros ts' Hts'. rewrite Hts in Hts'. injection Hts' as <-. exact Hre.
      * left. unfold sendMessage. rewrite Hclient, Hts, Hre. simpl.
        rewrite Hconv, Hchannel, Hfound.
        eexists _, _. split; [reflexivity|]. intros args [H|[H|[]]]; discriminate.
    + left. unfold sendMessage. rewrite Hclient, Hts, Hre. simpl.
      eexists _, _. split; [reflexivity|]. intros args [].
  - destruct (convertMentions_ (SendMessageParams.message params) client)
      as [e|convertedMessage] eqn:Hconv.
    { left. unfold sendMessage. rewrite Hclient, Hts. simpl. rewrite Hconv.
      eexists _, _. split; [reflexivity|]. intros args [H|[]]. discriminate. }
    destruct (getChannelId_ (SendMessageParams.channel_name params) client)
      as [e|found] eqn:Hchannel.
    { left. unfold sendMessage. rewrite Hclient, Hts. simpl. rewrite Hconv, Hchannel.
      eexists _, _. split; [reflexivity|]. intros args [H|[H|[]]]; discriminate. }
    destruct (truthy found) as [channelId|] eqn:Hfound.
    + right. apply truthy_some in Hfound as (-> & Hid).
      exists client, convertedMessage, channelId. unfold PreparedSend.
      repeat split; auto. intros ts' Hts'. rewrite Hts in Hts'. discriminate.
    + left. unfold sendMessage. rewrite Hclient, Hts. simpl.
      rewrite Hconv, Hchannel, Hfound.
      eexists _, _. split; [reflexivity|]. intros args [H|[H|[]]]; discriminate.
Qed.

Lemma mapSlackError_code (msg channelName : string) :
  code (mapSlackError msg channelName)
  = if includes "channel_not_found" msg then CHANNEL_NOT_FOUND else SEND_FAILED.
Proof.
  unfold mapSlackError.
  destruct (includes "channel_not_found" msg); [reflexivity|].
  destruct (includes "not_in_channel" msg); [reflexivity|].
  destruct (includes "restricted_action" msg); [reflexivity|].
  destruct (includes "thread_not_found" msg); reflexivity.
Qed.

(** X16: what is posted.  Whatever [sendMessage] hands to
    [chat.postMessage], on the Block Kit attempt or on the plain-text one,
    goes to the channel id that [getChannelId] resolved, with both unfurl
    flags off and with the thread timestamp of the request, which passed
    validation if it is there; blocks go out only with a text of at most
    3000 UTF-16 code units (its [length]), and a post without blocks
    carries the robot prefix.
    Nothing is posted unless the client could be built, the mentions were
    converted and the channel was found. *)
Theorem sendMessage_posts_only_validated (_client : option SlackClient) (env : Env)
    (params : SendMessageParams.t) (args : PostArgs.t) :
  In (StepPost args) (snd (send _client env params)) ->
  exists client convertedMessage channelId,
    Prepared _client env params client convertedMessage channelId
    /\ PostArgs.channel args = channelId
    /\ PostArgs.unfurl_links args = false
    /\ PostArgs.unfurl_media args = false
    /\ PostArgs.thread_ts args = truthy (SendMessageParams.thread_ts params)
    /\ (PostArgs.blocks args = Some (blocksOf convertedMessage)
        /\ PostArgs.text args = convertedMessage
        /\ (jsLength convertedMessage <= BLOCK_KIT_TEXT_LIMIT)%nat
        \/ PostArgs.blocks args = None
           /\ PostArgs.text args = ":robot_face: " +:+ convertedMessage).
Proof.
  intros Hin.
  destruct (sendMessage_stages _client env params)
    as [(e & steps & Hrun & Hnone)|(client & convertedMessage & channelId & Hprep)].
  { rewrite Hrun in Hin. destruct (Hnone args Hin). }
  exists client, convertedMessage, channelId. split; [exact Hprep|].
  rewrite (sendMessage_prepared _ _ _ _ _ _ Hprep) in Hin. cbv zeta in Hin.
  assert (Hplain : args = plainArgs params channelId convertedMessage ->
                   PostArgs.channel args = channelId
                   /\ PostArgs.unfurl_links args = false
                   /\ PostArgs.unfurl_media args = false
                   /\ PostArgs.thread_ts args
                      = truthy (SendMessageParams.thread_ts params)
                   /\ (PostArgs.blocks args = Some (blocksOf convertedMessage)
                       /\ PostArgs.text args = convertedMessage
                       /\ (jsLength convertedMessage <= BLOCK_KIT_TEXT_LIMIT)%nat
                       \/ PostArgs.blocks args = None
                          /\ PostArgs.text args = ":robot_face: " +:+ convertedMessage)).
  { intros ->. simpl. repeat split. right. split; reflexivity. }
  destruct (BLOCK_KIT_TEXT_LIMIT <? jsLength convertedMessage)%nat eqn:Hlong.
  - apply Hplain.
    destruct (postMessage client (plainArgs params channelId convertedMessage));
      simpl in Hin; destruct Hin as [H|[H|[H|[]]]]; congruence.
  - apply Nat.ltb_ge in Hlong.
    assert (Hblock : args = blockArgs params channelId convertedMessage \/
                     args = plainArgs params channelId convertedMessage).
    { destruct (postMessage client (blockArgs params channelId convertedMessage)).
      - destruct (postMessage client (plainArgs params channelId convertedMessage));
          simpl in Hin; destruct Hin as [H|[H|[H|[H|[]]]]]; try discriminate;
          injection H as <-; auto.
      - simpl in Hin. destruct Hin as [H|[H|[H|[]]]]; try discriminate.
        injection H as <-. auto. }
    destruct Hblock as [->|Heq]; [|exact (Hplain Heq)].
    simpl. repeat split. left. repeat split. exact Hlong.
Qed.

(** X17: what a success reports.  When [sendMessage] resolves, the last
    thing it did was a post that Slack accepted; the result carries that
    post's [ts], the channel id posted to, the channel name and thread
    timestamp of the request and the converted message (without the robot
    prefix), and its message says "plain text fallback" exactly when the
    accepted post had no blocks. *)
Theorem sendMessage_reports_the_accepted_post (_client : option SlackClient) (env : Env)
    (params : SendMessageParams.t) (r : SendMessageResult.t) (steps : list SendStep) :
  send _client env params = (Sent r, steps) ->
  exists client convertedMessage channelId earlier args,
    Prepared _client env params client convertedMessage channelId
    /\ steps = earlier ++ [StepPost args]
    /\ postMessage client args = inr (SendMessageResult.message_ts r)
    /\ PostArgs.channel args = channelId
    /\ r = makeResult params channelId convertedMessage
                      (SendMessageResult.message_ts r)
                      match PostArgs.blocks args with
                      | Some _ => false
                      | None => true
                      end
    /\ forall other, In (StepPost other) earlier ->
                     exists error, postMessage client other = inl error.
Proof.
  intros Hrun.
  destruct (sendMessage_stages _client env params)
    as [(e & steps' & Hfail & _)|(client & convertedMessage & channelId & Hprep)].
  { rewrite Hfail in Hrun. discriminate. }
  exists client, convertedMessage, channelId.
  rewrite (sendMessage_prepared _ _ _ _ _ _ Hprep) in Hrun. cbv zeta in Hrun.
  assert (Hnone : forall other, In (StepPost other) (prepSteps params) ->
                                exists error, postMessage client other = inl error).
  { intros other [H|[H|[]]]; discriminate. }
  destruct (BLOCK_KIT_TEXT_LIMIT <? jsLength convertedMessage)%nat.
  - destruct (postMessage client (plainArgs params channelId convertedMessage))
      as [error|ts] eqn:Hpost; [discriminate|].
    injection Hrun as <- <-.
    exists (prepSteps params), (plainArgs params channelId convertedMessage).
    split; [exact Hprep|]. split; [reflexivity|]. split; [exact Hpost|].
    split; [reflexivity|]. split; [reflexivity|exact Hnone].
  - destruct (postMessage client (blockArgs params channelId convertedMessage))
      as [blockKitError|ts] eqn:Hblock.
    + destruct (postMessage client (plainArgs params channelId convertedMessage))
        as [error|ts] eqn:Hpost; [discriminate|].
      injection Hrun as <- <-.
      exists (prepSteps params ++ [StepPost (blockArgs params channelId convertedMessage)]),
        (plainArgs params channelId convertedMessage).
      split; [exact Hprep|]. split; [rewrite <- app_assoc; reflexivity|].
      split; [exact Hpost|]. split; [reflexivity|]. split; [reflexivity|].
      intros other Hin. apply in_app_iff in Hin as [Hin|[Hin|[]]]; [auto|].
      injection Hin as <-. eauto.
    + injection Hrun as <- <-.
      exists (prepSteps params), (blockArgs params channelId convertedMessage).
      split; [exact Hprep|]. split; [reflexivity|]. split; [exact Hblock|].
      split; [reflexivity|]. split; [reflexivity|exact Hnone].
Qed.

(** X18: what a failed post reports.  When [sendMessage] fails after it
    posted, every post it made was rejected, and the error thrown is
    [mapSlackError] of the first rejection: when the Block Kit attempt and
    the plain-text fallback both fail, the caller sees the Block Kit error
    and never the fallback's.  Its code is [CHANNEL_NOT_FOUND] when that
    rejection's message contains [channel_not_found] and [SEND_FAILED]
    otherwise. *)
Theorem sendMessage_reports_the_first_rejection (_client : option SlackClient)
    (env : Env) (params : SendMessageParams.t) (e : JsError) (steps : list SendStep)
    (posted : PostArgs.t) :
  send _client env params = (Failed e, steps) ->
  In (StepPost posted) steps ->
  exists client first error later,
    steps = prepSteps params ++ StepPost first :: later
    /\ postMessage client first = inl error
    /\ e = SlackError (mapSlackError error (SendMessageParams.channel_name params))
    /\ (exists thrown,
          e = SlackError thrown
          /\ code thrown = if includes "channel_not_found" error
                           then CHANNEL_NOT_FOUND else SEND_FAILED)
    /\ forall other, In (StepPost other) later ->
                     exists error', postMessage client other = inl error'.
Proof.
  intros Hrun Hin.
  destruct (sendMessage_stages _client env params)
    as [(e' & steps' & Hfail & Hnone)|(client & convertedMessage & channelId & Hprep)].
  { rewrite Hfail in Hrun. injection Hrun as <- <-. destruct (Hnone posted Hin). }
  exists client.
  rewrite (sendMessage_prepared _ _ _ _ _ _ Hprep) in Hrun. cbv zeta in Hrun.
  destruct (BLOCK_KIT_TEXT_LIMIT <? jsLength convertedMessage)%nat.
  - destruct (postMessage client (plainArgs params channelId convertedMessage))
      as [error|ts] eqn:Hpost; [|discriminate].
    injection Hrun as <- <-.
    exists (plainArgs params channelId convertedMessage), error, [].
    split; [reflexivity|]. split; [exact Hpost|]. split; [reflexivity|].
    split; [eexists; split; [reflexivity|apply mapSlackError_code]|].
    intros other [].
  - destruct (postMessage client (blockArgs params channelId convertedMessage))
      as [blockKitError|ts] eqn:Hblock; [|discriminate].
    destruct (postMessage client (plainArgs params channelId convertedMessage))
      as [error|ts] eqn:Hpost; [|discriminate].
    injection Hrun as <- <-.
    exists (blockArgs params channelId convertedMessage), blockKitError,
      [StepPost (plainArgs params channelId convertedMessage)].
    split; [reflexivity|]. split; [exact Hblock|]. split; [reflexivity|].
    split; [eexists; split; [reflexivity|apply mapSlackError_code]|].
    intros other [H|[]]. injection H as <-. eauto.
Qed.

End SendFacts.

Lemma sendMessage_posts_only_validated_witness :
  let args := plainArgs replyInGeneral "C1" "hello" in
  exists client convertedMessage channelId,
    PreparedSend convertsNothing knowsGeneral None envWithTokens replyInGeneral
                 client convertedMessage channelId
    /\ PostArgs.channel args = channelId
    /\ PostArgs.unfurl_links args = false
    /\ PostArgs.unfurl_media args = false
    /\ PostArgs.thread_ts args = truthy (SendMessageParams.thread_ts replyInGeneral)
    /\ (PostArgs.blocks args = Some (blocksOf convertedMessage)
        /\ PostArgs.text args = convertedMessage
        /\ (jsLength convertedMessage <= BLOCK_KIT_TEXT_LIMIT)%nat
        \/ PostArgs.blocks args = None
           /\ PostArgs.text args = ":robot_face: " +:+ convertedMessage).
Proof.
  intros args.
  apply (sendMessage_posts_only_validated convertsNothing knowsGeneral acceptsPlainOnly
           None envWithTokens replyInGeneral args).
  vm_compute. auto.
Defined.

(** The limit counts code units, not bytes: 1501 accented letters are 3002
    bytes of UTF-8 and 1501 code units, and go out as blocks; 1501
    characters outside the basic plane are 3002 code units, and go out as
    plain text. *)
Example sendMessage_counts_code_units :
  String.length (accents 1501) = 3002%nat
  /\ jsLength (accents 1501) = 1501%nat
  /\ snd (sendMessage convertsNothing knowsGeneral (fun _ _ => inr (Some "1.000001"))
                      None envWithTokens
                      (SendMessageParams.mk "general" (accents 1501) None))
     = (let params := SendMessageParams.mk "general" (accents 1501) None in
        prepSteps params ++ [StepPost (blockArgs params "C1" (accents 1501))])
  /\ jsLength (emojis 1501) = 3002%nat
  /\ snd (sendMessage convertsNothing knowsGeneral (fun _ _ => inr (Some "1.000001"))
                      None envWithTokens
                      (SendMessageParams.mk "general" (emojis 1501) None))
     = (let params := SendMessageParams.mk "general" (emojis 1501) None in
        prepSteps params ++ [StepPost (plainArgs params "C1" (emojis 1501))]).
Proof. repeat split; vm_compute; reflexivity. Qed.

(** Blocks rejected, plain text accepted: the result names the fallback. *)
Lemma sendMessage_reports_the_accepted_post_witness :
  let r := makeResult replyInGeneral "C1" "hello" (Some "1700000000.000100") true in
  let steps := prepSteps replyInGeneral
               ++ [StepPost (blockArgs replyInGeneral "C1" "hello");
                   StepPost (plainArgs replyInGeneral "C1" "hello")] in
  exists client convertedMessage channelId earlier args,
    PreparedSend convertsNothing knowsGeneral None envWithTokens replyInGeneral
                 client convertedMessage channelId
    /\ steps = earlier ++ [StepPost args]
    /\ acceptsPlainOnly client args = inr (SendMessageResult.message_ts r)
    /\ PostArgs.channel args = channelId
    /\ r = makeResult replyInGeneral channelId convertedMessage
                      (SendMessageResult.message_ts r)
                      match PostArgs.blocks args with
                      | Some _ => false
                      | None => true
                      end
    /\ forall other, In (StepPost other) earlier ->
                     exists error, acceptsPlainOnly client other = inl error.
Proof.
  intros r steps.
  apply (sendMessage_reports_the_accepted_post convertsNothing knowsGeneral
           acceptsPlainOnly None envWithTokens replyInGeneral r steps).
  vm_compute. reflexivity.
Defined.

(** Both posts rejected: the error is that of the Block Kit attempt. *)
Lemma sendMessage_reports_the_first_rejection_witness :
  let e := SlackError (mkError SEND_FAILED
                         ("You are not a member of " +:+ dquote +:+ "#general" +:+ dquote
                          +:+ ". Join the channel first.")) in
  let steps := prepSteps replyInGeneral
               ++ [StepPost (blockArgs replyInGeneral "C1" "hello");
                   StepPost (plainArgs replyInGeneral "C1" "hello")] in
  exists client first error later,
    steps = prepSteps replyInGeneral ++ StepPost first :: later
    /\ rejectsBoth client first = inl error
    /\ e = SlackError (mapSlackError error (SendMessageParams.channel_name replyInGeneral))
    /\ (exists thrown,
          e = SlackError thrown
          /\ code thrown = if includes "channel_not_found" error
                           then CHANNEL_NOT_FOUND else SEND_FAILED)
    /\ forall other, In (StepPost other) later ->
                     exists error', rejectsBoth client other = inl error'.
Proof.
  intros e steps.
  apply (sendMessage_reports_the_first_rejection convertsNothing knowsGeneral
           rejectsBoth None envWithTokens replyInGeneral e steps
           (blockArgs replyInGeneral "C1" "hello")).
  - vm_compute. reflexivity.
  - vm_compute. auto.
Defined.

(** ** The tool handler *)

Lemma jsString_nonempty (v : JsValue) :
  (negb (jsTruthy v) || negb (typeofString v)) = false
  <-> exists s, v = JsString s /\ s <> EmptyString.
Proof.
  split.
  - intros H. destruct v as [| |b|n|[|c s]|]; simpl in H;
      try discriminate; try (rewrite orb_true_r in H; discriminate).
    eexists. split; [reflexivity|discriminate].
  - intros (s & -> & Hne). destruct s; [congruence|reflexivity].
Qed.

Section ServerFacts.

Variable sendMessage_ : SendMessageParams.t -> SendOutcome.

(** X19: the handler's guard.  [sendMessage] is called exactly when the
    tool is [send_message] and [channel_name] and [message] are both
    non-empty strings; it then gets these two strings as they are, and
    [thread_ts] only if that is a string. *)
Theorem callTool_guards_sendMessage (name : string) (args : option (gmap string JsValue))
    (params : SendMessageParams.t) :
  snd (callTool sendMessage_ name args) = Some params
  <-> name = "send_message"
      /\ getProp args "channel_name" = JsString (SendMessageParams.channel_name params)
      /\ SendMessageParams.channel_name params <> EmptyString
      /\ getProp args "message" = JsString (SendMessageParams.message params)
      /\ SendMessageParams.message params <> EmptyString
      /\ SendMessageParams.thread_ts params
         = match getProp args "thread_ts" with
           | JsString ts => Some ts
           | _ => None
           end.
Proof.
  unfold callTool.
  destruct (String.eqb_spec name "send_message") as [->|Hname];
    [|split; [discriminate|intros (H & _); congruence]].
  destruct (negb (jsTruthy (getProp args "channel_name"))
            || negb (typeofString (getProp args "channel_name"))) eqn:Hch.
  { split; [discriminate|]. intros (_ & Hc & Hne & _).
    assert (Hok : (negb (jsTruthy (getProp args "channel_name"))
                   || negb (typeofString (getProp args "channel_name"))) = false).
    { apply jsString_nonempty. eauto. }
    congruence. }
  destruct (negb (jsTruthy (getProp args "message"))
            || negb (typeofString (getProp args "message"))) eqn:Hmsg.
  { split; [discriminate|]. intros (_ & _ & _ & Hm & Hne & _).
    assert (Hok : (negb (jsTruthy (getProp args "message"))
                   || negb (typeofString (getProp args "message"))) = false).
    { apply jsString_nonempty. eauto. }
    congruence. }
  apply jsString_nonempty in Hch as (ch & Hch & Hchne).
  apply jsString_nonempty in Hmsg as (msg & Hmsg & Hmsgne).
  rewrite Hch, Hmsg. simpl.
  split.
  - intros [= <-]. simpl. repeat split; auto.
    destruct (getProp args "thread_ts"); reflexivity.
  - intros (_ & [= Hc] & _ & [= Hm] & _ & Ht).
    destruct params as [pc pm pt]. simpl in *. subst. f_equal. f_equal.
    destruct (getProp args "thread_ts"); reflexivity.
Qed.

(** X20: a [thread_ts] that is not a string is dropped without a word: the
    call behaves exactly as if no [thread_ts] had been given, so the
    message goes to the channel and not to a thread. *)
Theorem callTool_drops_non_string_thread_ts (name : string)
    (record : gmap string JsValue) (v : JsValue) :
  typeofString v = false ->
  callTool sendMessage_ name (Some (<["thread_ts" := v]> record))
  = callTool sendMessage_ name (Some (delete "thread_ts" record)).
Proof.
  intros Hv. unfold callTool, getProp.
  rewrite !lookup_insert_eq, !lookup_delete_eq.
  rewrite !lookup_insert_ne by discriminate.
  rewrite !lookup_delete_ne by discriminate.
  simpl. rewrite Hv. reflexivity.
Qed.

End ServerFacts.

Lemma callTool_drops_non_string_thread_ts_witness :
  callTool (fun p => fst (sendMessage convertsNothing knowsGeneral acceptsPlainOnly
                                      None envWithTokens p))
           "send_message" (Some argsWithNumber)
  = callTool (fun p => fst (sendMessage convertsNothing knowsGeneral acceptsPlainOnly
                                        None envWithTokens p))
             "send_message"
             (Some (delete "thread_ts" twoArgs)).
Proof.
  apply (callTool_drops_non_string_thread_ts _ "send_message" twoArgs
           (JsNumber 1700000000)).
  reflexivity.
Defined.

Section ToolFacts.

Variable convertMentions_ : string -> SlackClient -> JsError + string.
Variable getChannelId_ : string -> SlackClient -> JsError + option string.
Variable postMessage : SlackClient -> PostArgs.t -> string + option string.
Variable _client : option SlackClient.
Variable env : Env.

Local Abbreviation tool :=
  (callTool (fun params => fst (sendMessage convertMentions_ getChannelId_ postMessage
                                            _client env params))).

(** X21: when the tool call rejects.  With [sendMessage] in place, the
    handler rejects (instead of answering) in two cases only: the tool is
    not [send_message], or mention conversion or channel resolution
    rejected with an error that is no [SlackMcpError], which is passed on
    as it is.  A missing token, a bad argument, an invalid [thread_ts], an
    unknown channel and a post that Slack rejects are all answered in
    band. *)
Theorem callTool_rejects_only_on_foreign_errors (name : string)
    (args : option (gmap string JsValue)) (msg : string)
    (called : option SendMessageParams.t) :
  tool name args = (ToolThrows msg, called) ->
  name <> "send_message" /\ msg = "Unknown tool: " +:+ name /\ called = None
  \/ name = "send_message"
     /\ exists params client,
          called = Some params
          /\ fst (getSlackClient _client env) = inr client
          /\ (convertMentions_ (SendMessageParams.message params) client
              = inl (OtherError msg)
              \/ getChannelId_ (SendMessageParams.channel_name params) client
                 = inl (OtherError msg)).
Proof.
  unfold callTool.
  destruct (String.eqb_spec name "send_message") as [->|Hname].
  - destruct (negb (jsTruthy (getProp args "channel_name"))
              || negb (typeofString (getProp args "channel_name"))); [discriminate|].
    destruct (negb (jsTruthy (getProp args "message"))
              || negb (typeofString (getProp args "message"))); [discriminate|].
    set (params := SendMessageParams.mk _ _ _).
    intros [= H <-]. right. split; [reflexivity|]. exists params.
    revert H. unfold sendMessage.
    destruct (fst (getSlackClient _client env)) as [ce|client] eqn:Hclient;
      [simpl; discriminate|].
    intros H. exists client. split; [reflexivity|]. split; [reflexivity|].
    revert H. cbv zeta.
    destruct (match truthy (SendMessageParams.thread_ts params) with
              | Some ts => _
              | None => None
              end); [simpl; discriminate|].
    destruct (convertMentions_ (SendMessageParams.message params) client)
      as [[ce|cmsg]|convertedMessage];
      [simpl; discriminate|simpl; intros [= <-]; auto|].
    destruct (getChannelId_ (SendMessageParams.channel_name params) client)
      as [[ce|cmsg]|found];
      [simpl; discriminate|simpl; intros [= <-]; auto|].
    destruct (truthy found); [|simpl; discriminate].
    unfold sendPlainText.
    destruct (BLOCK_KIT_TEXT_LIMIT <? _)%nat.
    + destruct (postMessage client _); simpl; discriminate.
    + destruct (postMessage client _); [|simpl; discriminate].
      destruct (postMessage client _); simpl; discriminate.
  - simpl. intros [= <- <-]. left. auto.
Qed.

End ToolFacts.

Lemma callTool_rejects_only_on_foreign_errors_witness :
  let msg := "database is locked" in
  let called := Some (SendMessageParams.mk "general" "hello" None) in
  "send_message" <> "send_message"
  /\ msg = "Unknown tool: " +:+ "send_message" /\ called = None
  \/ "send_message" = "send_message"
     /\ exists params client,
          called = Some params
          /\ fst (getSlackClient None envWithTokens) = inr client
          /\ (conversionCrashes (SendMessageParams.message params) client
              = inl (OtherError msg)
              \/ knowsGeneral (SendMessageParams.channel_name params) client
                 = inl (OtherError msg)).
Proof.
  intros msg called.
  apply (callTool_rejects_only_on_foreign_errors conversionCrashes knowsGeneral
           acceptsPlainOnly None envWithTokens "send_message" (Some argsWithNumber)
           msg called).
  vm_compute. reflexivity.
Defined.
